(** * Feed ranking and cache invalidation engine of devoci.in

    A shallow embedding of the services of [apps/api/src] that rank,
    cache and invalidate feeds: the Redis cache utility ([db/redis]),
    the role computation service, the feed service, the trending
    service, the article service and the engagement service.

    Numbers.  JavaScript numbers are IEEE doubles.  The embedding uses
    exact arithmetic instead: rationals [Q] wherever the code only adds,
    multiplies, divides, rounds and compares, and the reals [R] for the
    one place that raises to the power 1.8.  Counters and timestamps in
    milliseconds are integers [Z].  A statement about the order of two
    scores is made where the doubles keep the order of the exact
    values: for integer counters and ages of whole milliseconds in a
    bounded range.

    Ids.  The [_id] of an article or a user is an [ObjectId], kept as
    its hexadecimal string; the ids of an engagement row are kept with
    the BSON type they are stored with, since a query that goes through
    the model compares them as strings and an aggregation pipeline
    compares them as they are. *)

From Stdlib Require Import Reals Lra.
From Stdlib Require Import QArith Qround Qminmax Qabs Lqa Lia ZArith Sorted.
From Stdlib Require Ascii.
From stdpp Require Import gmap strings list fin_maps pretty.

Local Open Scope Z_scope.

(* ===================================================================== *)
(** * JavaScript primitives used by the services *)
(* ===================================================================== *)

Module JS.

(** [Math.round(x)]: the nearest integer, ties towards +infinity. *)
Definition Math_round (x : Q) : Z := Qfloor (x + (1 # 2))%Q.

(** [Math.round(x * 100) / 100], the idiom both role functions use to
    keep two decimals. *)
Definition round2 (x : Q) : Q := (inject_Z (Math_round (x * 100)) / 100)%Q.

(** [Math.min(a, b)] and [Math.max(a, b)]. *)
Definition Math_min (a b : Q) : Q := if Qle_bool a b then a else b.
Definition Math_max (a b : Q) : Q := if Qle_bool a b then b else a.

(** [a >= b] and [a <= b] on numbers. *)
Definition geq (a b : Q) : bool := Qle_bool b a.
Definition leq (a b : Q) : bool := Qle_bool a b.

(** [x || 0] on a number that may be [undefined]. *)
Definition or_zero (x : option Q) : Q := default 0%Q x.

(** [Array.prototype.sort(cmp)] is a stable sort.  [before y x] says
    that the comparator puts [y] strictly in front of [x]; an element
    is inserted in front of the first element that is not strictly in
    front of it, which keeps equal elements in their original order. *)
Section Sort.
Context {A : Type} (before : A -> A -> bool).

Fixpoint insert_sorted (x : A) (l : list A) : list A :=
  match l with
  | [] => [x]
  | y :: l' => if before y x then y :: insert_sorted x l' else x :: y :: l'
  end.

Fixpoint sort (l : list A) : list A :=
  match l with
  | [] => []
  | x :: l' => insert_sorted x (sort l')
  end.
End Sort.

(** [Array.prototype.slice(0, n)]. *)
Definition slice0 {A} (n : nat) (l : list A) : list A := take n l.

(** [String.prototype.toLowerCase] on the ASCII range. *)
Definition lower_ascii (c : Ascii.ascii) : Ascii.ascii :=
  let n := Ascii.nat_of_ascii c in
  if (65 <=? n)%nat && (n <=? 90)%nat then Ascii.ascii_of_nat (n + 32) else c.

Fixpoint toLowerCase (s : string) : string :=
  match s with
  | EmptyString => EmptyString
  | String c s' => String (lower_ascii c) (toLowerCase s')
  end.

(** [String.prototype.startsWith] and [String.prototype.includes]. *)
Fixpoint startsWith (s p : string) : bool :=
  match p, s with
  | EmptyString, _ => true
  | String _ _, EmptyString => false
  | String a p', String b s' => if Ascii.eqb a b then startsWith s' p' else false
  end.

Fixpoint includes (s p : string) : bool :=
  startsWith s p ||
  match s with
  | EmptyString => false
  | String _ s' => includes s' p
  end.

End JS.

(* ===================================================================== *)
(** * Data model ([models/*], [types]) *)
(* ===================================================================== *)

(** [DynamicRole] (user side) and [TargetRole] (article side) are the
    same shape: [{ role: string; weight: number }]. *)
Record RoleWeight := mkRole { role : string; weight : Q }.
Abbreviation DynamicRole := RoleWeight (only parsing).
Abbreviation TargetRole := RoleWeight (only parsing).

(** The fields of [IArticle] the services read.  The fields that the
    scorer guards with [|| []] or [|| 0] may be missing. *)
Module Article.
Record t := mk {
  _id : string;
  publishedAt : option Z;          (* milliseconds since the epoch *)
  qualityScore : Q;
  targetRoles : option (list TargetRole);
  skillLevel : string;
  tags : option (list string);
  isClickbait : bool;
  views : option Z;
  saves : option Z;
  shares : option Z;
  isActive : bool
}.
End Article.
Abbreviation FeedArticle := Article.t (only parsing).

(** [ScoredArticle extends FeedArticle { relevanceScore }]. *)
Record ScoredArticle := mkScored { article : FeedArticle; relevanceScore : Z }.

Inductive EngagementType := VIEW | SAVE | SHARE | RATE | UNSAVE.

(** An id in a stored document is a BSON string or a BSON [ObjectId],
    and the two never compare equal in a query, whatever their
    characters.  [_id] of an article and of a user is an [ObjectId]; the
    models keep its 24 hexadecimal characters, here a [string]. *)
Module Bson.
Inductive Id :=
| Str (s : string)
| ObjectId (hex : string).

Definition eqb (a b : Id) : bool :=
  match a, b with
  | Str s, Str t => String.eqb s t
  | ObjectId s, ObjectId t => String.eqb s t
  | _, _ => false
  end.

(** [id.toString()]. *)
Definition toString (a : Id) : string :=
  match a with
  | Str s => s
  | ObjectId hex => hex
  end.

Definition Id_eq_dec (a b : Id) : {a = b} + {a <> b}.
Proof. decide equality; apply String.string_dec. Defined.
End Bson.

(** The fields of [IEngagement] the services read.  The schema declares
    [userId] and [articleId] as [String] and has
    [timestamps: { createdAt: true, updatedAt: false }]: a row written
    through the model stores both ids as strings, and there is no path
    [updatedAt].  The collection itself holds what was stored, so a row
    is modelled with the BSON type of its ids. *)
Module Engagement.
Record t := mk {
  userId : Bson.Id;
  articleId : Bson.Id;
  type : EngagementType;
  createdAt : Z
}.
End Engagement.

Module User.
Record UserPreferences := mkPrefs {
  topics : option (list string);
  skillLevel : option string
}.
Record t := mk {
  _id : string;
  dynamicRoles : option (list DynamicRole);
  preferences : option UserPreferences;
  lastActiveAt : option Z
}.
End User.
Abbreviation LeanUser := User.t (only parsing).

#[global] Instance EngagementType_eq_dec : EqDecision EngagementType.
Proof. solve_decision. Defined.

(** Sum of the weights of a role list. *)
Definition sum_weights (l : list RoleWeight) : Q :=
  foldl (fun sum r => (sum + weight r)%Q) 0%Q l.

(* ===================================================================== *)
(** * The stores: MongoDB collections and the Redis cache *)
(* ===================================================================== *)

(** What the services put in the cache.  [cache.set] stores
    [JSON.stringify(value)] and [cache.get<T>] returns [JSON.parse(data)]
    cast to [T] without a check, so a read yields whatever shape was
    written under the key.  The services store arrays and objects only:
    their JSON text is never the empty string, which [cache.get] would
    take for a missing key, and it always parses, so the [catch] around
    [JSON.parse] and the string branch of [cache.set] are not reached.
    A stored value stands for its JSON image. *)
Inductive cval :=
| CScored (l : list ScoredArticle)
| CArticles (l : list FeedArticle)
| CArticle (a : Article.t).

Record CacheEntry := mkEntry { data : cval; ttl : Z }.

(** The state the services run against.  [faults] is the outcome of the
    coming Redis commands, one flag per command, [true] for a command
    that throws (connection lost, retries exhausted); commands after the
    end of the list succeed.  MongoDB commands are taken to succeed. *)
Record World := mkWorld {
  articles : list Article.t;
  engagements : list Engagement.t;
  users : list User.t;
  redis : gmap string CacheEntry;
  faults : list bool
}.

Definition with_articles (l : list Article.t) (w : World) : World :=
  mkWorld l (engagements w) (users w) (redis w) (faults w).
Definition with_engagements (l : list Engagement.t) (w : World) : World :=
  mkWorld (articles w) l (users w) (redis w) (faults w).
Definition with_users (l : list User.t) (w : World) : World :=
  mkWorld (articles w) (engagements w) l (redis w) (faults w).
Definition with_redis (r : gmap string CacheEntry) (w : World) : World :=
  mkWorld (articles w) (engagements w) (users w) r (faults w).
Definition with_faults (f : list bool) (w : World) : World :=
  mkWorld (articles w) (engagements w) (users w) (redis w) f.

(** An [async] function: it returns a value or throws, and changes the
    stores on the way. *)
Inductive Res (A : Type) :=
| Ok (a : A)
| Throw.
Arguments Ok {A} a.
Arguments Throw {A}.

Definition M (A : Type) : Type := World -> Res A * World.

Definition ret {A} (a : A) : M A := fun w => (Ok a, w).

Definition bind {A B} (m : M A) (k : A -> M B) : M B :=
  fun w =>
    match m w with
    | (Ok a, w') => k a w'
    | (Throw, w') => (Throw, w')
    end.

Declare Scope async_scope.
Delimit Scope async_scope with async.
Notation "'await' x <- m ; k" := (bind m (fun x => k))
  (at level 10, x name, m at level 100, k at level 200) : async_scope.
Notation "'await_' m ; k" := (bind m (fun _ => k))
  (at level 10, m at level 100, k at level 200) : async_scope.
Local Open Scope async_scope.

Definition get_world : M World := fun w => (Ok w, w).
Definition modify (f : World -> World) : M unit := fun w => (Ok tt, f w).

(** [try { body } catch { }]: a throw of the body becomes [None]; the
    stores stay as the body left them when it threw. *)
Definition try_catch {A} (body : M A) : M (option A) :=
  fun w =>
    match body w with
    | (Ok a, w') => (Ok (Some a), w')
    | (Throw, w') => (Ok None, w')
    end.

(** One command sent through the ioredis client. *)
Definition client {A} (op : gmap string CacheEntry -> A * gmap string CacheEntry)
    : M A :=
  fun w =>
    match faults w with
    | true :: fs => (Throw, with_faults fs w)
    | false :: fs =>
        let '(a, r) := op (redis w) in (Ok a, with_redis r (with_faults fs w))
    | [] => let '(a, r) := op (redis w) in (Ok a, with_redis r w)
    end.

(** Redis glob patterns, for [KEYS]: [*] matches any run of characters,
    [?] one character, any other character itself. *)
Fixpoint glob (p s : string) : bool :=
  match p with
  | EmptyString => match s with EmptyString => true | _ => false end
  | String c p' =>
      if Ascii.eqb c (Ascii.ascii_of_nat 42) then
        (fix star (s : string) : bool :=
           glob p' s || match s with
                        | EmptyString => false
                        | String _ s' => star s'
                        end) s
      else
        match s with
        | EmptyString => false
        | String d s' => (Ascii.eqb c (Ascii.ascii_of_nat 63) || Ascii.eqb c d) && glob p' s'
        end
  end.

Module cache.

(** [cache.get]: [null] when the key holds nothing. *)
Definition get (key : string) : M (option cval) :=
  await e <- client (fun r => (r !! key, r));
  ret (data <$> e).

(** [cache.set]: [SETEX key ttl data].  Every time to live the services
    pass is a positive constant. *)
Definition set (key : string) (value : cval) (ttlSeconds : Z) : M unit :=
  client (fun r => (tt, <[key := mkEntry value ttlSeconds]> r)).

(** [DEL k1 ... kn]: the number of keys that were removed. *)
Definition DEL (keys : list string) (r : gmap string CacheEntry)
    : Z * gmap string CacheEntry :=
  (Z.of_nat (length (List.filter (fun k => bool_decide (is_Some (r !! k))) keys)),
   foldr delete r keys).

(** [cache.del]. *)
Definition del (key : string) : M unit :=
  await_ client (DEL [key]);
  ret tt.

(** [KEYS pattern]. *)
Definition KEYS (pattern : string) (r : gmap string CacheEntry) : list string :=
  List.filter (glob pattern) (map fst (map_to_list r)).

(** [cache.delPattern]. *)
Definition delPattern (pattern : string) : M Z :=
  await keys <- client (fun r => (KEYS pattern r, r));
  if (length keys =? 0)%nat then ret 0
  else
    await deleted <- client (DEL keys);
    ret deleted.

End cache.

Module cacheKeys.

Definition userFeed (userId : string) (page : N) : string :=
  "feed:user:" +:+ userId +:+ ":page:" +:+ pretty page.

Definition article (articleId : string) : string :=
  "article:" +:+ articleId +:+ ":data".

Definition trending (days : Z) : string :=
  "trending:articles:" +:+ pretty days +:+ "days".

Definition userProfile (userId : string) : string :=
  "user:" +:+ userId +:+ ":profile".

Definition session (sessionId : string) : string := "session:" +:+ sessionId.

End cacheKeys.

Module cacheTTL.
Definition feed : Z := 5 * 60.
Definition article : Z := 60 * 60.
Definition trending : Z := 10 * 60.
End cacheTTL.

(** ** MongoDB commands used by the services *)

Module Mongo.

(** [Model.findById(id)]. *)
Definition findUserById (id : string) : M (option User.t) :=
  await w <- get_world;
  ret (List.find (fun u => String.eqb (User._id u) id) (users w)).

(** The first document that satisfies [p] is replaced by [f] of it;
    nothing changes when there is none. *)
Fixpoint update_first {A} (p : A -> bool) (f : A -> A) (l : list A)
    : option (list A) :=
  match l with
  | [] => None
  | x :: l' =>
      if p x then Some (f x :: l')
      else cons x <$> update_first p f l'
  end.

Definition update_one {A} (p : A -> bool) (f : A -> A) (l : list A) : list A :=
  default l (update_first p f l).

(** [findOneAndUpdate(filter, update, { upsert: true })]: without a
    match the document [fresh] is inserted. *)
Definition upsert_one {A} (p : A -> bool) (f : A -> A) (fresh : A) (l : list A)
    : list A :=
  default (l ++ [fresh]) (update_first p f l).

(** [$inc] on a counter that may be missing. *)
Definition inc (by_ : Z) (c : option Z) : option Z := Some (default 0 c + by_).

Definition updateArticleById (id : string) (f : Article.t -> Article.t) : M unit :=
  modify (fun w =>
    with_articles
      (update_one (fun a => String.eqb (Article._id a) id) f (articles w)) w).

Definition updateUserById (id : string) (f : User.t -> User.t) : M unit :=
  modify (fun w =>
    with_users (update_one (fun u => String.eqb (User._id u) id) f (users w)) w).

Definition inc_views (a : Article.t) : Article.t :=
  Article.mk (Article._id a) (Article.publishedAt a) (Article.qualityScore a)
    (Article.targetRoles a) (Article.skillLevel a) (Article.tags a)
    (Article.isClickbait a) (inc 1 (Article.views a)) (Article.saves a)
    (Article.shares a) (Article.isActive a).

Definition inc_saves (by_ : Z) (a : Article.t) : Article.t :=
  Article.mk (Article._id a) (Article.publishedAt a) (Article.qualityScore a)
    (Article.targetRoles a) (Article.skillLevel a) (Article.tags a)
    (Article.isClickbait a) (Article.views a) (inc by_ (Article.saves a))
    (Article.shares a) (Article.isActive a).

(** Order on values that may be missing, as MongoDB sorts them: a
    missing value is below every number. *)
Definition opt_lt {A} (lt : A -> A -> bool) (x y : option A) : bool :=
  match x, y with
  | None, Some _ => true
  | Some a, Some b => lt a b
  | _, _ => false
  end.

Definition opt_eq {A} (eq : A -> A -> bool) (x y : option A) : bool :=
  match x, y with
  | None, None => true
  | Some a, Some b => eq a b
  | _, _ => false
  end.

(** [.limit(n)] of a query: a limit of 0 is no limit. *)
Definition limit {A} (n : nat) (l : list A) : list A :=
  match n with
  | O => l
  | S _ => take n l
  end.

(** [$gte] against a date: a missing field does not match. *)
Definition date_gte (d : option Z) (since : Z) : bool :=
  match d with
  | Some t => since <=? t
  | None => false
  end.

End Mongo.


(* ===================================================================== *)
(** * Role computation service ([roleService], pure part) *)
(* ===================================================================== *)

Module roleService.

Definition SMOOTHING_FACTOR : Q := 7 # 10.

Definition VALID_ROLES : list string :=
  ["FRONTEND"; "BACKEND"; "DEVOPS"; "ML"; "MOBILE"; "DATA"; "SECURITY"].

Definition is_valid_role (r : string) : bool :=
  existsb (String.eqb r) VALID_ROLES.

(** The [$switch] of the aggregation: save=3, share=5, default 1. *)
Definition engagementWeight (t : EngagementType) : Q :=
  match t with
  | SAVE => 3
  | SHARE => 5
  | _ => 1
  end%Q.

Definition in_window_types (t : EngagementType) : bool :=
  match t with
  | VIEW | SAVE | SHARE => true
  | _ => false
  end.

(** [$match], [$lookup], the two [$unwind]s and [$addFields]: one row
    [(role, engagementWeight * targetRole.weight)] per matching
    engagement, joined article and target role of that article.  An
    aggregation pipeline is sent as it is written, without a cast to the
    schema: [$match] compares the stored [userId] with
    [new Types.ObjectId(userId)], and [$lookup] the stored [articleId]
    with the [_id] of the article, an [ObjectId].  A row whose ids are
    stored as strings matches neither. *)
Definition pipeline_rows (engagements : list Engagement.t)
    (articles : list Article.t) (userId : string) (since : Z)
    : list (string * Q) :=
  e ← List.filter (fun e =>
         Bson.eqb (Engagement.userId e) (Bson.ObjectId userId)
         && (since <=? Engagement.createdAt e)
         && in_window_types (Engagement.type e)) engagements;
  a ← List.filter (fun a =>
         Bson.eqb (Engagement.articleId e) (Bson.ObjectId (Article._id a)))
         articles;
  r ← default [] (Article.targetRoles a);
  [(role r, (engagementWeight (Engagement.type e) * weight r)%Q)].

(** [$group] by role with [$sum]; groups appear in the order in which
    their role is first met. *)
Fixpoint group_add (k : string) (v : Q) (acc : list (string * Q))
    : list (string * Q) :=
  match acc with
  | [] => [(k, v)]
  | (k', v') :: acc' =>
      if String.eqb k k' then (k', (v' + v)%Q) :: acc'
      else (k', v') :: group_add k v acc'
  end.

Definition group (rows : list (string * Q)) : list (string * Q) :=
  foldl (fun acc kv => group_add kv.1 kv.2 acc) [] rows.

Definition heavier (y x : RoleWeight) : bool :=
  negb (Qle_bool (weight y) (weight x)).

(** The JavaScript that follows the aggregation. *)
Definition normalize_groups (engagements : list (string * Q)) : list DynamicRole :=
  if (length engagements =? 0)%nat then []
  else
    let totalWeight := foldl (fun sum e => (sum + e.2)%Q) 0%Q engagements in
    if Qeq_bool totalWeight 0 then []
    else
      JS.sort heavier
        (List.filter (fun r => JS.geq (weight r) (5 # 100))
           (map (fun e => mkRole e.1 (JS.round2 (e.2 / totalWeight)))
              (List.filter (fun e => is_valid_role e.1) engagements))).

Definition ms_per_day : Z := 24 * 60 * 60 * 1000.

Definition computeUserRoles (engagements : list Engagement.t)
    (articles : list Article.t) (now : Z) (userId : string) (days : Z)
    : list DynamicRole :=
  let since := now - days * ms_per_day in
  normalize_groups (group (pipeline_rows engagements articles userId since)).

(** [new Map(previous.map(r => [r.role, r.weight]))]: a later entry
    for the same role replaces an earlier one. *)
Definition Map_of (previous : list DynamicRole) : gmap string Q :=
  foldl (fun m r => <[role r := weight r]> m) ∅ previous.

Definition has_role (smoothed : list DynamicRole) (r : string) : bool :=
  existsb (fun s => String.eqb (role s) r) smoothed.

(** The loop that keeps decayed roles of [previous]; [smoothed] grows
    while the loop runs, so a role is pushed at most once. *)
Definition keep_previous (smoothed : list DynamicRole) (prev : DynamicRole)
    : list DynamicRole :=
  if has_role smoothed (role prev) then smoothed
  else
    let decayedWeight := (weight prev * (1 - SMOOTHING_FACTOR))%Q in
    if JS.geq decayedWeight (5 # 100)
    then smoothed ++ [mkRole (role prev) (JS.round2 decayedWeight)]
    else smoothed.

(** [smoothRoles(previous, computed)].  The weights are divided by
    their total.  The total is positive when [computed] has weights of
    at least 0.05, as [computeUserRoles] returns them, and [previous]
    has no negative weight; a total of 0 over a list that is not empty,
    where the code divides 0 by 0, is outside the embedding, whose
    division by 0 is 0. *)
Definition smoothRoles (previous computed : list DynamicRole) : list DynamicRole :=
  if (length previous =? 0)%nat then computed
  else
    let prevMap := Map_of previous in
    let smoothed :=
      map (fun r =>
             let prevWeight := JS.or_zero (prevMap !! role r) in
             let smoothedWeight :=
               (SMOOTHING_FACTOR * weight r
                + (1 - SMOOTHING_FACTOR) * prevWeight)%Q in
             mkRole (role r) (JS.round2 smoothedWeight)) computed in
    let smoothed := foldl keep_previous smoothed previous in
    let total := sum_weights smoothed in
    JS.sort heavier
      (map (fun r => mkRole (role r) (JS.round2 (weight r / total))) smoothed).

Record UserRoleUpdate := mkUpdate {
  upd_userId : string;
  previousRoles : list DynamicRole;
  newRoles : list DynamicRole;
  engagementsProcessed : nat
}.

Definition set_roles (newRoles : list DynamicRole) (now : Z) (u : User.t) : User.t :=
  User.mk (User._id u) (Some newRoles) (User.preferences u) (Some now).

(** [roleService.updateUserRoles]. *)
Definition updateUserRoles (now : Z) (userId : string) : M (option UserRoleUpdate) :=
  await user <- Mongo.findUserById userId;
  match user with
  | None => ret None
  | Some user =>
      let previousRoles := default [] (User.dynamicRoles user) in
      await w <- get_world;
      let computedRoles :=
        computeUserRoles (engagements w) (articles w) now userId 30 in
      if (length computedRoles =? 0)%nat then ret None
      else
        let newRoles := smoothRoles previousRoles computedRoles in
        await_ Mongo.updateUserById userId (set_roles newRoles now);
        (* Invalidate user's feed cache *)
        await_ cache.del ("feed:user:" +:+ userId);
        ret (Some (mkUpdate userId previousRoles newRoles (length computedRoles)))
  end.

Record BatchResult := mkBatch {
  usersProcessed : nat;
  usersUpdated : nat;
  errors : nat
}.

(** The loop of [updateAllUserRoles] over the active users, with its
    two counters. *)
Fixpoint updateEach (now : Z) (activeUserIds : list Bson.Id)
    (usersUpdated errors : nat) : M (nat * nat) :=
  match activeUserIds with
  | [] => ret (usersUpdated, errors)
  | userId :: rest =>
      await result <- try_catch (updateUserRoles now (Bson.toString userId));
      match result with
      | Some (Some _) => updateEach now rest (S usersUpdated) errors
      | Some None => updateEach now rest usersUpdated errors
      | None => updateEach now rest usersUpdated (S errors)
      end
  end.

(** [Engagement.distinct('userId', { createdAt: { $gte: since } })]:
    the distinct stored values. *)
Definition distinctUserIds (engagements : list Engagement.t) (since : Z)
    : list Bson.Id :=
  List.nodup Bson.Id_eq_dec
    (map Engagement.userId
       (List.filter (fun e => since <=? Engagement.createdAt e) engagements)).

(** [roleService.updateAllUserRoles(days)]. *)
Definition updateAllUserRoles (now : Z) (days : Z) : M BatchResult :=
  let since := now - days * ms_per_day in
  await w <- get_world;
  let activeUserIds := distinctUserIds (engagements w) since in
  await counters <- updateEach now activeUserIds 0 0;
  ret (mkBatch (length activeUserIds) counters.1 counters.2).

(** The aggregation of [estimateSkillLevel]: the skill level of the
    article of every engagement of the user since [since], whatever
    its type.  The pipeline matches [new Types.ObjectId(userId)] and
    joins on the [_id] of the article, as the one of [computeUserRoles]
    does. *)
Definition skill_rows (engagements : list Engagement.t)
    (articles : list Article.t) (userId : string) (since : Z) : list string :=
  e ← List.filter (fun e =>
         Bson.eqb (Engagement.userId e) (Bson.ObjectId userId)
         && (since <=? Engagement.createdAt e)) engagements;
  a ← List.filter (fun a =>
         Bson.eqb (Engagement.articleId e) (Bson.ObjectId (Article._id a)))
         articles;
  [Article.skillLevel a].

(** [$group] by skill level with [count: { $sum: 1 }]. *)
Fixpoint count_add (k : string) (acc : list (string * Z)) : list (string * Z) :=
  match acc with
  | [] => [(k, 1)]
  | (k', n) :: acc' =>
      if String.eqb k k' then (k', n + 1) :: acc'
      else (k', n) :: count_add k acc'
  end.

Definition count_groups (rows : list string) : list (string * Z) :=
  foldl (fun acc k => count_add k acc) [] rows.

(** [weights[skill._id] || 2]. *)
Definition skill_weight (skill : string) : Z :=
  if String.eqb skill "BEGINNER" then 1
  else if String.eqb skill "INTERMEDIATE" then 2
  else if String.eqb skill "ADVANCED" then 3
  else 2.

(** The JavaScript that follows the aggregation of [estimateSkillLevel]. *)
Definition estimate_from (skillDistribution : list (string * Z)) : string :=
  if (length skillDistribution =? 0)%nat then "INTERMEDIATE"
  else
    let totals :=
      foldl (fun t skill =>
               (t.1 + skill_weight skill.1 * skill.2, t.2 + skill.2))
        (0, 0) skillDistribution in
    let avgWeight := (inject_Z totals.1 / inject_Z totals.2)%Q in
    if JS.leq avgWeight (15 # 10) then "BEGINNER"
    else if JS.geq avgWeight (25 # 10) then "ADVANCED"
    else "INTERMEDIATE".

(** [roleService.estimateSkillLevel(userId)]. *)
Definition estimateSkillLevel (now : Z) (userId : string) : M string :=
  let thirtyDaysAgo := now - 30 * ms_per_day in
  await w <- get_world;
  ret (estimate_from
         (count_groups (skill_rows (engagements w) (articles w) userId thirtyDaysAgo))).

Record RoleProfile := mkProfile {
  profile_roles : list DynamicRole;
  profile_skillLevel : string;
  totalEngagements : nat
}.

(** [roleService.getRoleProfile(userId)].  [countDocuments] goes through
    the model: its filter is cast to the schema, the [ObjectId] to its
    string. *)
Definition getRoleProfile (now : Z) (userId : string) : M RoleProfile :=
  await user <- Mongo.findUserById userId;
  await skillLevel <- estimateSkillLevel now userId;
  let thirtyDaysAgo := now - 30 * ms_per_day in
  await w <- get_world;
  let totalEngagements :=
    length (List.filter (fun e =>
              Bson.eqb (Engagement.userId e) (Bson.Str userId)
              && (thirtyDaysAgo <=? Engagement.createdAt e)) (engagements w)) in
  ret (mkProfile (default [] (user ≫= User.dynamicRoles)) skillLevel totalEngagements).

End roleService.

(* ===================================================================== *)
(** * Feed service ([feedService]) *)
(* ===================================================================== *)

Module feedService.

(** [calculateRoleAlignment]: the loop adds [user_weight * article_weight]
    for every user role the article targets; the sum is capped at 1. *)
Definition role_term (articleRoles : list TargetRole) (userRole : DynamicRole) : Q :=
  match List.find (fun r => String.eqb (role r) (role userRole)) articleRoles with
  | Some articleRole => (weight userRole * weight articleRole)%Q
  | None => 0%Q
  end.

Definition calculateRoleAlignment (userRoles : list DynamicRole)
    (articleRoles : list TargetRole) : Q :=
  let score :=
    foldl (fun score userRole => (score + role_term articleRoles userRole)%Q)
      0%Q userRoles in
  JS.Math_min score 1.

(** [calculateTagMatch]. *)
Definition fuzzy (topic tag : string) : bool :=
  JS.includes (JS.toLowerCase tag) (JS.toLowerCase topic)
  || JS.includes (JS.toLowerCase topic) (JS.toLowerCase tag).

Definition calculateTagMatch (userTopics articleTags : list string) : Q :=
  if (length userTopics =? 0)%nat || (length articleTags =? 0)%nat then 0%Q
  else
    let matches :=
      List.filter (fun topic => existsb (fuzzy topic) articleTags) userTopics in
    (inject_Z (Z.of_nat (length matches))
     / inject_Z (Z.of_nat (Nat.max (length userTopics) (length articleTags))))%Q.

(** [calculateFreshness]; [now] is the value of [Date.now()]. *)
Definition calculateFreshness (now : Z) (publishedAt : option Z) : Q :=
  match publishedAt with
  | None => 1 # 2
  | Some published =>
      let daysOld := (inject_Z (now - published)
                      / inject_Z (1000 * 60 * 60 * 24))%Q in
      if JS.leq daysOld 7 then 1
      else if JS.leq daysOld 14 then 8 # 10
      else if JS.leq daysOld 30 then 5 # 10
      else 2 # 10
  end%Q.

(** [calculateEngagement]. *)
Definition calculateEngagement (article : FeedArticle) : Q :=
  let views := inject_Z (default 0 (Article.views article)) in
  let saves := inject_Z (default 0 (Article.saves article)) in
  let viewScore := JS.Math_min (views / 1000) 1 in
  let saveScore := JS.Math_min (saves / 100) 1 in
  (viewScore * (4 # 10) + saveScore * (6 # 10))%Q.

Definition user_topics (user : LeanUser) : list string :=
  default [] (User.preferences user ≫= User.topics).

(** The weighted sum, before it is scaled and rounded. *)
Definition weighted_total (now : Z) (user : LeanUser) (article : FeedArticle) : Q :=
  let roleScore :=
    calculateRoleAlignment (default [] (User.dynamicRoles user))
      (default [] (Article.targetRoles article)) in
  let tagScore :=
    calculateTagMatch (user_topics user) (default [] (Article.tags article)) in
  let freshnessScore := calculateFreshness now (Article.publishedAt article) in
  let engagementScore := calculateEngagement article in
  (roleScore * (4 # 10) + tagScore * (3 # 10)
   + freshnessScore * (2 # 10) + engagementScore * (1 # 10))%Q.

(** [calculateRelevanceScore]; the clock read by [calculateFreshness]
    is the argument [now]. *)
Definition calculateRelevanceScore (now : Z) (user : LeanUser)
    (article : FeedArticle) : Z :=
  JS.Math_round (weighted_total now user article * 100).

Definition getSkillLevelRange (level : string) : list string :=
  if String.eqb level "BEGINNER" then ["BEGINNER"; "INTERMEDIATE"]
  else if String.eqb level "INTERMEDIATE" then ["BEGINNER"; "INTERMEDIATE"; "ADVANCED"]
  else if String.eqb level "ADVANCED" then ["INTERMEDIATE"; "ADVANCED"]
  else ["BEGINNER"; "INTERMEDIATE"; "ADVANCED"].

(** A string used as a condition: [undefined] and the empty string are
    false. *)
Definition truthy (s : option string) : bool :=
  match s with
  | Some s => negb (String.eqb s "")
  | None => false
  end.

(** The [Article.find(query)] of the feed. *)
Definition feed_query (user : option LeanUser) (cursor : option string)
    (a : Article.t) : bool :=
  JS.geq (Article.qualityScore a) 7
  && Article.isActive a
  && negb (Article.isClickbait a)
  && match cursor with
     | Some c => if truthy cursor then String.ltb (Article._id a) c else true
     | None => true
     end
  && match (user ≫= User.preferences) ≫= User.skillLevel with
     | Some level =>
         if truthy (Some level)
         then existsb (String.eqb (Article.skillLevel a)) (getSkillLevelRange level)
         else true
     | None => true
     end.

(** [.sort({ publishedAt: -1, qualityScore: -1 })]. *)
Definition newer_better (y x : Article.t) : bool :=
  Mongo.opt_lt Z.ltb (Article.publishedAt x) (Article.publishedAt y)
  || (Mongo.opt_eq Z.eqb (Article.publishedAt x) (Article.publishedAt y)
      && negb (Qle_bool (Article.qualityScore y) (Article.qualityScore x))).

Definition higher_score (y x : ScoredArticle) : bool :=
  relevanceScore x <? relevanceScore y.

Definition page_of (cursor : option string) : N := if truthy cursor then 1%N else 0%N.

(** [getPersonalizedFeed(user, { limit, cursor })]. *)
Definition getPersonalizedFeed (now : Z) (user : option LeanUser)
    (limit : nat) (cursor : option string) : M cval :=
  await cached <-
    match user with
    | Some u => cache.get (cacheKeys.userFeed (User._id u) (page_of cursor))
    | None => ret None
    end;
  match cached with
  | Some hit => ret hit
  | None =>
      await w <- get_world;
      let articles :=
        Mongo.limit (limit * 3)
          (JS.sort newer_better (List.filter (feed_query user cursor) (articles w))) in
      match user with
      | Some u =>
          let scored :=
            map (fun a => mkScored a (calculateRelevanceScore now u a)) articles in
          let result := CScored (JS.slice0 limit (JS.sort higher_score scored)) in
          await_ cache.set (cacheKeys.userFeed (User._id u) (page_of cursor))
                   result cacheTTL.feed;
          ret result
      | None => ret (CArticles (JS.slice0 limit articles))
      end
  end.

(** [.sort({ views: -1, saves: -1 })]. *)
Definition more_viewed (y x : Article.t) : bool :=
  Mongo.opt_lt Z.ltb (Article.views x) (Article.views y)
  || (Mongo.opt_eq Z.eqb (Article.views x) (Article.views y)
      && Mongo.opt_lt Z.ltb (Article.saves x) (Article.saves y)).

(** [feedService.getTrending(days, limit)]. *)
Definition getTrending (now : Z) (days : Z) (limit : nat) : M cval :=
  let cacheKey := cacheKeys.trending days in
  await cached <- cache.get cacheKey;
  match cached with
  | Some hit => ret hit
  | None =>
      let since := now - days * 24 * 60 * 60 * 1000 in
      await w <- get_world;
      let articles :=
        Mongo.limit limit
          (JS.sort more_viewed
             (List.filter (fun a =>
                 Mongo.date_gte (Article.publishedAt a) since
                 && JS.geq (Article.qualityScore a) 7
                 && Article.isActive a) (articles w))) in
      await_ cache.set cacheKey (CArticles articles) cacheTTL.trending;
      ret (CArticles articles)
  end.

(** [feedService.invalidateUserFeed]. *)
Definition invalidateUserFeed (userId : string) : M unit :=
  await_ cache.delPattern ("feed:user:" +:+ userId +:+ ":*");
  ret tt.

End feedService.

(* ===================================================================== *)
(** * Trending service ([trendingService]) *)
(* ===================================================================== *)

Module trendingService.

Module WEIGHTS.
Definition views : R := 1.
Definition saves : R := 3.
Definition shares : R := 5.
End WEIGHTS.

Definition GRAVITY : R := 18 / 10.

(** [Math.pow(x, y)] and [$pow] for a positive base [x], in exact
    arithmetic.  The base of the services is [hoursOld + 2], which is at
    least 2 for an article that is not dated ahead of the clock. *)
Definition Math_pow (x y : R) : R := Rpower x y.

(** [calculateScore(views, saves, shares, hoursOld)]. *)
Definition calculateScore (views saves shares hoursOld : R) : R :=
  let rawScore :=
    (views * WEIGHTS.views + saves * WEIGHTS.saves + shares * WEIGHTS.shares)%R in
  let timePenalty := Math_pow (hoursOld + 2)%R GRAVITY in
  (rawScore / timePenalty)%R.

(** The [$addFields] stages of the aggregation: the age in hours at
    evaluation time and the score computed from it.  The counters have a
    schema default of 0.  This is the score of an article that is not
    dated ahead of the clock: for an article dated two hours or more
    ahead, the base of [$pow] is not positive, and MongoDB computes
    [NaN] or refuses to divide by 0. *)
Definition hoursOld (now : Z) (a : Article.t) : R :=
  (IZR (now - default 0 (Article.publishedAt a))%Z / IZR (1000 * 60 * 60)%Z)%R.

Definition trendingScore (now : Z) (a : Article.t) : R :=
  calculateScore (IZR (default 0 (Article.views a)))
    (IZR (default 0 (Article.saves a)))
    (IZR (default 0 (Article.shares a)))
    (hoursOld now a).

(** [{ $sort: { trendingScore: -1 } }]. *)
Definition hotter (now : Z) (y x : Article.t) : bool :=
  if Rlt_dec (trendingScore now x) (trendingScore now y) then true else false.

(** The stage [{ $limit: n }] of an aggregation: MongoDB refuses a
    limit that is not positive, and the aggregation fails. *)
Definition limit_stage {A} (n : nat) (l : list A) : M (list A) :=
  match n with
  | O => fun w => (Throw, w)
  | S _ => ret (take n l)
  end.

(** [computeTrending(days, limit)]. *)
Definition computeTrending (now : Z) (days : Z) (limit : nat) : M (list FeedArticle) :=
  let since := now - days * 24 * 60 * 60 * 1000 in
  await w <- get_world;
  limit_stage limit
    (JS.sort (hotter now)
       (List.filter (fun a =>
           Mongo.date_gte (Article.publishedAt a) since
           && Article.isActive a
           && JS.geq (Article.qualityScore a) 5) (articles w))).

(** [cached.slice(0, limit)] on what the cache returned. *)
Definition cval_slice (limit : nat) (v : cval) : M cval :=
  match v with
  | CScored l => ret (CScored (JS.slice0 limit l))
  | CArticles l => ret (CArticles (JS.slice0 limit l))
  | CArticle _ => fun w => (Throw, w)      (* not an array: no [slice] *)
  end.

(** [trendingService.getTrending(days, limit)]. *)
Definition getTrending (now : Z) (days : Z) (limit : nat) : M cval :=
  let cacheKey := cacheKeys.trending days in
  await cached <- cache.get cacheKey;
  match cached with
  | Some hit => cval_slice limit hit
  | None =>
      await articles <- computeTrending now days limit;
      await_ cache.set cacheKey (CArticles articles) cacheTTL.trending;
      ret (CArticles articles)
  end.

Record PeriodCounts := mkCounts { daily : nat; weekly : nat; monthly : nat }.

(** One round of the loop of [computeAllPeriods]. *)
Definition computePeriod (now : Z) (days : Z) : M nat :=
  await articles <- computeTrending now days 50;
  await_ cache.set (cacheKeys.trending days) (CArticles articles) cacheTTL.trending;
  ret (length articles).

(** [trendingService.computeAllPeriods()]. *)
Definition computeAllPeriods (now : Z) : M PeriodCounts :=
  await daily <- computePeriod now 1;
  await weekly <- computePeriod now 7;
  await monthly <- computePeriod now 30;
  ret (mkCounts daily weekly monthly).

(** The filter ['targetRoles.role': role]. *)
Definition targets (role_ : string) (a : Article.t) : bool :=
  existsb (fun r => String.eqb (role r) role_) (default [] (Article.targetRoles a)).

Definition roleKey (role_ : string) (days : Z) : string :=
  "trending:role:" +:+ role_ +:+ ":" +:+ pretty days.

(** [trendingService.getTrendingByRole(role, days, limit)]. *)
Definition getTrendingByRole (now : Z) (role_ : string) (days : Z) (limit : nat)
    : M cval :=
  let cacheKey := roleKey role_ days in
  await cached <- cache.get cacheKey;
  match cached with
  | Some hit => cval_slice limit hit
  | None =>
      let since := now - days * 24 * 60 * 60 * 1000 in
      await w <- get_world;
      await articles <-
        limit_stage limit
          (JS.sort (hotter now)
             (List.filter (fun a =>
                 Mongo.date_gte (Article.publishedAt a) since
                 && Article.isActive a
                 && JS.geq (Article.qualityScore a) 5
                 && targets role_ a) (articles w)));
      await_ cache.set cacheKey (CArticles articles) (30 * 60);
      ret (CArticles articles)
  end.

(** [trendingService.invalidateCache()]. *)
Definition invalidateCache : M unit :=
  await_ cache.delPattern "trending:*";
  ret tt.

End trendingService.

(* ===================================================================== *)
(** * Article service ([articleService]) *)
(* ===================================================================== *)

Module articleService.

(** [incrementViews(articleId)]. *)
Definition incrementViews (articleId : string) : M unit :=
  await_ Mongo.updateArticleById articleId Mongo.inc_views;
  cache.del (cacheKeys.article articleId).

(** [toggleSave(articleId, save)]. *)
Definition toggleSave (articleId : string) (save : bool) : M unit :=
  let update := if save then Mongo.inc_saves 1 else Mongo.inc_saves (-1) in
  await_ Mongo.updateArticleById articleId update;
  cache.del (cacheKeys.article articleId).

(** The [ArticleFilters] of [getArticles]; a missing [minQuality] is 7
    and a missing [limit] is 20. *)
Record ArticleFilters := mkFilters {
  f_roles : option (list string);
  f_tags : option (list string);
  f_skillLevel : option string;
  f_minQuality : option Q;
  f_limit : option nat;
  f_cursor : option string
}.

(** [list?.length] as a condition. *)
Definition nonempty (l : option (list string)) : bool :=
  match l with
  | Some (_ :: _) => true
  | _ => false
  end.

(** The query document that [getArticles] builds. *)
Definition articles_query (filters : ArticleFilters) (a : Article.t) : bool :=
  JS.geq (Article.qualityScore a) (default 7%Q (f_minQuality filters))
  && Article.isActive a
  && negb (Article.isClickbait a)
  && (if nonempty (f_roles filters)
      then existsb (fun r => existsb (String.eqb (role r)) (default [] (f_roles filters)))
             (default [] (Article.targetRoles a))
      else true)
  && (if nonempty (f_tags filters)
      then existsb (fun t => existsb (String.eqb t) (default [] (f_tags filters)))
             (default [] (Article.tags a))
      else true)
  && (if feedService.truthy (f_skillLevel filters)
      then String.eqb (Article.skillLevel a) (default "" (f_skillLevel filters))
      else true)
  && (if feedService.truthy (f_cursor filters)
      then String.ltb (Article._id a) (default "" (f_cursor filters))
      else true).

(** [.sort({ _id: -1 })]. *)
Definition later_id (y x : Article.t) : bool :=
  String.ltb (Article._id x) (Article._id y).

(** [articleService.getArticles(filters)]. *)
Definition getArticles (filters : ArticleFilters) : M (list FeedArticle) :=
  await w <- get_world;
  ret (Mongo.limit (default 20%nat (f_limit filters))
         (JS.sort later_id (List.filter (articles_query filters) (articles w)))).

(** [articleService.getById(articleId)]. *)
Definition getById (articleId : string) : M (option cval) :=
  let cacheKey := cacheKeys.article articleId in
  await cached <- cache.get cacheKey;
  match cached with
  | Some hit => ret (Some hit)
  | None =>
      await w <- get_world;
      match List.find (fun a => String.eqb (Article._id a) articleId) (articles w) with
      | Some article =>
          await_ cache.set cacheKey (CArticle article) cacheTTL.article;
          ret (Some (CArticle article))
      | None => ret None
      end
  end.

End articleService.

(* ===================================================================== *)
(** * Gamification and engagement services *)
(* ===================================================================== *)

(** [gamificationService] without the enterprise module, which is not
    part of this source tree: [require] fails, [eeService] stays
    undefined and every method takes its fallback. *)
Module gamificationService.

Definition checkStreak (userId : string) : M (Z * bool) := ret (0, false).
Definition checkReadingMilestones (userId : string) : M unit := ret tt.
Definition checkEngagementMilestones (userId : string) (type : EngagementType)
    : M unit := ret tt.

End gamificationService.

Module engagementService.

(** The filter [{ userId, articleId, type: 'VIEW' }], cast to the
    schema: both ids are compared as strings. *)
Definition is_view_of (userId articleId : string) (e : Engagement.t) : bool :=
  Bson.eqb (Engagement.userId e) (Bson.Str userId)
  && Bson.eqb (Engagement.articleId e) (Bson.Str articleId)
  && bool_decide (Engagement.type e = VIEW).

(** The update document
    [{ $setOnInsert: { createdAt }, $set: { updatedAt: new Date() } }]
    on a row that matches.  [updatedAt] is no path of the schema, and
    mongoose, in its default strict mode, drops from an update what is
    not in the schema: the [$set] is empty when it reaches MongoDB, and
    [$setOnInsert] applies to an insert only.  The row stays as it is. *)
Definition view_update (now : Z) (e : Engagement.t) : Engagement.t := e.

(** [viewArticle(userId, articleId)]; the [catch] logs and rethrows. *)
Definition viewArticle (now : Z) (userId articleId : string) : M bool :=
  await_ modify (fun w =>
    with_engagements
      (Mongo.upsert_one (is_view_of userId articleId) (view_update now)
         (Engagement.mk (Bson.Str userId) (Bson.Str articleId) VIEW now)
         (engagements w)) w);
  await_ Mongo.updateArticleById articleId Mongo.inc_views;
  await_ gamificationService.checkStreak userId;
  await_ gamificationService.checkReadingMilestones userId;
  ret true.

(** [saveArticle(userId, articleId)]. *)
Definition saveArticle (userId articleId : string) : M bool :=
  await_ gamificationService.checkEngagementMilestones userId SAVE;
  ret true.

(** [shareArticle(userId, articleId, platform)]. *)
Definition shareArticle (now : Z) (userId articleId platform : string) : M bool :=
  await_ modify (fun w =>
    with_engagements
      (engagements w
       ++ [Engagement.mk (Bson.Str userId) (Bson.Str articleId) SHARE now]) w);
  await_ gamificationService.checkEngagementMilestones userId SHARE;
  ret true.

End engagementService.

(* ===================================================================== *)
(** * Article resolvers ([articleResolvers]) *)
(* ===================================================================== *)

Module articleResolvers.

Record ArticlesArgs := mkArgs {
  a_limit : option nat;
  a_cursor : option string;
  a_roles : option (list string);
  a_tags : option (list string);
  a_skillLevel : option string;
  a_minQuality : option Q
}.

Record ArticleConnection := mkConnection {
  conn_articles : list FeedArticle;
  nextCursor : option string;
  hasMore : bool
}.

(** [requireAuth(context)]: throws without a user in the context. *)
Definition requireAuth (user : option string) : M string :=
  match user with
  | Some u => ret u
  | None => fun w => (Throw, w)
  end.

(** [args.limit || 20]: a missing limit and the limit 0 are 20. *)
Definition limit_or_20 (limit : option nat) : nat :=
  match limit with
  | Some (S n) => S n
  | _ => 20%nat
  end.

(** The resolver of the query [articles]. *)
Definition articles (user : option string) (args : ArticlesArgs)
    : M ArticleConnection :=
  await_ requireAuth user;
  await articles <-
    articleService.getArticles
      (articleService.mkFilters (a_roles args) (a_tags args) (a_skillLevel args)
         (a_minQuality args) (Some (limit_or_20 (a_limit args))) (a_cursor args));
  let hasMore := (length articles =? limit_or_20 (a_limit args))%nat in
  let nextCursor :=
    if hasMore && (0 <? length articles)%nat
    then Article._id <$> last articles
    else None in
  ret (mkConnection articles nextCursor hasMore).

End articleResolvers.

(* ===================================================================== *)
(** * Vocabulary of the properties and sample data *)
(* ===================================================================== *)

(** ** Role profiles *)

(** The last step of [smoothRoles]: every weight is divided by the total
    and rounded to two decimals. *)
Definition normalized (total : Q) (l : list DynamicRole) : list DynamicRole :=
  map (fun r => mkRole (role r) (JS.round2 (weight r / total))) l.

(** The first step of [smoothRoles], for one computed role. *)
Definition smooth_entry (prevMap : gmap string Q) (r : DynamicRole) : DynamicRole :=
  mkRole (role r)
    (JS.round2 (roleService.SMOOTHING_FACTOR * weight r
                + (1 - roleService.SMOOTHING_FACTOR)
                  * JS.or_zero (prevMap !! role r))).

(** The list [smoothed] when the loop over [previous] has run. *)
Definition smoothed_union (previous computed : list DynamicRole)
    : list DynamicRole :=
  foldl roleService.keep_previous
    (map (smooth_entry (roleService.Map_of previous)) computed) previous.

(** Two profiles are the same when they list the same roles in the same
    order with equal weights; [Q] has several representations of one
    number, so weights are compared with [==]. *)
Definition role_equiv (a b : DynamicRole) : Prop :=
  role a = role b /\ (weight a == weight b)%Q.

Definition roles_equiv (l k : list DynamicRole) : Prop := Forall2 role_equiv l k.

(** A weight with two decimals. *)
Definition two_decimals (r : DynamicRole) : Prop :=
  exists n : Z, (weight r == inject_Z n / 100)%Q.

Definition descending (l : list DynamicRole) : Prop :=
  StronglySorted (fun a b => (weight b <= weight a)%Q) l.

(** A tolerance far above the rounding error of a sum of doubles. *)
Definition fp_tolerance : Q := 1 # 1000000.

(** The role weight invariant as the specification states it. *)
Definition role_weight_invariant (l : list DynamicRole) : Prop :=
  l = [] \/ (Forall (fun r => (5 # 100 <= weight r)%Q) l
             /\ (Qabs (sum_weights l - 1) <= fp_tolerance)%Q).

(** ** Rows and documents *)

(** The VIEW rows of the pair (user, article). *)
Definition view_rows (u a : string) (l : list Engagement.t) : nat :=
  length (List.filter (engagementService.is_view_of u a) l).

Definition find_article (a : string) (l : list Article.t) : option Article.t :=
  List.find (fun x => String.eqb (Article._id x) a) l.

(** What a feed request reads from the article source. *)
Definition source_articles (user : option LeanUser) (limit : nat)
    (cursor : option string) (w : World) : list FeedArticle :=
  Mongo.limit (limit * 3)
    (JS.sort feedService.newer_better
       (List.filter (feedService.feed_query user cursor) (articles w))).

(** The page a logged-in user gets on a cache miss: the candidates
    scored, sorted by score and cut to [limit]. *)
Definition scored_page (now : Z) (u : LeanUser) (limit : nat)
    (candidates : list FeedArticle) : cval :=
  CScored
    (JS.slice0 limit
       (JS.sort feedService.higher_score
          (map (fun a => mkScored a (feedService.calculateRelevanceScore now u a))
             candidates))).

(** The character [*] of a glob pattern. *)
Definition star_ascii : Ascii.ascii := Ascii.ascii_of_nat 42.

(** ** Sample data

    The short ids [u1], [a1], ... abbreviate well-formed ids. *)

(** The user and the article of the scoring scenario of the
    specification; the article is published at [1000]. *)
Definition user1 : LeanUser :=
  User.mk "u1" (Some [mkRole "FRONTEND" (6 # 10); mkRole "BACKEND" (4 # 10)])
    (Some (User.mkPrefs (Some []) None)) None.

Definition article1 : Article.t :=
  Article.mk "a1" (Some 1000) 8
    (Some [mkRole "FRONTEND" (5 # 10); mkRole "DEVOPS" (5 # 10)])
    "BEGINNER" (Some []) false (Some 0) (Some 0) (Some 0) true.

Definition one_hour : Z := 1000 * 60 * 60.

Definition forty_days : Z := 40 * roleService.ms_per_day.

Definition page0 : CacheEntry := mkEntry (CScored []) cacheTTL.feed.

Definition page1 : CacheEntry :=
  mkEntry (CScored [mkScored article1 32]) cacheTTL.feed.

(** User [u1] has a first page in the cache; Redis is reachable. *)
Definition stale_world : World :=
  mkWorld [] [] [] {[ cacheKeys.userFeed "u1" 0 := page0 ]} [].

(** User [u1] viewed one FRONTEND article a second ago, the row is as
    [viewArticle] writes it, and has both feed pages in the cache; Redis
    is reachable. *)
Definition role_world : World :=
  mkWorld
    [Article.mk "a1" (Some 0) 8 (Some [mkRole "FRONTEND" 1]) "BEGINNER" (Some [])
       false (Some 0) (Some 0) (Some 0) true]
    [Engagement.mk (Bson.Str "u1") (Bson.Str "a1") VIEW 1000]
    [User.mk "u1" (Some [mkRole "BACKEND" 1]) None None]
    {[ cacheKeys.userFeed "u1" 0 := page0; cacheKeys.userFeed "u1" 1 := page1 ]}
    [].

(** A user and an article with well-formed ids, 24 hexadecimal
    characters each. *)
Definition alice : string := "65a000000000000000000001".

Definition post : string := "65b000000000000000000002".

Definition frontend_post : Article.t :=
  Article.mk post (Some 0) 8 (Some [mkRole "FRONTEND" 1]) "BEGINNER" (Some [])
    false (Some 0) (Some 0) (Some 0) true.

(** [alice] has a BACKEND profile and both feed pages in the cache, and
    no engagement yet; Redis is reachable. *)
Definition fresh_world : World :=
  mkWorld [frontend_post] []
    [User.mk alice (Some [mkRole "BACKEND" 1]) None None]
    {[ cacheKeys.userFeed alice 0 := page0; cacheKeys.userFeed alice 1 := page1 ]}
    [].

(** The same with one VIEW row of [alice] on the article, a second ago,
    that holds [ObjectId]s: the row the aggregation of
    [computeUserRoles] is written for. *)
Definition seeded_world : World :=
  with_engagements
    [Engagement.mk (Bson.ObjectId alice) (Bson.ObjectId post) VIEW 1000]
    fresh_world.

(** A row as the model writes it: both ids stored as strings. *)
Definition stored_as_strings (e : Engagement.t) : bool :=
  match Engagement.userId e, Engagement.articleId e with
  | Bson.Str _, Bson.Str _ => true
  | _, _ => false
  end.

(** One good article in the source, Redis unreachable. *)
Definition down_world : World := mkWorld [article1] [] [user1] ∅ [true].

(** An active article of quality 6, published an hour before [one_hour]. *)
Definition article6 : Article.t :=
  Article.mk "a6" (Some 0) 6 (Some [mkRole "BACKEND" 1]) "BEGINNER" (Some [])
    false (Some 10) (Some 1) (Some 0) true.

Definition trending_world : World := mkWorld [article6] [] [] ∅ [].

(** An article with one target role of weight 1. *)
Definition target (id r : string) : Article.t :=
  Article.mk id (Some 0) 8 (Some [mkRole r 1]) "BEGINNER" (Some []) false
    (Some 0) (Some 0) (Some 0) true.

(** Three views by [u1], of a FRONTEND, a BACKEND and a DEVOPS article;
    the rows hold [ObjectId]s, which is what the aggregation of
    [computeUserRoles] matches. *)
Definition three_articles : list Article.t :=
  [target "a1" "FRONTEND"; target "a2" "BACKEND"; target "a3" "DEVOPS"].

Definition three_views : list Engagement.t :=
  [Engagement.mk (Bson.ObjectId "u1") (Bson.ObjectId "a1") VIEW 1000;
   Engagement.mk (Bson.ObjectId "u1") (Bson.ObjectId "a2") VIEW 1000;
   Engagement.mk (Bson.ObjectId "u1") (Bson.ObjectId "a3") VIEW 1000].

Definition backend_only : list DynamicRole := [mkRole "BACKEND" 1].

Definition mostly_backend : list DynamicRole :=
  [mkRole "BACKEND" (94 # 100); mkRole "FRONTEND" (6 # 100)].

(** An article that is FRONTEND for 0.96 and BACKEND for 0.04, and the
    profile [computeUserRoles] returns for a user who viewed it: the
    BACKEND share is below 0.05 and is dropped. *)
Definition lopsided_article : Article.t :=
  Article.mk "a1" (Some 0) 8
    (Some [mkRole "FRONTEND" (96 # 100); mkRole "BACKEND" (4 # 100)])
    "BEGINNER" (Some []) false (Some 0) (Some 0) (Some 0) true.

Definition pruned_profile : list DynamicRole := [mkRole "FRONTEND" (96 # 100)].

(** The schema default of [dynamicRoles]. *)
Definition default_profile : list DynamicRole :=
  [mkRole "FRONTEND" (5 # 10); mkRole "BACKEND" (3 # 10); mkRole "DEVOPS" (2 # 10)].

(** ** Counters and ages of the trending score *)

(** A counter as the articles have them: an integer that is not
    negative, and small enough for every sum of the raw score to be
    exact on doubles. *)
Definition exact_counter (c : Z) : Prop := 0 <= c <= 2 ^ 40.

(** An age of [ms] milliseconds in hours, as the trending aggregations
    compute it from two dates. *)
Definition age_hours (ms : Z) : R := (IZR ms / IZR (1000 * 60 * 60))%R.

(** Ages up to some three hundred years.  On doubles, ages in this
    range that are a millisecond apart give powers that differ by far
    more than a rounding error, and nothing overflows. *)
Definition max_age : Z := 10 ^ 13.

(** ** Vocabulary of the further properties *)

(** [in_order before a b]: the comparator does not put [b] strictly in
    front of [a], so [a] may stand before [b] in a sorted array. *)
Definition in_order {A} (before : A -> A -> bool) (a b : A) : Prop :=
  before b a = false.

(** The articles of a page, whatever its shape. *)
Definition page_articles (v : cval) : list Article.t :=
  match v with
  | CScored l => map article l
  | CArticles l => l
  | CArticle a => [a]
  end.

(** The skill preference of the user of a request. *)
Definition skill_preference (user : option LeanUser) : option string :=
  (user ≫= User.preferences) ≫= User.skillLevel.

(** What the base query of the feed guarantees of an article. *)
Definition feed_worthy (user : option LeanUser) (cursor : option string)
    (a : Article.t) : Prop :=
  (7 <= Article.qualityScore a)%Q
  /\ Article.isActive a = true
  /\ Article.isClickbait a = false
  /\ (forall c, cursor = Some c -> c <> "" -> String.ltb (Article._id a) c = true)
  /\ (skill_preference user = Some "BEGINNER" -> Article.skillLevel a <> "ADVANCED")
  /\ (skill_preference user = Some "ADVANCED" -> Article.skillLevel a <> "BEGINNER").

(** The SHARE rows of the pair (user, article). *)
Definition share_rows (u a : string) (l : list Engagement.t) : nat :=
  length (List.filter (fun e =>
            Bson.eqb (Engagement.userId e) (Bson.Str u)
            && Bson.eqb (Engagement.articleId e) (Bson.Str a)
            && bool_decide (Engagement.type e = SHARE)) l).

(** The user with another role profile. *)
Definition with_dynamicRoles (roles : list DynamicRole) (u : LeanUser) : LeanUser :=
  User.mk (User._id u) (Some roles) (User.preferences u) (User.lastActiveAt u).

(** The same roles in the same order, with weights that are not smaller. *)
Definition roles_le (l k : list DynamicRole) : Prop :=
  Forall2 (fun a b => role a = role b /\ (weight a <= weight b)%Q) l k.

(** Strings that differ in case only. *)
Definition same_modulo_case (s t : string) : Prop :=
  JS.toLowerCase s = JS.toLowerCase t.

(** The document of a user, as [User.findById] finds it. *)
Definition find_user (u : string) (l : list User.t) : option User.t :=
  List.find (fun x => String.eqb (User._id x) u) l.

(** The role profile stored for a user. *)
Definition stored_roles (u : string) (w : World) : option (list DynamicRole) :=
  find_user u (users w) ≫= User.dynamicRoles.

(** The arguments of the query [articles] for the page that follows a
    connection with the cursor [c]. *)
Definition next_args (c : string) (args : articleResolvers.ArticlesArgs)
    : articleResolvers.ArticlesArgs :=
  articleResolvers.mkArgs (articleResolvers.a_limit args) (Some c)
    (articleResolvers.a_roles args) (articleResolvers.a_tags args)
    (articleResolvers.a_skillLevel args) (articleResolvers.a_minQuality args).

(** What the query of [getArticles] guarantees of an article. *)
Definition listed (filters : articleService.ArticleFilters) (a : Article.t) : Prop :=
  (default 7 (articleService.f_minQuality filters) <= Article.qualityScore a)%Q
  /\ Article.isActive a = true
  /\ Article.isClickbait a = false
  /\ (forall c, articleService.f_cursor filters = Some c -> c <> "" ->
        String.ltb (Article._id a) c = true)
  /\ (forall s, articleService.f_skillLevel filters = Some s -> s <> "" ->
        Article.skillLevel a = s)
  /\ (forall r rs, articleService.f_roles filters = Some (r :: rs) ->
        exists t, In t (default [] (Article.targetRoles a)) /\ In (role t) (r :: rs))
  /\ (forall t ts, articleService.f_tags filters = Some (t :: ts) ->
        exists x, In x (default [] (Article.tags a)) /\ In x (t :: ts)).

(** Ids in descending order. *)
Definition ids_descending (l : list Article.t) : Prop :=
  StronglySorted (fun a b => String.ltb (Article._id a) (Article._id b) = false) l.

(** What the match stage of the trending aggregations guarantees of an
    article. *)
Definition in_trending_window (now days : Z) (a : Article.t) : Prop :=
  (exists t, Article.publishedAt a = Some t /\ now - days * 24 * 60 * 60 * 1000 <= t)
  /\ Article.isActive a = true
  /\ (5 <= Article.qualityScore a)%Q.

(** The relative tolerance of an order between two trending scores; it
    is far above the rounding error that the doubles of the aggregation
    make on a score. *)
Definition score_tolerance : R := (/ 2 ^ 40)%R.

(** Trending scores in descending order, up to the tolerance: no article
    stands behind one whose score is lower by more than the tolerance. *)
Definition scores_descending (now : Z) (l : list Article.t) : Prop :=
  StronglySorted
    (fun a b => (trendingService.trendingScore now b
                 <= trendingService.trendingScore now a * (1 + score_tolerance))%R) l.


(** Whether the collection of users has a document with this id. *)
Definition known_user (u : string) (l : list User.t) : bool :=
  existsb (fun x => String.eqb (User._id x) u) l.

(** Whether [updateUserRoles] has a profile to store for a user: the
    user exists and the aggregation finds a role. *)
Definition has_update (now : Z) (w : World) (u : string) : bool :=
  known_user u (users w)
  && negb (length (roleService.computeUserRoles (engagements w) (articles w)
                     now u 30) =? 0)%nat.

(** How many of the next [n] Redis commands throw. *)
Definition thrown (n : nat) (faults : list bool) : nat :=
  length (List.filter (fun b => b) (take n faults)).
(** An article the trending aggregations score as the embedding does:
    it is not dated ahead of the clock, so that the base of the power is
    at least 2, its age is at most [max_age], and it has its three
    counters, which the schema defaults to 0, in the range of
    [exact_counter]. *)
Definition scorable (now : Z) (a : Article.t) : Prop :=
  (forall t, Article.publishedAt a = Some t -> 0 <= now - t <= max_age)
  /\ (exists v, Article.views a = Some v /\ exact_counter v)
  /\ (exists s, Article.saves a = Some s /\ exact_counter s)
  /\ (exists sh, Article.shares a = Some sh /\ exact_counter sh).


(** The article with other views and saves counters. *)
Definition with_counters (views saves : Z) (a : Article.t) : Article.t :=
  Article.mk (Article._id a) (Article.publishedAt a) (Article.qualityScore a)
    (Article.targetRoles a) (Article.skillLevel a) (Article.tags a)
    (Article.isClickbait a) (Some views) (Some saves) (Article.shares a)
    (Article.isActive a).

(* ===================================================================== *)
(** * Properties *)
(* ===================================================================== *)

(** ** Sanity checks of the primitives *)

Example Math_round_half : JS.Math_round (7 # 2) = 4.
Proof. reflexivity. Qed.

Example round2_third : (JS.round2 (1 # 3) == 33 # 100)%Q.
Proof. reflexivity. Qed.

Example includes_ex : JS.includes (JS.toLowerCase "TypeScript") "script" = true.
Proof. reflexivity. Qed.

Example glob_feed : glob "feed:user:u1:*" "feed:user:u1:page:0" = true.
Proof. reflexivity. Qed.

Example glob_other_user : glob "feed:user:u1:*" "feed:user:u2:page:0" = false.
Proof. reflexivity. Qed.

Example userFeed_ex : cacheKeys.userFeed "u1" 0 = "feed:user:u1:page:0".
Proof. reflexivity. Qed.

(** ** Cache keys *)


Lemma append_inj_l (p a b : string) : p +:+ a = p +:+ b -> a = b.
Proof.
  induction p as [|c p IH]; simpl; intros H; [done|].
  injection H as H. auto.
Qed.


Lemma userFeed_not_article (u a : string) (page : N) :
  cacheKeys.article a ≠ cacheKeys.userFeed u page.
Proof. unfold cacheKeys.article, cacheKeys.userFeed. simpl. discriminate. Qed.

(** ** The cache utility *)


(** With Redis reachable, [cache.del key] returns and the key is gone. *)
Lemma del_healthy (key : string) (w : World) :
  faults w = [] ->
  cache.del key w = (Ok tt, with_redis (delete key (redis w)) w).
Proof.
  intros Hf. unfold cache.del, bind, client, ret. by rewrite Hf.
Qed.

Lemma get_healthy (key : string) (w : World) :
  faults w = [] -> cache.get key w = (Ok (data <$> redis w !! key), w).
Proof.
  intros Hf. unfold cache.get, bind, client, ret. rewrite Hf. simpl.
  by destruct w.
Qed.

Lemma get_ok (key : string) (w : World) (fs : list bool) :
  faults w = false :: fs ->
  cache.get key w
  = (Ok (data <$> redis w !! key), with_redis (redis w) (with_faults fs w)).
Proof.
  intros Hf. unfold cache.get, bind, client, ret. by rewrite Hf.
Qed.

Lemma get_down (key : string) (w : World) (fs : list bool) :
  faults w = true :: fs -> (cache.get key w).1 = Throw.
Proof.
  intros Hf. unfold cache.get, bind, client. by rewrite Hf.
Qed.

(** ** Cache coherence after a save or a share (C1) *)

(** C1, as stated, fails: each of the three mutations completes and the
    key [feed:user:u1:page:0] is still there. *)
Lemma save_share_leave_feed_key :
  let key := cacheKeys.userFeed "u1" 0 in
  let w1 := articleService.toggleSave "a1" true stale_world in
  let w2 := engagementService.saveArticle "u1" "a1" stale_world in
  let w3 := engagementService.shareArticle 1000 "u1" "a1" "x" stale_world in
  (w1.1 = Ok tt /\ redis w1.2 !! key = Some page0)
  /\ (w2.1 = Ok true /\ redis w2.2 !! key = Some page0)
  /\ (w3.1 = Ok true /\ redis w3.2 !! key = Some page0).
Proof. vm_compute. repeat split. Qed.

Lemma toggleSave_healthy (a : string) (save : bool) (w : World) :
  faults w = [] ->
  exists l,
    articleService.toggleSave a save w
    = (Ok tt, with_redis (delete (cacheKeys.article a) (redis w)) (with_articles l w)).
Proof.
  intros Hf. unfold articleService.toggleSave, bind, Mongo.updateArticleById, modify.
  eexists. rewrite del_healthy by done. reflexivity.
Qed.

(** C1 (amended).  With Redis reachable, [toggleSave] completes, removes
    the article's own key [article:{a}:data] and leaves the user's
    first-page key as it was, so the next first-page feed request
    returns the page that was cached before the save; [saveArticle] and
    [shareArticle] do not touch the cache. *)
Theorem save_share_cache_effect
    (w : World) (user : LeanUser) (a platform : string) (save : bool)
    (now : Z) (limit : nat) (e : CacheEntry) :
  faults w = [] ->
  redis w !! cacheKeys.userFeed (User._id user) 0 = Some e ->
  let saved := articleService.toggleSave a save w in
  saved.1 = Ok tt
  /\ redis saved.2 !! cacheKeys.article a = None
  /\ redis saved.2 !! cacheKeys.userFeed (User._id user) 0 = Some e
  /\ (feedService.getPersonalizedFeed now (Some user) limit None saved.2).1
     = Ok (data e)
  /\ redis (engagementService.saveArticle (User._id user) a w).2 = redis w
  /\ redis (engagementService.shareArticle now (User._id user) a platform w).2
     = redis w.
Proof.
  intros Hf He saved.
  destruct (toggleSave_healthy a save w Hf) as [l Hsaved].
  subst saved. rewrite Hsaved. simpl.
  assert (delete (cacheKeys.article a) (redis w)
            !! cacheKeys.userFeed (User._id user) 0 = Some e) as Hkept.
  { rewrite lookup_delete_ne; [done | apply userFeed_not_article]. }
  repeat split.
  - apply lookup_delete_eq.
  - exact Hkept.
  - unfold feedService.getPersonalizedFeed, bind.
    rewrite get_healthy by done. simpl.
    change (feedService.page_of None) with 0%N. by rewrite Hkept.
Qed.

Lemma save_share_cache_effect_witness :
  (feedService.getPersonalizedFeed 2000 (Some (User.mk "u1" None None None)) 20 None
     (articleService.toggleSave "a1" true stale_world).2).1
  = Ok (CScored []).
Proof.
  refine (proj1 (proj2 (proj2 (proj2
    (save_share_cache_effect stale_world (User.mk "u1" None None None)
       "a1" "x" true 2000 20 page0 _ _))))).
  - reflexivity.
  - vm_compute. reflexivity.
Defined.

(** ** Feed invalidation after a role update (C2) *)


(** Rows that store their ids as strings, which is how the model of
    [Engagement] writes them, are not seen by the aggregations. *)
Lemma pipeline_rows_strings (l : list Engagement.t) (arts : list Article.t)
    (u : string) (since : Z) :
  Forall (fun e => stored_as_strings e = true) l ->
  roleService.pipeline_rows l arts u since = []
  /\ roleService.skill_rows l arts u since = [].
Proof.
  unfold roleService.pipeline_rows, roleService.skill_rows.
  induction 1 as [|e l He _ [IH1 IH2]]; [done|].
  unfold stored_as_strings in He.
  cbn [List.filter]. unfold Bson.eqb at 1 3.
  destruct (Engagement.userId e); [|by destruct (Engagement.articleId e)].
  cbn [andb]. by split.
Qed.

Lemma computeUserRoles_strings (l : list Engagement.t) (arts : list Article.t)
    (now : Z) (u : string) (days : Z) :
  Forall (fun e => stored_as_strings e = true) l ->
  roleService.computeUserRoles l arts now u days = [].
Proof.
  intros H. unfold roleService.computeUserRoles.
  by rewrite (proj1 (pipeline_rows_strings l arts u _ H)).
Qed.


(** The sibling path, [feedService.invalidateUserFeed] (and
    [completeOnboarding], which runs the same [delPattern]), does remove
    every page key of the user. *)
Lemma glob_star_unfold (p' s : string) :
  glob (String star_ascii p') s
  = glob p' s || match s with
                 | EmptyString => false
                 | String _ s' => glob (String star_ascii p') s'
                 end.
Proof. destruct s; reflexivity. Qed.

Lemma glob_star_all (s : string) : glob (String star_ascii "") s = true.
Proof.
  induction s as [|d s IH]; [reflexivity|].
  rewrite glob_star_unfold, IH. apply orb_true_r.
Qed.

Lemma glob_app_same (p q s : string) :
  glob q s = true -> glob (p +:+ q) (p +:+ s) = true.
Proof.
  intros H. induction p as [|c p IH]; [done|].
  change (String c p +:+ q) with (String c (p +:+ q)).
  change (String c p +:+ s) with (String c (p +:+ s)).
  destruct (Ascii.eqb c star_ascii) eqn:Hc.
  - apply Ascii.eqb_eq in Hc. subst c.
    rewrite glob_star_unfold. apply orb_true_iff. right.
    rewrite glob_star_unfold, IH. reflexivity.
  - simpl. unfold star_ascii in Hc; simpl in Hc. rewrite Hc.
    rewrite Ascii.eqb_refl, orb_true_r. exact IH.
Qed.

Lemma glob_userFeed (u : string) (page : N) :
  glob ("feed:user:" +:+ u +:+ ":*") (cacheKeys.userFeed u page) = true.
Proof.
  unfold cacheKeys.userFeed.
  apply (glob_app_same "feed:user:"), (glob_app_same u).
  apply (glob_app_same ":" (String star_ascii "")), glob_star_all.
Qed.

Lemma KEYS_complete (pattern k : string) (r : gmap string CacheEntry) :
  is_Some (r !! k) -> glob pattern k = true -> In k (cache.KEYS pattern r).
Proof.
  intros [e He] Hg. unfold cache.KEYS. apply filter_In. split; [|done].
  apply in_map_iff. exists (k, e). split; [done|].
  by apply list_elem_of_In, elem_of_map_to_list.
Qed.

Lemma DEL_removes (keys : list string) (k : string) (r : gmap string CacheEntry) :
  In k keys \/ r !! k = None -> (cache.DEL keys r).2 !! k = None.
Proof.
  simpl. induction keys as [|k' keys IH]; simpl.
  - intros [[]|H]; done.
  - intros H. destruct (decide (k' = k)) as [->|Hne].
    + apply lookup_delete_eq.
    + rewrite lookup_delete_ne by done. apply IH.
      destruct H as [[H|H]|H]; [done | by left | by right].
Qed.

Lemma invalidateUserFeed_removes_pages (u : string) (page : N) (w : World) :
  faults w = [] ->
  redis (feedService.invalidateUserFeed u w).2 !! cacheKeys.userFeed u page = None.
Proof.
  intros Hf.
  assert (In (cacheKeys.userFeed u page)
             (cache.KEYS ("feed:user:" +:+ u +:+ ":*") (redis w))
          \/ redis w !! cacheKeys.userFeed u page = None) as Hin.
  { destruct (redis w !! cacheKeys.userFeed u page) eqn:Hk; [left | by right].
    apply KEYS_complete; [by rewrite Hk | apply glob_userFeed]. }
  unfold feedService.invalidateUserFeed, cache.delPattern, bind, client, ret.
  rewrite Hf. simpl.
  destruct (cache.KEYS _ _) as [|k ks] eqn:Hkeys; simpl.
  - destruct Hin as [[]|Hk]. exact Hk.
  - rewrite Hf. simpl. by apply (DEL_removes (k :: ks)).
Qed.

(** ** Cache failures during a feed request (C3) *)

(** C3, as stated, fails: with the store unreachable the request of a
    logged-in user throws instead of returning the feed. *)
Lemma getPersonalizedFeed_throws_when_cache_down :
  (feedService.getPersonalizedFeed 2000 (Some user1) 20 None down_world).1 = Throw.
Proof. reflexivity. Qed.

(** C3 (amended).  An anonymous request performs no cache command and
    always returns the first [limit] articles of the source.  For a
    logged-in user nothing catches a failing command: the request throws
    when the read fails, and when the read misses and the write fails.
    With Redis reachable it returns the cached page on a hit and the
    page scored from the source on a miss. *)
Theorem getPersonalizedFeed_cache_faults
    (now : Z) (limit : nat) (cursor : option string) (w : World) :
  feedService.getPersonalizedFeed now None limit cursor w
  = (Ok (CArticles (JS.slice0 limit (source_articles None limit cursor w))), w)
  /\ (forall (u : LeanUser) (fs : list bool),
        faults w = true :: fs ->
        (feedService.getPersonalizedFeed now (Some u) limit cursor w).1 = Throw)
  /\ (forall (u : LeanUser) (fs : list bool),
        faults w = false :: true :: fs ->
        redis w !! cacheKeys.userFeed (User._id u) (feedService.page_of cursor) = None ->
        (feedService.getPersonalizedFeed now (Some u) limit cursor w).1 = Throw)
  /\ (forall (u : LeanUser),
        faults w = [] ->
        (feedService.getPersonalizedFeed now (Some u) limit cursor w).1
        = Ok (match redis w !! cacheKeys.userFeed (User._id u)
                               (feedService.page_of cursor) with
              | Some hit => data hit
              | None => scored_page now u limit (source_articles (Some u) limit cursor w)
              end)).
Proof.
  repeat split.
  - intros u fs Hf.
    unfold feedService.getPersonalizedFeed, bind. cbv beta iota.
    pose proof (get_down (cacheKeys.userFeed (User._id u) (feedService.page_of cursor))
                  w fs Hf) as Hg.
    destruct (cache.get _ w) as [[c|] w']; simpl in Hg; [discriminate | done].
  - intros u fs Hf Hmiss.
    unfold feedService.getPersonalizedFeed, bind. cbv beta iota.
    rewrite (get_ok _ w (true :: fs)) by done.
    rewrite Hmiss. simpl. reflexivity.
  - intros u Hf.
    unfold feedService.getPersonalizedFeed, bind. cbv beta iota.
    rewrite get_healthy by done.
    destruct (redis w !! _) as [e|]; simpl; [done|].
    unfold cache.set, client. rewrite Hf. reflexivity.
Qed.

Lemma getPersonalizedFeed_cache_faults_witness :
  (feedService.getPersonalizedFeed 2000 (Some user1) 20 None down_world).1 = Throw.
Proof.
  refine (proj1 (proj2 (getPersonalizedFeed_cache_faults 2000 20 None down_world))
            user1 [] _).
  reflexivity.
Defined.

(** ** Repeated views (C9) *)

Section UpdateFirst.
Context {A : Type} (p : A -> bool) (f : A -> A).
Hypothesis p_f : forall x, p (f x) = p x.

Lemma update_first_None (l : list A) :
  Mongo.update_first p f l = None -> List.filter p l = [].
Proof.
  induction l as [|x l IH]; simpl; [done|].
  destruct (p x); [done|].
  destruct (Mongo.update_first p f l); [done|]. auto.
Qed.

Lemma update_first_Some (l l' : list A) :
  Mongo.update_first p f l = Some l' ->
  length l' = length l
  /\ length (List.filter p l') = length (List.filter p l)
  /\ (0 < length (List.filter p l))%nat
  /\ List.find p l' = f <$> List.find p l.
Proof.
  revert l'. induction l as [|x l IH]; simpl; intros l' H; [done|].
  destruct (p x) eqn:Hx.
  - injection H as <-. simpl. rewrite p_f, Hx. simpl. repeat split; lia.
  - destruct (Mongo.update_first p f l) as [l0|]; [|done].
    injection H as <-. simpl. rewrite Hx.
    destruct (IH l0 eq_refl) as (? & ? & ? & ?). repeat split; auto.
Qed.

Lemma update_one_find (l : list A) :
  List.find p (Mongo.update_one p f l) = f <$> List.find p l.
Proof.
  unfold Mongo.update_one.
  destruct (Mongo.update_first p f l) as [l'|] eqn:H; simpl.
  - by apply update_first_Some in H as (_ & _ & _ & ?).
  - apply update_first_None in H.
    assert (List.find p l = None) as ->; [|done].
    induction l as [|x l IH]; simpl in *; [done|].
    destruct (p x); [done | auto].
Qed.

(** An upsert leaves as many matching rows as there were, and one when
    there was none. *)
Lemma upsert_one_rows (fresh : A) (l : list A) :
  p fresh = true ->
  length (List.filter p (Mongo.upsert_one p f fresh l))
  = Nat.max 1 (length (List.filter p l)).
Proof.
  intros Hfresh. unfold Mongo.upsert_one.
  destruct (Mongo.update_first p f l) as [l'|] eqn:H; simpl.
  - apply update_first_Some in H as (_ & -> & ? & _). lia.
  - apply update_first_None in H.
    rewrite List.filter_app, H. simpl. by rewrite Hfresh.
Qed.

(** With a matching row an upsert is an update in place. *)
Lemma upsert_one_update (fresh : A) (l : list A) :
  (0 < length (List.filter p l))%nat ->
  Mongo.upsert_one p f fresh l = Mongo.update_one p f l.
Proof.
  intros Hpos. unfold Mongo.upsert_one, Mongo.update_one.
  destruct (Mongo.update_first p f l) as [l'|] eqn:H; simpl; [done|].
  apply update_first_None in H. rewrite H in Hpos. simpl in Hpos. lia.
Qed.

Lemma update_one_length (l : list A) :
  length (Mongo.update_one p f l) = length l.
Proof.
  unfold Mongo.update_one.
  destruct (Mongo.update_first p f l) as [l'|] eqn:H; simpl; [|done].
  by apply update_first_Some in H as (-> & _).
Qed.
End UpdateFirst.

Lemma update_first_same {A} (p : A -> bool) (l l' : list A) :
  Mongo.update_first p (fun x => x) l = Some l' -> l' = l.
Proof.
  revert l'. induction l as [|x l IH]; simpl; intros l' H; [done|].
  destruct (p x); [by injection H as <-|].
  destruct (Mongo.update_first p (fun x => x) l) as [l0|]; [|done].
  injection H as <-. f_equal. by apply IH.
Qed.

Lemma viewArticle_run (now : Z) (u a : string) (w : World) :
  engagementService.viewArticle now u a w
  = (Ok true,
     with_articles
       (Mongo.update_one (fun x => String.eqb (Article._id x) a) Mongo.inc_views
          (articles w))
       (with_engagements
          (Mongo.upsert_one (engagementService.is_view_of u a)
             (engagementService.view_update now)
             (Engagement.mk (Bson.Str u) (Bson.Str a) VIEW now) (engagements w)) w)).
Proof. reflexivity. Qed.

Lemma is_view_of_fresh (now : Z) (u a : string) :
  engagementService.is_view_of u a (Engagement.mk (Bson.Str u) (Bson.Str a) VIEW now)
  = true.
Proof.
  unfold engagementService.is_view_of. simpl.
  rewrite !String.eqb_refl. reflexivity.
Qed.

(** C9.  From a collection with at most one VIEW row for (u, a), two
    calls of [viewArticle] both return [true] and leave exactly one such
    row, and the article's views counter goes up by 2.  The second call
    writes nothing to the row, no timestamp either: the engagements are
    after the second call what they were after the first, and a row
    that the first call inserted carries the time of the first call
    only. *)
Theorem viewArticle_twice (w : World) (now1 now2 : Z) (u a : string) :
  (view_rows u a (engagements w) <= 1)%nat ->
  let r1 := engagementService.viewArticle now1 u a w in
  let r2 := engagementService.viewArticle now2 u a r1.2 in
  r1.1 = Ok true /\ r2.1 = Ok true
  /\ view_rows u a (engagements r1.2) = 1%nat
  /\ view_rows u a (engagements r2.2) = 1%nat
  /\ engagements r2.2 = engagements r1.2
  /\ (view_rows u a (engagements w) = 0%nat ->
      engagements r2.2
      = engagements w ++ [Engagement.mk (Bson.Str u) (Bson.Str a) VIEW now1])
  /\ Article.views <$> find_article a (articles r2.2)
     = (fun art => Some (default 0 (Article.views art) + 2))
         <$> find_article a (articles w).
Proof.
  intros Hle r1 r2. subst r1 r2. rewrite !viewArticle_run. simpl.
  assert (forall now x,
            engagementService.is_view_of u a (engagementService.view_update now x)
            = engagementService.is_view_of u a x) as Hkeep by done.
  assert (forall x, String.eqb (Article._id (Mongo.inc_views x)) a
                    = String.eqb (Article._id x) a) as Hinc by done.
  assert (view_rows u a
            (Mongo.upsert_one (engagementService.is_view_of u a)
               (engagementService.view_update now1)
               (Engagement.mk (Bson.Str u) (Bson.Str a) VIEW now1) (engagements w))
          = 1%nat) as Hone.
  { unfold view_rows in *.
    rewrite upsert_one_rows; [lia | apply Hkeep | apply is_view_of_fresh]. }
  assert (forall l,
            (0 < view_rows u a l)%nat ->
            Mongo.upsert_one (engagementService.is_view_of u a)
              (engagementService.view_update now2)
              (Engagement.mk (Bson.Str u) (Bson.Str a) VIEW now2) l = l) as Hsame.
  { intros l Hpos. rewrite upsert_one_update by exact Hpos.
    unfold Mongo.update_one, engagementService.view_update.
    destruct (Mongo.update_first _ _ l) as [l'|] eqn:Hup; [|done].
    simpl. by apply update_first_same in Hup. }
  repeat split.
  - exact Hone.
  - rewrite Hsame by lia. exact Hone.
  - apply Hsame. lia.
  - intros Hnone. rewrite Hsame by lia.
    unfold Mongo.upsert_one.
    destruct (Mongo.update_first _ _ (engagements w)) as [l'|] eqn:Hup; [|done].
    apply (update_first_Some _ _ (Hkeep now1)) in Hup as (_ & _ & Hpos & _).
    unfold view_rows in Hnone. lia.
  - unfold find_article. rewrite !update_one_find by exact Hinc.
    destruct (List.find _ (articles w)) as [art|]; simpl; [|done].
    unfold Mongo.inc. simpl. f_equal. f_equal. lia.
Qed.

Lemma viewArticle_twice_witness :
  engagements
    (engagementService.viewArticle 5000 alice post
       (engagementService.viewArticle 1000 alice post fresh_world).2).2
  = [Engagement.mk (Bson.Str alice) (Bson.Str post) VIEW 1000].
Proof.
  refine (proj1 (proj2 (proj2 (proj2 (proj2 (proj2
    (viewArticle_twice fresh_world 1000 5000 alice post _)))))) _).
  - vm_compute. lia.
  - reflexivity.
Defined.

(** ** The two trending implementations (C10) *)

(** C10 at the failing input.  On the same corpus, window and limit and
    an empty cache, [feedService.getTrending] returns no article and
    [trendingService.getTrending] returns the article of quality 6; and
    since both use the key [trending:articles:7days], the trending
    service, asked after the feed service, returns the feed service's
    list, not its own. *)
Theorem trending_implementations_differ :
  (feedService.getTrending one_hour 7 10 trending_world).1 = Ok (CArticles [])
  /\ (trendingService.getTrending one_hour 7 10 trending_world).1
     = Ok (CArticles [article6])
  /\ (trendingService.getTrending one_hour 7 10
        (feedService.getTrending one_hour 7 10 trending_world).2).1
     = Ok (CArticles []).
Proof.
  split; [|split].
  - vm_compute. reflexivity.
  - reflexivity.
  - vm_compute. reflexivity.
Qed.

(** ** Bounds of the relevance score (C6) *)

(** The scenario of the specification: role alignment 0.6 * 0.5, a fresh
    article, no tags and no engagement give 32. *)
Example calculateRelevanceScore_ex :
  feedService.calculateRelevanceScore 1000 user1 article1 = 32.
Proof. reflexivity. Qed.

Section RelevanceBounds.
Local Open Scope Q_scope.

Lemma Math_min_spec (a b : Q) :
  (a <= b /\ JS.Math_min a b = a) \/ (b < a /\ JS.Math_min a b = b).
Proof.
  unfold JS.Math_min. destruct (Qle_bool a b) eqn:H.
  - left. split; [by apply Qle_bool_iff | done].
  - right. split; [|done]. apply Qnot_le_lt. intros Hle.
    apply Qle_bool_iff in Hle. congruence.
Qed.

Lemma Math_min_unit (a : Q) : 0 <= a -> 0 <= JS.Math_min a 1 <= 1.
Proof.
  intros Ha. destruct (Math_min_spec a 1) as [[? ->]|[? ->]]; lra.
Qed.

Lemma foldl_sum_nonneg {A} (f : A -> Q) (l : list A) (acc : Q) :
  0 <= acc -> Forall (fun x => 0 <= f x) l ->
  0 <= foldl (fun s x => s + f x) acc l.
Proof.
  intros Hacc Hl. revert acc Hacc.
  induction Hl as [|x l Hx Hl IH]; simpl; intros acc Hacc; [done|].
  apply IH. lra.
Qed.

Lemma role_term_nonneg (articleRoles : list TargetRole) (userRole : DynamicRole) :
  0 <= weight userRole ->
  Forall (fun r => 0 <= weight r) articleRoles ->
  0 <= feedService.role_term articleRoles userRole.
Proof.
  intros Hu Ha. unfold feedService.role_term.
  destruct (List.find _ articleRoles) as [r|] eqn:Hfind; [|lra].
  apply find_some in Hfind as [Hin _].
  rewrite Forall_forall in Ha. apply list_elem_of_In in Hin. specialize (Ha r Hin).
  nra.
Qed.

Lemma calculateRoleAlignment_unit (userRoles : list DynamicRole)
    (articleRoles : list TargetRole) :
  Forall (fun r => 0 <= weight r) userRoles ->
  Forall (fun r => 0 <= weight r) articleRoles ->
  0 <= feedService.calculateRoleAlignment userRoles articleRoles <= 1.
Proof.
  intros Hu Ha. unfold feedService.calculateRoleAlignment.
  apply Math_min_unit, foldl_sum_nonneg; [lra|].
  eapply Forall_impl; [exact Hu|]. intros r Hr. simpl in *.
  by apply role_term_nonneg.
Qed.

Lemma calculateTagMatch_unit (userTopics articleTags : list string) :
  0 <= feedService.calculateTagMatch userTopics articleTags <= 1.
Proof.
  unfold feedService.calculateTagMatch.
  destruct (_ || _) eqn:Hempty; [lra|].
  apply orb_false_iff in Hempty as [Hu Ht].
  apply Nat.eqb_neq in Hu, Ht.
  set (m := length (List.filter _ userTopics)).
  assert (m <= length userTopics)%nat as Hm by apply List.filter_length_le.
  set (d := Nat.max (length userTopics) (length articleTags)).
  assert (0 < d)%nat as Hd by lia.
  assert (m <= d)%nat as Hmd by lia.
  assert (0 < inject_Z (Z.of_nat d)) as Hd'.
  { change 0 with (inject_Z 0). rewrite <- Zlt_Qlt. lia. }
  assert (0 <= inject_Z (Z.of_nat m)) as Hm'.
  { change 0 with (inject_Z 0). rewrite <- Zle_Qle. lia. }
  assert (inject_Z (Z.of_nat m) <= inject_Z (Z.of_nat d)) as Hmd'.
  { rewrite <- Zle_Qle. lia. }
  split.
  - apply Qle_shift_div_l; [done|]. lra.
  - apply Qle_shift_div_r; [done|]. lra.
Qed.

Lemma calculateFreshness_unit (now : Z) (publishedAt : option Z) :
  0 <= feedService.calculateFreshness now publishedAt <= 1.
Proof.
  unfold feedService.calculateFreshness.
  destruct publishedAt as [p|]; [|lra].
  repeat (destruct (JS.leq _ _); [lra|]). lra.
Qed.

Lemma calculateEngagement_unit (article : FeedArticle) :
  (0 <= default 0 (Article.views article))%Z ->
  (0 <= default 0 (Article.saves article))%Z ->
  0 <= feedService.calculateEngagement article <= 1.
Proof.
  intros Hv Hs. unfold feedService.calculateEngagement.
  assert (0 <= inject_Z (default 0%Z (Article.views article)) / 1000) as Hv'.
  { rewrite Zle_Qle in Hv. apply Qle_shift_div_l; [reflexivity|].
    change (inject_Z 0) with 0 in Hv. lra. }
  assert (0 <= inject_Z (default 0%Z (Article.saves article)) / 100) as Hs'.
  { rewrite Zle_Qle in Hs. apply Qle_shift_div_l; [reflexivity|].
    change (inject_Z 0) with 0 in Hs. lra. }
  pose proof (Math_min_unit _ Hv'). pose proof (Math_min_unit _ Hs'). lra.
Qed.

Lemma Math_round_percent (t : Q) : 0 <= t <= 1 -> (0 <= JS.Math_round (t * 100) <= 100)%Z.
Proof.
  intros [Hlo Hhi]. unfold JS.Math_round.
  assert (1 # 2 <= t * 100 + (1 # 2)) as H0 by lra.
  assert (t * 100 + (1 # 2) <= 100 + (1 # 2)) as H1 by lra.
  apply Qfloor_resp_le in H0, H1.
  change (Qfloor (1 # 2)) with 0%Z in H0.
  change (Qfloor (100 + (1 # 2))) with 100%Z in H1. lia.
Qed.

End RelevanceBounds.

(** C6.  With role weights that are not negative on both sides (the
    schemas bound them to [0, 1]) and counters that are not negative,
    missing fields included, the relevance score is an integer between
    0 and 100. *)
Theorem calculateRelevanceScore_bounds (now : Z) (user : LeanUser) (article : FeedArticle) :
  Forall (fun r => (0 <= weight r)%Q) (default [] (User.dynamicRoles user)) ->
  Forall (fun r => (0 <= weight r)%Q) (default [] (Article.targetRoles article)) ->
  0 <= default 0 (Article.views article) ->
  0 <= default 0 (Article.saves article) ->
  0 <= feedService.calculateRelevanceScore now user article <= 100.
Proof.
  intros Hu Ha Hv Hs. unfold feedService.calculateRelevanceScore.
  apply Math_round_percent. unfold feedService.weighted_total.
  pose proof (calculateRoleAlignment_unit _ _ Hu Ha).
  pose proof (calculateTagMatch_unit (feedService.user_topics user)
                (default [] (Article.tags article))).
  pose proof (calculateFreshness_unit now (Article.publishedAt article)).
  pose proof (calculateEngagement_unit article Hv Hs).
  lra.
Qed.

Lemma calculateRelevanceScore_bounds_witness :
  0 <= feedService.calculateRelevanceScore 1000 user1 article1 <= 100.
Proof.
  apply calculateRelevanceScore_bounds.
  - simpl. repeat constructor; simpl; discriminate.
  - simpl. repeat constructor; simpl; discriminate.
  - simpl. lia.
  - simpl. lia.
Defined.

(** ** The relevance score and the clock (C7) *)

(** C7, as stated, fails: the same user and the same article score 32
    when the article is fresh and 16 forty days later. *)
Lemma calculateRelevanceScore_reads_clock :
  feedService.calculateRelevanceScore 1000 user1 article1
  <> feedService.calculateRelevanceScore (1000 + forty_days) user1 article1.
Proof.
  change (feedService.calculateRelevanceScore 1000 user1 article1) with 32.
  change (feedService.calculateRelevanceScore (1000 + forty_days) user1 article1)
    with 16.
  discriminate.
Qed.

(** An article is at full freshness for seven days. *)
Lemma calculateFreshness_first_week (now published : Z) :
  now - published <= 7 * roleService.ms_per_day ->
  feedService.calculateFreshness now (Some published) = 1%Q.
Proof.
  intros Hage. unfold feedService.calculateFreshness.
  assert (JS.leq (inject_Z (now - published) / inject_Z (1000 * 60 * 60 * 24)) 7
          = true) as ->; [|reflexivity].
  apply Qle_bool_iff, Qle_shift_div_r; [reflexivity|].
  change (7 * inject_Z (1000 * 60 * 60 * 24))%Q
    with (inject_Z (7 * roleService.ms_per_day)).
  by rewrite <- Zle_Qle.
Qed.

(** C7 (amended).  The score is a function of the user, the article and
    the clock reading, and it depends on the clock only through the
    freshness step of the article's age: two evaluations with the same
    user and article whose clock readings give the same freshness agree.
    So the score does not depend on the clock when the article has no
    publication date, and it is the same at any two instants of the
    first seven days after publication. *)
Theorem calculateRelevanceScore_clock
    (now1 now2 : Z) (user : LeanUser) (article : FeedArticle) :
  (feedService.calculateFreshness now1 (Article.publishedAt article)
   = feedService.calculateFreshness now2 (Article.publishedAt article) ->
   feedService.calculateRelevanceScore now1 user article
   = feedService.calculateRelevanceScore now2 user article)
  /\ (Article.publishedAt article = None ->
      feedService.calculateRelevanceScore now1 user article
      = feedService.calculateRelevanceScore now2 user article)
  /\ (forall published,
        Article.publishedAt article = Some published ->
        now1 - published <= 7 * roleService.ms_per_day ->
        now2 - published <= 7 * roleService.ms_per_day ->
        feedService.calculateRelevanceScore now1 user article
        = feedService.calculateRelevanceScore now2 user article).
Proof.
  unfold feedService.calculateRelevanceScore, feedService.weighted_total.
  split; [|split].
  - intros ->. reflexivity.
  - intros ->. reflexivity.
  - intros published -> H1 H2.
    by rewrite !calculateFreshness_first_week.
Qed.

Lemma calculateRelevanceScore_clock_witness :
  feedService.calculateRelevanceScore 1000 user1 article1
  = feedService.calculateRelevanceScore (1000 + roleService.ms_per_day) user1 article1.
Proof.
  apply (proj2 (proj2 (calculateRelevanceScore_clock 1000
                         (1000 + roleService.ms_per_day) user1 article1)) 1000).
  - reflexivity.
  - vm_compute. discriminate.
  - vm_compute. discriminate.
Defined.

(** ** Decay of the trending score (C8) *)

Section TrendingDecay.
Local Open Scope R_scope.

(** The example of the specification: 100 views, 10 saves and 1 share
    have the raw score 135. *)
Example calculateScore_raw (h : R) :
  trendingService.calculateScore 100 10 1 h
  = 135 / trendingService.Math_pow (h + 2) trendingService.GRAVITY.
Proof.
  unfold trendingService.calculateScore, trendingService.WEIGHTS.views,
    trendingService.WEIGHTS.saves, trendingService.WEIGHTS.shares.
  f_equal. Lra.lra.
Qed.

Lemma calculateScore_no_engagement (h : R) :
  trendingService.calculateScore 0 0 0 h = 0.
Proof.
  unfold trendingService.calculateScore, trendingService.WEIGHTS.views,
    trendingService.WEIGHTS.saves, trendingService.WEIGHTS.shares.
  unfold Rdiv. Lra.lra.
Qed.

(** C8, as stated, fails: without engagement the score is 0 at every
    age, so it does not decrease from age 0 to age 1. *)
Lemma calculateScore_flat_without_engagement :
  ~ (trendingService.calculateScore 0 0 0 0 > trendingService.calculateScore 0 0 0 1).
Proof. rewrite !calculateScore_no_engagement. Lra.lra. Qed.

Lemma timePenalty_increasing (h1 h2 : R) :
  0 <= h1 -> h1 < h2 ->
  0 < trendingService.Math_pow (h1 + 2) trendingService.GRAVITY
    < trendingService.Math_pow (h2 + 2) trendingService.GRAVITY.
Proof.
  intros H1 H12. unfold trendingService.Math_pow. split.
  - unfold Rpower. apply exp_pos.
  - apply Rlt_Rpower_l; [unfold trendingService.GRAVITY|]; Lra.lra.
Qed.

Lemma calculateScore_strict (views saves shares h1 h2 : R) :
  0 <= views -> 0 <= saves -> 0 <= shares ->
  0 < views + saves + shares ->
  0 <= h1 -> h1 < h2 ->
  trendingService.calculateScore views saves shares h1
  > trendingService.calculateScore views saves shares h2.
Proof.
  intros Hv Hs Hsh Hpos H1 H12.
  destruct (timePenalty_increasing h1 h2 H1 H12) as [Hp1 Hp12].
  unfold trendingService.calculateScore, trendingService.WEIGHTS.views,
    trendingService.WEIGHTS.saves, trendingService.WEIGHTS.shares.
  set (p1 := trendingService.Math_pow (h1 + 2) trendingService.GRAVITY) in *.
  set (p2 := trendingService.Math_pow (h2 + 2) trendingService.GRAVITY) in *.
  unfold Rdiv. apply Rmult_lt_compat_l; [Lra.lra|].
  apply Rinv_lt_contravar; [|exact Hp12].
  apply Rmult_lt_0_compat; Lra.lra.
Qed.

Lemma age_hours_nonneg (ms : Z) : (0 <= ms)%Z -> 0 <= age_hours ms.
Proof.
  intros H. apply IZR_le in H. unfold age_hours.
  apply Rmult_le_pos; [done|]. apply Rlt_le, Rinv_0_lt_compat, (IZR_lt 0). lia.
Qed.

Lemma age_hours_increasing (ms1 ms2 : Z) :
  (ms1 < ms2)%Z -> age_hours ms1 < age_hours ms2.
Proof.
  intros H. apply IZR_lt in H. unfold age_hours.
  apply Rmult_lt_compat_r; [|done]. apply Rinv_0_lt_compat, (IZR_lt 0). lia.
Qed.

(** C8 (amended).  For counters that are integers, not negative, at
    most 2^40 and not all zero, and for ages of whole milliseconds, not
    negative and at most [max_age], the later age gives the strictly
    lower score; without engagement the score is 0 at every age.  The
    proof is in exact arithmetic; the range is one where the doubles of
    the code keep the order of the exact values. *)
Theorem calculateScore_decreasing (views saves shares ms1 ms2 : Z) :
  exact_counter views -> exact_counter saves -> exact_counter shares ->
  (0 < views + saves + shares)%Z ->
  (0 <= ms1)%Z -> (ms1 < ms2)%Z -> (ms2 <= max_age)%Z ->
  trendingService.calculateScore (IZR views) (IZR saves) (IZR shares) (age_hours ms1)
  > trendingService.calculateScore (IZR views) (IZR saves) (IZR shares) (age_hours ms2)
  /\ trendingService.calculateScore 0 0 0 (age_hours ms1)
     = trendingService.calculateScore 0 0 0 (age_hours ms2).
Proof.
  intros [Hv _] [Hs _] [Hsh _] Hpos H1 H12 _.
  split; [|by rewrite !calculateScore_no_engagement].
  apply IZR_le in Hv, Hs, Hsh. apply IZR_lt in Hpos. rewrite !plus_IZR in Hpos.
  apply calculateScore_strict; try done.
  - by apply age_hours_nonneg.
  - by apply age_hours_increasing.
Qed.

Lemma calculateScore_decreasing_witness :
  trendingService.calculateScore (IZR 100) (IZR 10) (IZR 1) (age_hours 0)
  > trendingService.calculateScore (IZR 100) (IZR 10) (IZR 1) (age_hours 3600000).
Proof.
  apply (calculateScore_decreasing 100 10 1 0 3600000);
    unfold exact_counter, max_age; lia.
Defined.

End TrendingDecay.

(** ** Role weights: rounding, pruning and normalising (C4, C5) *)

Section RoundTwo.
Local Open Scope Q_scope.

Lemma round2_upper x : JS.round2 x <= x + (1 # 200).
Proof.
  unfold JS.round2, JS.Math_round.
  pose proof (Qfloor_le (x * 100 + (1 # 2))) as H.
  apply Qle_shift_div_r; [reflexivity|]. lra.
Qed.

Lemma round2_lower x : x - (1 # 200) < JS.round2 x.
Proof.
  unfold JS.round2, JS.Math_round.
  pose proof (Qlt_floor (x * 100 + (1 # 2))) as H.
  rewrite inject_Z_plus in H.
  apply Qlt_shift_div_l; [reflexivity|].
  change (inject_Z 1) with 1 in H. lra.
Qed.

Lemma Qfloor_unique (x : Q) (n : Z) :
  inject_Z n <= x -> x < inject_Z n + 1 -> Qfloor x = n.
Proof.
  intros Hlo Hhi.
  pose proof (Qfloor_le x) as H1. pose proof (Qlt_floor x) as H2.
  rewrite inject_Z_plus in H2. change (inject_Z 1) with 1 in H2.
  assert (inject_Z (Qfloor x) < inject_Z (n + 1)) as Ha.
  { rewrite inject_Z_plus. change (inject_Z 1) with 1. lra. }
  assert (inject_Z n < inject_Z (Qfloor x + 1)) as Hb.
  { rewrite inject_Z_plus. change (inject_Z 1) with 1. lra. }
  rewrite <- Zlt_Qlt in Ha, Hb. lia.
Qed.

Lemma round2_hundredth (n : Z) : JS.round2 (inject_Z n / 100) == inject_Z n / 100.
Proof.
  unfold JS.round2, JS.Math_round.
  rewrite (Qfloor_unique _ n); [reflexivity | |]; field_simplify; lra.
Qed.

#[global] Instance round2_proper : Proper (Qeq ==> Qeq) JS.round2.
Proof. intros x y H. unfold JS.round2, JS.Math_round. now rewrite H. Qed.

(** Sums of weights. *)
Lemma foldl_sum_shift {A} (f : A -> Q) (l : list A) (acc : Q) :
  foldl (fun s x => s + f x) acc l == acc + foldl (fun s x => s + f x) 0 l.
Proof.
  revert acc. induction l as [|x l IH]; intros acc; simpl; [lra|].
  rewrite (IH (acc + f x)), (IH (0 + f x)). lra.
Qed.

Lemma sum_weights_cons (r : RoleWeight) (l : list RoleWeight) :
  sum_weights (r :: l) == weight r + sum_weights l.
Proof.
  unfold sum_weights. simpl. rewrite foldl_sum_shift. lra.
Qed.

Lemma sum_weights_app (l k : list RoleWeight) :
  sum_weights (l ++ k) == sum_weights l + sum_weights k.
Proof.
  induction l as [|r l IH]; simpl.
  - unfold sum_weights at 2. simpl. lra.
  - rewrite !sum_weights_cons, IH. lra.
Qed.

Lemma sum_weights_insert before (x : RoleWeight) (l : list RoleWeight) :
  sum_weights (JS.insert_sorted before x l) == weight x + sum_weights l.
Proof.
  induction l as [|y l IH]; simpl; [by rewrite sum_weights_cons|].
  destruct (before y x); [|by rewrite !sum_weights_cons].
  rewrite !sum_weights_cons, IH. lra.
Qed.

Lemma sum_weights_sort before (l : list RoleWeight) :
  sum_weights (JS.sort before l) == sum_weights l.
Proof.
  induction l as [|x l IH]; simpl; [reflexivity|].
  by rewrite sum_weights_insert, sum_weights_cons, IH.
Qed.

Lemma sum_weights_pos (l : list RoleWeight) :
  l <> [] -> Forall (fun r => 0 < weight r) l -> 0 < sum_weights l.
Proof.
  intros Hne Hl. destruct Hl as [|r l Hr Hl]; [done|].
  rewrite sum_weights_cons.
  assert (0 <= sum_weights l); [|lra].
  clear Hne Hr. induction Hl as [|y l Hy Hl IH]; [by compute|].
  rewrite sum_weights_cons. lra.
Qed.

End RoundTwo.

Section SortLemmas.
Context {A : Type} (before : A -> A -> bool).

Lemma insert_sorted_length (x : A) (l : list A) :
  length (JS.insert_sorted before x l) = S (length l).
Proof. induction l as [|y l IH]; simpl; [done|]. destruct (before y x); simpl; lia. Qed.

Lemma sort_length (l : list A) : length (JS.sort before l) = length l.
Proof. induction l as [|x l IH]; simpl; [done|]. by rewrite insert_sorted_length, IH. Qed.

Lemma insert_sorted_Forall (P : A -> Prop) (x : A) (l : list A) :
  P x -> Forall P l -> Forall P (JS.insert_sorted before x l).
Proof.
  intros Hx Hl. induction Hl as [|y l Hy Hl IH]; simpl; [by constructor|].
  destruct (before y x); repeat constructor; auto.
Qed.

Lemma sort_Forall (P : A -> Prop) (l : list A) :
  Forall P l -> Forall P (JS.sort before l).
Proof.
  induction 1 as [|x l Hx Hl IH]; simpl; [constructor|].
  by apply insert_sorted_Forall.
Qed.
End SortLemmas.

Section RoleInvariant.
Local Open Scope Q_scope.
Import roleService.

Lemma normalize_groups_min (groups : list (string * Q)) :
  Forall (fun r => 5 # 100 <= weight r) (normalize_groups groups).
Proof.
  unfold normalize_groups.
  destruct (length groups =? 0)%nat; [constructor|].
  destruct (Qeq_bool _ 0); [constructor|].
  apply sort_Forall, Forall_forall. intros r Hr.
  apply list_elem_of_In, filter_In in Hr as [_ Hr].
  by apply Qle_bool_iff in Hr.
Qed.

Lemma computeUserRoles_min engagements articles now userId days :
  Forall (fun r => 5 # 100 <= weight r)
    (computeUserRoles engagements articles now userId days).
Proof. apply normalize_groups_min. Qed.

Lemma sum_normalized_close (total : Q) (l : list DynamicRole) :
  ~ total == 0 ->
  sum_weights l / total - inject_Z (Z.of_nat (length l)) * (1 # 200)
  <= sum_weights (normalized total l)
  <= sum_weights l / total + inject_Z (Z.of_nat (length l)) * (1 # 200).
Proof.
  intros Ht. induction l as [|r l IH].
  - change (sum_weights (normalized total [])) with 0.
    change (sum_weights []) with 0.
    change (inject_Z (Z.of_nat (length (@nil DynamicRole)))) with 0.
    assert (0 / total == 0) as -> by (by field). lra.
  - cbn [normalized map length]. rewrite !sum_weights_cons. cbn [weight].
    rewrite Nat2Z.inj_succ, <- Z.add_1_r, inject_Z_plus.
    change (inject_Z 1) with 1.
    pose proof (round2_upper (weight r / total)).
    pose proof (round2_lower (weight r / total)).
    fold (normalized total l).
    assert ((weight r + sum_weights l) / total
            == weight r / total + sum_weights l / total) as -> by (by field).
    lra.
Qed.

Lemma smoothRoles_unfold (previous computed : list DynamicRole) :
  previous <> [] ->
  smoothRoles previous computed
  = JS.sort heavier
      (normalized (sum_weights (smoothed_union previous computed))
         (smoothed_union previous computed)).
Proof. destruct previous; [done | reflexivity]. Qed.

Lemma Map_of_elem (l : list DynamicRole) (m0 : gmap string Q) (k : string) (v : Q) :
  foldl (fun m r => <[role r := weight r]> m) m0 l !! k = Some v ->
  m0 !! k = Some v \/ exists r, In r l /\ role r = k /\ weight r = v.
Proof.
  revert m0. induction l as [|x l IH]; intros m0 H; simpl in *; [by left|].
  apply IH in H as [H|(r & Hin & Hr)].
  - destruct (decide (role x = k)) as [Hk|Hk].
    + rewrite Hk, lookup_insert_eq in H. injection H as <-.
      right. exists x. auto.
    + rewrite lookup_insert_ne in H by done. by left.
  - right. exists r. tauto.
Qed.

Lemma prevWeight_nonneg (previous : list DynamicRole) (k : string) :
  Forall (fun r => 0 <= weight r) previous ->
  0 <= JS.or_zero (Map_of previous !! k).
Proof.
  intros Hp. unfold JS.or_zero.
  destruct (Map_of previous !! k) as [v|] eqn:Hk; simpl; [|lra].
  apply Map_of_elem in Hk as [Hk|(r & Hin & _ & <-)].
  - by rewrite lookup_empty in Hk.
  - rewrite Forall_forall in Hp. by apply Hp, list_elem_of_In.
Qed.

Lemma keep_previous_ext (smoothed previous : list DynamicRole) :
  exists ext, foldl keep_previous smoothed previous = smoothed ++ ext
              /\ Forall (fun r => 0 < weight r) ext.
Proof.
  revert smoothed. induction previous as [|prev previous IH]; intros smoothed; simpl.
  - exists []. by rewrite app_nil_r.
  - unfold keep_previous at 2.
    destruct (has_role smoothed (role prev)); [apply IH|].
    destruct (JS.geq _ _) eqn:Hd; [|apply IH].
    destruct (IH (smoothed ++ [mkRole (role prev)
                (JS.round2 (weight prev * (1 - SMOOTHING_FACTOR)))]))
      as (ext & -> & Hext).
    eexists. rewrite <- app_assoc. split; [reflexivity|].
    constructor; [|exact Hext]. simpl.
    apply Qle_bool_iff in Hd.
    pose proof (round2_lower (weight prev * (1 - SMOOTHING_FACTOR))). lra.
Qed.

Lemma smoothed_union_pos (previous computed : list DynamicRole) :
  computed <> [] ->
  Forall (fun r => 0 <= weight r) previous ->
  Forall (fun r => 5 # 100 <= weight r) computed ->
  smoothed_union previous computed <> []
  /\ Forall (fun r => 0 < weight r) (smoothed_union previous computed).
Proof.
  intros Hne Hp Hc. unfold smoothed_union.
  destruct (keep_previous_ext (map (smooth_entry (Map_of previous)) computed) previous)
    as (ext & -> & Hext).
  split.
  - destruct computed; [done | discriminate].
  - apply Forall_app. split; [|exact Hext].
    apply Forall_fmap. eapply Forall_impl; [exact Hc|].
    intros r Hr. simpl in *.
    pose proof (prevWeight_nonneg previous (role r) Hp).
    pose proof (round2_lower (SMOOTHING_FACTOR * weight r
                + (1 - SMOOTHING_FACTOR) * JS.or_zero (Map_of previous !! role r))).
    unfold SMOOTHING_FACTOR in *. lra.
Qed.

(** The weights that [smoothRoles] returns on a previous profile that is
    not empty sum to 1 within half a hundredth per entry. *)
Lemma smoothRoles_sum (previous computed : list DynamicRole) :
  previous <> [] -> computed <> [] ->
  Forall (fun r => 0 <= weight r) previous ->
  Forall (fun r => 5 # 100 <= weight r) computed ->
  Qabs (sum_weights (smoothRoles previous computed) - 1)
  <= inject_Z (Z.of_nat (length (smoothRoles previous computed))) * (1 # 200).
Proof.
  intros Hprev Hne Hp Hc.
  rewrite smoothRoles_unfold by done.
  destruct (smoothed_union_pos previous computed Hne Hp Hc) as [HS Hpos].
  set (S := smoothed_union previous computed) in *.
  pose proof (sum_weights_pos S HS Hpos) as Htotal.
  rewrite sum_weights_sort, sort_length.
  assert (~ sum_weights S == 0) as Hnz by lra.
  pose proof (sum_normalized_close (sum_weights S) S Hnz) as Hclose.
  assert (sum_weights S / sum_weights S == 1) as Hone by (by field).
  rewrite Hone in Hclose.
  unfold normalized at 2. rewrite length_map.
  apply Qabs_Qle_condition. lra.
Qed.
End RoleInvariant.

Section FixedPoint.
Local Open Scope Q_scope.
Import roleService.

Lemma Map_of_skip (l : list DynamicRole) (m0 : gmap string Q) (k : string) :
  ~ In k (map role l) ->
  foldl (fun m r => <[role r := weight r]> m) m0 l !! k = m0 !! k.
Proof.
  revert m0. induction l as [|x l IH]; intros m0 Hk; simpl in *; [done|].
  rewrite IH by tauto. apply lookup_insert_ne. tauto.
Qed.

Lemma Map_of_NoDup (l : list DynamicRole) (m0 : gmap string Q) (r : DynamicRole) :
  List.NoDup (map role l) -> In r l ->
  foldl (fun m r => <[role r := weight r]> m) m0 l !! role r = Some (weight r).
Proof.
  revert m0. induction l as [|x l IH]; intros m0 Hnd Hin; simpl in *; [done|].
  apply List.NoDup_cons_iff in Hnd as [Hx Hnd].
  destruct Hin as [->|Hin]; [|by apply IH].
  rewrite Map_of_skip by done. apply lookup_insert_eq.
Qed.

Lemma smooth_entry_fixed (p : list DynamicRole) (r : DynamicRole) :
  List.NoDup (map role p) -> In r p -> two_decimals r ->
  role_equiv (smooth_entry (Map_of p) r) r.
Proof.
  intros Hnd Hin [n Hn]. split; [done|]. simpl.
  unfold Map_of. rewrite Map_of_NoDup by done. simpl.
  assert (SMOOTHING_FACTOR * weight r + (1 - SMOOTHING_FACTOR) * weight r
          == inject_Z n / 100) as ->.
  { rewrite Hn. unfold SMOOTHING_FACTOR. field. }
  by rewrite round2_hundredth.
Qed.

Lemma keep_previous_covered (smoothed previous : list DynamicRole) :
  (forall prev, In prev previous -> has_role smoothed (role prev) = true) ->
  foldl keep_previous smoothed previous = smoothed.
Proof.
  induction previous as [|prev previous IH]; intros H; simpl; [done|].
  unfold keep_previous at 2. rewrite H by (by left).
  apply IH. intros. apply H. by right.
Qed.

Lemma has_role_smoothed (m : gmap string Q) (p : list DynamicRole) (prev : DynamicRole) :
  In prev p -> has_role (map (smooth_entry m) p) (role prev) = true.
Proof.
  intros Hin. unfold has_role. apply existsb_exists.
  exists (smooth_entry m prev). split.
  - apply in_map_iff. eauto.
  - simpl. apply String.eqb_refl.
Qed.

Lemma sum_weights_equiv (l k : list DynamicRole) :
  roles_equiv l k -> sum_weights l == sum_weights k.
Proof.
  induction 1 as [|a b l k [_ Hab] _ IH]; [reflexivity|].
  by rewrite !sum_weights_cons, Hab, IH.
Qed.

Lemma sort_descending (l k : list DynamicRole) :
  roles_equiv l k -> descending k -> JS.sort heavier l = l.
Proof.
  intros Heq Hk. revert l Heq.
  induction Hk as [|b k Hk IH Hb]; intros l Heq; inversion Heq as [|a ? l' ? [_ Hab] Hl']; subst;
    [done|].
  simpl. rewrite (IH l' Hl').
  destruct Hl' as [|a' b' l'' k' [_ Hab'] Hl'']; [done|].
  simpl. unfold heavier at 1.
  assert (weight a' <= weight a) as Hle.
  { rewrite Hab, Hab'. apply Forall_inv in Hb. exact Hb. }
  apply Qle_bool_iff in Hle. by rewrite Hle.
Qed.

Lemma normalized_equiv (total : Q) (l k : list DynamicRole) :
  total == 1 -> roles_equiv l k -> Forall two_decimals k ->
  roles_equiv (normalized total l) k.
Proof.
  intros Ht Heq. induction Heq as [|a b l k [Hr Hab] _ IH]; intros Htwo;
    [constructor|].
  apply Forall_cons in Htwo as [[n Hn] Htwo].
  constructor; [|by apply IH].
  split; [done|]. simpl.
  assert (weight a / total == inject_Z n / 100) as ->.
  { rewrite Ht, Hab, Hn. field. }
  by rewrite round2_hundredth, Hn.
Qed.

(** C5 (amended).  A profile with one entry per role, weights of two
    decimals that sum to exactly 1, in descending order, is a fixed
    point of smoothing against itself. *)
Theorem smoothRoles_fixed_point (p : list DynamicRole) :
  List.NoDup (map role p) ->
  Forall two_decimals p ->
  sum_weights p == 1 ->
  descending p ->
  roles_equiv (smoothRoles p p) p.
Proof.
  intros Hnd Htwo Hsum Hdesc.
  destruct p as [|r0 p0] eqn:Hp; [constructor|]. rewrite <- Hp in *.
  assert (p <> []) as Hne by (by rewrite Hp).
  clear Hp r0 p0.
  rewrite smoothRoles_unfold by done.
  unfold smoothed_union.
  rewrite keep_previous_covered by (intros; by apply has_role_smoothed).
  set (S := map (smooth_entry (Map_of p)) p).
  assert (roles_equiv S p) as HS.
  { apply Forall2_fmap_l, Forall_Forall2_diag, Forall_forall.
    intros r Hr. apply list_elem_of_In in Hr. simpl.
    apply smooth_entry_fixed; [done..|].
    rewrite Forall_forall in Htwo. by apply Htwo, list_elem_of_In. }
  assert (sum_weights S == 1) as Htotal by (by rewrite (sum_weights_equiv S p)).
  assert (roles_equiv (normalized (sum_weights S) S) p) as HN
    by (by apply normalized_equiv).
  by rewrite (sort_descending _ p).
Qed.
End FixedPoint.

(** ** The role weight invariant (C4) *)

Example computeUserRoles_thirds :
  roleService.computeUserRoles three_views three_articles 2000 "u1" 30
  = [mkRole "FRONTEND" (33 # 100); mkRole "BACKEND" (33 # 100);
     mkRole "DEVOPS" (33 # 100)].
Proof. reflexivity. Qed.

Example smoothRoles_small_role :
  roleService.smoothRoles backend_only mostly_backend
  = [mkRole "BACKEND" (96 # 100); mkRole "FRONTEND" (4 # 100)].
Proof. reflexivity. Qed.

(** C4, as stated, fails for both functions: three equally weighted
    roles come out of [computeUserRoles] as 0.33 each, which sum to
    0.99; and [smoothRoles] returns a FRONTEND weight of 0.04. *)
Lemma role_weight_invariant_fails :
  ~ role_weight_invariant
      (roleService.computeUserRoles three_views three_articles 2000 "u1" 30)
  /\ ~ role_weight_invariant (roleService.smoothRoles backend_only mostly_backend).
Proof.
  split; intros [H|[Hmin Hsum]]; try discriminate H.
  - vm_compute in Hsum. by apply Hsum.
  - rewrite smoothRoles_small_role in Hmin.
    apply Forall_cons in Hmin as [_ Hmin]. apply Forall_cons in Hmin as [Hmin _].
    vm_compute in Hmin. by apply Hmin.
Qed.

(** C4 (amended).  Every weight that [computeUserRoles] returns is at
    least 0.05; its weights are shares rounded to two decimals, taken
    before invalid and small roles are dropped, and nothing brings their
    sum back to 1.  [smoothRoles] returns [computed] as it is for an
    empty previous profile; otherwise, for a previous profile without
    negative weights and a computed profile that is not empty and has
    weights of at least 0.05, the returned weights sum to 1 within half
    a hundredth per entry. *)
Theorem role_weight_bounds :
  (forall engagements articles now userId days,
     Forall (fun r => (5 # 100 <= weight r)%Q)
       (roleService.computeUserRoles engagements articles now userId days))
  /\ (forall computed, roleService.smoothRoles [] computed = computed)
  /\ (forall previous computed,
        previous <> [] -> computed <> [] ->
        Forall (fun r => (0 <= weight r)%Q) previous ->
        Forall (fun r => (5 # 100 <= weight r)%Q) computed ->
        (Qabs (sum_weights (roleService.smoothRoles previous computed) - 1)
         <= inject_Z (Z.of_nat (length (roleService.smoothRoles previous computed)))
            * (1 # 200))%Q).
Proof.
  split; [|split].
  - apply computeUserRoles_min.
  - reflexivity.
  - apply smoothRoles_sum.
Qed.

Lemma role_weight_bounds_witness :
  (Qabs (sum_weights (roleService.smoothRoles backend_only mostly_backend) - 1)
   <= inject_Z (Z.of_nat (length (roleService.smoothRoles backend_only mostly_backend)))
      * (1 # 200))%Q.
Proof.
  apply (proj2 (proj2 role_weight_bounds) backend_only mostly_backend).
  - discriminate.
  - discriminate.
  - repeat constructor; simpl; discriminate.
  - repeat constructor; simpl; discriminate.
Defined.

(** ** Smoothing a profile against itself (C5) *)

Example computeUserRoles_pruned :
  roleService.computeUserRoles
    [Engagement.mk (Bson.ObjectId "u1") (Bson.ObjectId "a1") VIEW 1000]
    [lopsided_article] 2000 "u1" 30
  = pruned_profile.
Proof. reflexivity. Qed.

(** C5, as stated, fails: a profile whose weights do not sum to 1, such
    as the one left when [computeUserRoles] drops a role of weight 0.04,
    is renormalised: 0.96 becomes 1. *)
Lemma smoothRoles_not_fixed :
  roleService.smoothRoles pruned_profile pruned_profile
  = [mkRole "FRONTEND" (100 # 100)]
  /\ ~ roles_equiv (roleService.smoothRoles pruned_profile pruned_profile)
        pruned_profile.
Proof.
  split; [reflexivity|].
  intros H. apply Forall2_cons in H as [[_ H] _]. vm_compute in H. discriminate H.
Qed.

(** An unsorted profile comes back sorted. *)
Example smoothRoles_sorts :
  roleService.smoothRoles
    [mkRole "BACKEND" (4 # 10); mkRole "FRONTEND" (6 # 10)]
    [mkRole "BACKEND" (4 # 10); mkRole "FRONTEND" (6 # 10)]
  = [mkRole "FRONTEND" (60 # 100); mkRole "BACKEND" (40 # 100)].
Proof. reflexivity. Qed.

Lemma smoothRoles_fixed_point_witness :
  roles_equiv (roleService.smoothRoles default_profile default_profile) default_profile.
Proof.
  apply smoothRoles_fixed_point.
  - simpl. repeat (constructor; [simpl; intuition discriminate|]). constructor.
  - repeat constructor; [exists 50 | exists 30 | exists 20]; reflexivity.
  - reflexivity.
  - repeat constructor; simpl; discriminate.
Defined.

(* ===================================================================== *)
(** * Further properties of the services *)
(* ===================================================================== *)

(** ** Sorting *)

(** [Array.prototype.sort] returns a permutation of the array, in the
    order of the comparator when the comparator is a strict order. *)
Section SortOrder.
Context {A : Type} (before : A -> A -> bool).

Lemma insert_sorted_perm (x : A) (l : list A) :
  JS.insert_sorted before x l ≡ₚ x :: l.
Proof.
  induction l as [|y l IH]; simpl; [done|].
  destruct (before y x); [|done].
  rewrite IH. apply Permutation_swap.
Qed.

Lemma sort_perm (l : list A) : JS.sort before l ≡ₚ l.
Proof.
  induction l as [|x l IH]; simpl; [done|].
  by rewrite insert_sorted_perm, IH.
Qed.

Lemma sort_In (x : A) (l : list A) : In x (JS.sort before l) <-> In x l.
Proof.
  rewrite <- !list_elem_of_In. by rewrite sort_perm.
Qed.

Hypothesis before_asym : forall x y, before y x = true -> before x y = false.
Hypothesis before_trans :
  forall a b c, before b a = false -> before c b = false -> before c a = false.

Lemma insert_sorted_sorted (x : A) (l : list A) :
  StronglySorted (in_order before) l -> StronglySorted (in_order before) (JS.insert_sorted before x l).
Proof.
  induction 1 as [|y l Hl IH Hy]; simpl.
  - repeat constructor.
  - destruct (before y x) eqn:Hyx.
    + constructor; [exact IH|].
      apply insert_sorted_Forall; [by apply before_asym | exact Hy].
    + constructor; [by constructor|].
      constructor; [exact Hyx|].
      eapply Forall_impl; [exact Hy|]. intros z Hz. simpl in *.
      by apply (before_trans x y z).
Qed.

Lemma sort_sorted (l : list A) : StronglySorted (in_order before) (JS.sort before l).
Proof.
  induction l as [|x l IH]; simpl; [constructor|].
  by apply insert_sorted_sorted.
Qed.

Lemma take_sorted (R : A -> A -> Prop) (n : nat) (l : list A) :
  StronglySorted R l -> StronglySorted R (take n l).
Proof.
  intros Hl. revert n. induction Hl as [|x l Hl IH Hx]; intros [|n]; simpl;
    try constructor; [apply IH|].
  apply Forall_take. exact Hx.
Qed.

Lemma limit_sorted (R : A -> A -> Prop) (n : nat) (l : list A) :
  StronglySorted R l -> StronglySorted R (Mongo.limit n l).
Proof. destruct n; [done|]. apply take_sorted. Qed.

Lemma limit_Forall (P : A -> Prop) (n : nat) (l : list A) :
  Forall P l -> Forall P (Mongo.limit n l).
Proof. destruct n; [done|]. apply Forall_take. Qed.

Lemma limit_length (n : nat) (l : list A) :
  n <> 0%nat -> (length (Mongo.limit n l) <= n)%nat.
Proof. destruct n; [done|]. intros _. unfold Mongo.limit. rewrite length_take. lia. Qed.
End SortOrder.

(** ** The cache utility, with Redis reachable *)

Lemma with_redis_id (w : World) : with_redis (redis w) w = w.
Proof. by destruct w. Qed.

Lemma set_healthy (key : string) (v : cval) (t : Z) (w : World) :
  faults w = [] ->
  cache.set key v t w = (Ok tt, with_redis (<[key := mkEntry v t]> (redis w)) w).
Proof. intros Hf. unfold cache.set, client. by rewrite Hf. Qed.

Lemma KEYS_sound (pattern k : string) (r : gmap string CacheEntry) :
  In k (cache.KEYS pattern r) -> is_Some (r !! k) /\ glob pattern k = true.
Proof.
  unfold cache.KEYS. intros H. apply filter_In in H as [H Hg]. split; [|done].
  apply in_map_iff in H as ([k' e] & <- & H).
  apply list_elem_of_In, elem_of_map_to_list in H. by exists e.
Qed.

Lemma KEYS_NoDup (pattern : string) (r : gmap string CacheEntry) :
  List.NoDup (cache.KEYS pattern r).
Proof.
  unfold cache.KEYS. apply List.NoDup_filter, NoDup_ListNoDup.
  apply (NoDup_fst_map_to_list r).
Qed.

Lemma foldr_delete_other (keys : list string) (k : string) (r : gmap string CacheEntry) :
  ~ In k keys -> foldr delete r keys !! k = r !! k.
Proof.
  induction keys as [|k' keys IH]; simpl; intros Hk; [done|].
  rewrite lookup_delete_ne by tauto. apply IH. tauto.
Qed.

Lemma foldr_delete_size (keys : list string) (r : gmap string CacheEntry) :
  List.NoDup keys -> (forall k, In k keys -> is_Some (r !! k)) ->
  (size (foldr delete r keys) + length keys = size r)%nat.
Proof.
  induction 1 as [|k keys Hk Hnd IH]; intros Hall; simpl; [lia|].
  assert (is_Some (foldr delete r keys !! k)) as He.
  { rewrite foldr_delete_other by done. apply Hall. by left. }
  rewrite (map_size_delete_Some _ _ He).
  specialize (IH (fun k' H' => Hall k' (or_intror H'))).
  assert (size (foldr delete r keys) <> 0)%nat; [|lia].
  intros H0. apply map_size_empty_inv in H0. rewrite H0 in He.
  rewrite lookup_empty in He. by destruct He.
Qed.

Lemma DEL_count (keys : list string) (r : gmap string CacheEntry) :
  (forall k, In k keys -> is_Some (r !! k)) ->
  (cache.DEL keys r).1 = Z.of_nat (length keys).
Proof.
  intros Hall. unfold cache.DEL. simpl. f_equal. f_equal.
  induction keys as [|k keys IH]; simpl; [done|].
  rewrite bool_decide_eq_true_2 by (apply Hall; by left).
  simpl. f_equal. apply IH. intros. apply Hall. by right.
Qed.

Lemma delPattern_healthy (pattern : string) (w : World) :
  faults w = [] ->
  cache.delPattern pattern w
  = (Ok (Z.of_nat (length (cache.KEYS pattern (redis w)))),
     with_redis (foldr delete (redis w) (cache.KEYS pattern (redis w))) w).
Proof.
  intros Hf. unfold cache.delPattern, bind, client, ret. rewrite Hf. simpl.
  destruct (cache.KEYS pattern (redis w)) as [|k ks] eqn:Hkeys; simpl.
  - by destruct w.
  - rewrite Hf. simpl.
    pose proof (DEL_count (k :: ks) (redis w)) as Hc. simpl in Hc.
    rewrite Hc; [by destruct w|].
    intros k' Hk'. change (In k' (k :: ks)) in Hk'.
    rewrite <- Hkeys in Hk'. by apply KEYS_sound in Hk' as [? _].
Qed.

Lemma delPattern_lookup (pattern : string) (w : World) :
  faults w = [] ->
  forall k, redis (cache.delPattern pattern w).2 !! k
            = if glob pattern k then None else redis w !! k.
Proof.
  intros Hf k. rewrite delPattern_healthy by done. simpl.
  destruct (glob pattern k) eqn:Hg.
  - apply (DEL_removes _ _ (redis w)).
    destruct (redis w !! k) eqn:Hk; [left | by right].
    apply KEYS_complete; [by rewrite Hk | done].
  - apply foldr_delete_other. intros Hin. apply KEYS_sound in Hin as [_ Hin].
    congruence.
Qed.

(** X1.  With Redis reachable, [delPattern] removes exactly the keys that
    match the pattern: a matching key reads as absent afterwards, every
    other key reads as before, and the number it returns is the number
    of entries that are gone.  The collections are not touched. *)
Theorem delPattern_exact (pattern : string) (w : World) :
  faults w = [] ->
  let run := cache.delPattern pattern w in
  (forall k, redis run.2 !! k = if glob pattern k then None else redis w !! k)
  /\ run.1 = Ok (Z.of_nat (size (redis w)) - Z.of_nat (size (redis run.2)))
  /\ articles run.2 = articles w /\ engagements run.2 = engagements w
  /\ users run.2 = users w.
Proof.
  intros Hf run. subst run.
  split; [by apply delPattern_lookup|].
  rewrite delPattern_healthy by done. simpl.
  split; [|done].
  - f_equal.
    pose proof (foldr_delete_size (cache.KEYS pattern (redis w)) (redis w)
                  (KEYS_NoDup _ _) (fun k H => proj1 (KEYS_sound _ _ _ H))).
    lia.
Qed.

(** ** The feed of a logged-in user *)

(** The run of a request that misses the cache. *)
Lemma getPersonalizedFeed_miss (now : Z) (u : LeanUser) (limit : nat)
    (cursor : option string) (w : World) :
  faults w = [] ->
  redis w !! cacheKeys.userFeed (User._id u) (feedService.page_of cursor) = None ->
  feedService.getPersonalizedFeed now (Some u) limit cursor w
  = (Ok (scored_page now u limit (source_articles (Some u) limit cursor w)),
     with_redis
       (<[cacheKeys.userFeed (User._id u) (feedService.page_of cursor) :=
            mkEntry (scored_page now u limit (source_articles (Some u) limit cursor w))
              cacheTTL.feed]> (redis w)) w).
Proof.
  intros Hf Hmiss. unfold feedService.getPersonalizedFeed, bind. cbv beta iota.
  rewrite get_healthy by done. rewrite Hmiss. simpl.
  unfold get_world. by rewrite set_healthy.
Qed.

Lemma getPersonalizedFeed_hit (now : Z) (u : LeanUser) (limit : nat)
    (cursor : option string) (w : World) (e : CacheEntry) :
  faults w = [] ->
  redis w !! cacheKeys.userFeed (User._id u) (feedService.page_of cursor) = Some e ->
  feedService.getPersonalizedFeed now (Some u) limit cursor w = (Ok (data e), w).
Proof.
  intros Hf Hhit. unfold feedService.getPersonalizedFeed, bind. cbv beta iota.
  rewrite get_healthy by done. by rewrite Hhit.
Qed.

(** X3.  A page computed on a miss is stored for 300 seconds under a key
    made of the user id and of whether a cursor was given.  While it is
    there, every request of that user with a cursor (or every request
    without one) gets this page: whatever the clock, the limit, the
    value of the cursor, the user's profile or the articles are by
    then. *)
Theorem feed_page_served_from_cache
    (now now' : Z) (u u' : LeanUser) (limit limit' : nat)
    (cursor cursor' : option string) (w w' : World) :
  faults w = [] ->
  redis w !! cacheKeys.userFeed (User._id u) (feedService.page_of cursor) = None ->
  let first := feedService.getPersonalizedFeed now (Some u) limit cursor w in
  faults w' = [] ->
  redis w' = redis first.2 ->
  User._id u' = User._id u ->
  feedService.truthy cursor' = feedService.truthy cursor ->
  (exists page,
     first.1 = Ok page
     /\ redis first.2 !! cacheKeys.userFeed (User._id u) (feedService.page_of cursor)
        = Some (mkEntry page 300)
     /\ feedService.getPersonalizedFeed now' (Some u') limit' cursor' w'
        = (Ok page, w')).
Proof.
  intros Hf Hmiss first Hf' Hredis Hid Hcur. subst first.
  rewrite getPersonalizedFeed_miss in * by done. simpl in *.
  eexists. split; [reflexivity|]. split; [by rewrite lookup_insert_eq|].
  rewrite (getPersonalizedFeed_hit now' u' limit' cursor' w'
             (mkEntry (scored_page now u limit (source_articles (Some u) limit cursor w))
                cacheTTL.feed)); [reflexivity | done |].
  rewrite Hredis, Hid. unfold feedService.page_of. rewrite Hcur.
  by rewrite lookup_insert_eq.
Qed.

Lemma feed_page_served_from_cache_witness :
  exists page,
    (feedService.getPersonalizedFeed 2000 (Some user1) 20 None
       (with_faults [] down_world)).1 = Ok page
    /\ feedService.getPersonalizedFeed 9000 (Some user1) 5 None
         (with_articles []
            (feedService.getPersonalizedFeed 2000 (Some user1) 20 None
               (with_faults [] down_world)).2)
       = (Ok page,
          with_articles []
            (feedService.getPersonalizedFeed 2000 (Some user1) 20 None
               (with_faults [] down_world)).2).
Proof.
  destruct (feed_page_served_from_cache 2000 9000 user1 user1 20 5 None None
              (with_faults [] down_world)
              (with_articles []
                 (feedService.getPersonalizedFeed 2000 (Some user1) 20 None
                    (with_faults [] down_world)).2))
    as (page & H1 & _ & H2); try reflexivity.
  exists page. by split.
Defined.

Lemma StronglySorted_weaken {A} (R S : A -> A -> Prop) (l : list A) :
  (forall a b, R a b -> S a b) -> StronglySorted R l -> StronglySorted S l.
Proof.
  intros HRS. induction 1 as [|x l Hl IH Hx]; constructor; [done|].
  eapply Forall_impl; [exact Hx | auto].
Qed.

Lemma feed_query_worthy (user : option LeanUser) (cursor : option string)
    (a : Article.t) :
  feedService.feed_query user cursor a = true -> feed_worthy user cursor a.
Proof.
  unfold feedService.feed_query, feed_worthy, skill_preference.
  rewrite !andb_true_iff. intros [[[[Hq Hact] Hclick] Hcur] Hskill].
  apply Qle_bool_iff in Hq. apply negb_true_iff in Hclick.
  repeat split; try done.
  - intros c -> Hc. simpl in Hcur.
    apply String.eqb_neq in Hc. by rewrite Hc in Hcur.
  - intros Hlevel. rewrite Hlevel in Hskill. simpl in Hskill.
    intros Ha. rewrite Ha in Hskill. discriminate Hskill.
  - intros Hlevel. rewrite Hlevel in Hskill. simpl in Hskill.
    intros Ha. rewrite Ha in Hskill. discriminate Hskill.
Qed.

Lemma source_articles_worthy (user : option LeanUser) (limit : nat)
    (cursor : option string) (w : World) :
  Forall (fun a => In a (articles w) /\ feed_worthy user cursor a)
    (source_articles user limit cursor w).
Proof.
  unfold source_articles. apply limit_Forall, sort_Forall, Forall_forall.
  intros a Ha. apply list_elem_of_In, filter_In in Ha as [Hin Hq].
  split; [done | by apply feed_query_worthy].
Qed.

(** X4.  A page that is computed (Redis reachable, nothing cached for
    the request) has at most [limit] articles, all of them articles of
    the collection with quality at least 7, active, not clickbait, with
    an id below the cursor when one is given, and never ADVANCED for a
    BEGINNER nor BEGINNER for an ADVANCED user. *)
Theorem feed_page_content (now : Z) (user : option LeanUser) (limit : nat)
    (cursor : option string) (w : World) :
  faults w = [] ->
  (forall u, user = Some u ->
     redis w !! cacheKeys.userFeed (User._id u) (feedService.page_of cursor) = None) ->
  exists page,
    (feedService.getPersonalizedFeed now user limit cursor w).1 = Ok page
    /\ (length (page_articles page) <= limit)%nat
    /\ Forall (fun a => In a (articles w) /\ feed_worthy user cursor a)
         (page_articles page).
Proof.
  intros Hf Hmiss. destruct user as [u|].
  - rewrite getPersonalizedFeed_miss by auto. simpl.
    eexists. split; [reflexivity|]. unfold scored_page, page_articles, JS.slice0.
    split.
    + rewrite length_map, length_take. lia.
    + apply Forall_fmap, Forall_take, sort_Forall, Forall_fmap.
      apply (source_articles_worthy (Some u)).
  - eexists. split; [reflexivity|]. unfold page_articles, JS.slice0. split.
    + rewrite length_take. lia.
    + apply Forall_take. apply (source_articles_worthy None).
Qed.

Lemma feed_page_content_witness :
  exists page,
    (feedService.getPersonalizedFeed 2000 (Some user1) 20 None
       (with_faults [] down_world)).1 = Ok page
    /\ (length (page_articles page) <= 20)%nat
    /\ Forall (fun a => In a (articles (with_faults [] down_world))
                        /\ feed_worthy (Some user1) None a)
         (page_articles page).
Proof.
  apply (feed_page_content 2000 (Some user1) 20 None (with_faults [] down_world)).
  - reflexivity.
  - intros u [= <-]. reflexivity.
Defined.

Lemma higher_score_order (l : list ScoredArticle) :
  StronglySorted (fun a b => relevanceScore b <= relevanceScore a)
    (JS.sort feedService.higher_score l).
Proof.
  apply (StronglySorted_weaken (in_order feedService.higher_score)).
  - unfold in_order, feedService.higher_score. intros a b H.
    apply Z.ltb_ge in H. exact H.
  - apply sort_sorted; unfold feedService.higher_score.
    + intros x y H. apply Z.ltb_lt in H. apply Z.ltb_ge. lia.
    + intros a b c H1 H2. apply Z.ltb_ge in H1, H2. apply Z.ltb_ge. lia.
Qed.

(** X5.  The page computed for a logged-in user is ranked: it is in
    descending order of relevance score, and the score stored with each
    entry is the relevance score of its article for this user at the
    time of the request. *)
Theorem feed_page_ranked (now : Z) (u : LeanUser) (limit : nat)
    (cursor : option string) (w : World) :
  faults w = [] ->
  redis w !! cacheKeys.userFeed (User._id u) (feedService.page_of cursor) = None ->
  exists l,
    (feedService.getPersonalizedFeed now (Some u) limit cursor w).1 = Ok (CScored l)
    /\ StronglySorted (fun a b => relevanceScore b <= relevanceScore a) l
    /\ Forall (fun s => relevanceScore s
                        = feedService.calculateRelevanceScore now u (article s)) l.
Proof.
  intros Hf Hmiss. rewrite getPersonalizedFeed_miss by done. simpl.
  eexists. split; [reflexivity|]. unfold JS.slice0. split.
  - apply take_sorted, higher_score_order.
  - apply Forall_take, sort_Forall, Forall_fmap, Forall_forall. done.
Qed.

Lemma feed_page_ranked_witness :
  exists l,
    (feedService.getPersonalizedFeed 2000 (Some user1) 20 None
       (with_faults [] down_world)).1 = Ok (CScored l)
    /\ StronglySorted (fun a b => relevanceScore b <= relevanceScore a) l
    /\ Forall (fun s => relevanceScore s
                        = feedService.calculateRelevanceScore 2000 user1 (article s)) l.
Proof.
  apply (feed_page_ranked 2000 user1 20 None (with_faults [] down_world));
    reflexivity.
Defined.

(** ** How the relevance score moves *)

Section ScoreMoves.
Local Open Scope Q_scope.

Lemma Math_min_mono (a b c : Q) : a <= b -> JS.Math_min a c <= JS.Math_min b c.
Proof.
  intros Hab.
  destruct (Math_min_spec a c) as [[? ->]|[? ->]];
    destruct (Math_min_spec b c) as [[? ->]|[? ->]]; lra.
Qed.

Lemma Math_round_mono (x y : Q) : x <= y -> (JS.Math_round x <= JS.Math_round y)%Z.
Proof. intros H. unfold JS.Math_round. apply Qfloor_resp_le. lra. Qed.

Lemma role_term_mono (articleRoles : list TargetRole) (r1 r2 : DynamicRole) :
  Forall (fun r => 0 <= weight r) articleRoles ->
  role r1 = role r2 -> weight r1 <= weight r2 ->
  feedService.role_term articleRoles r1 <= feedService.role_term articleRoles r2.
Proof.
  intros Ha Hr Hw. unfold feedService.role_term. rewrite Hr.
  destruct (List.find _ articleRoles) as [r|] eqn:Hfind; [|lra].
  apply find_some in Hfind as [Hin _].
  rewrite Forall_forall in Ha. apply list_elem_of_In in Hin. specialize (Ha r Hin).
  nra.
Qed.

Lemma alignment_sum_mono (articleRoles : list TargetRole)
    (l k : list DynamicRole) (acc1 acc2 : Q) :
  Forall (fun r => 0 <= weight r) articleRoles ->
  roles_le l k -> acc1 <= acc2 ->
  foldl (fun score userRole => score + feedService.role_term articleRoles userRole) acc1 l
  <= foldl (fun score userRole => score + feedService.role_term articleRoles userRole) acc2 k.
Proof.
  intros Ha Hlk. revert acc1 acc2.
  induction Hlk as [|r1 r2 l k [Hr Hw] _ IH]; intros acc1 acc2 Hacc; simpl; [done|].
  apply IH. pose proof (role_term_mono articleRoles r1 r2 Ha Hr Hw). lra.
Qed.

(** X6.  The relevance score does not go down when weights of the
    user's role profile go up: for the same article, clock, topics and
    roles, with article weights that are not negative. *)
Theorem calculateRelevanceScore_monotone_in_roles
    (now : Z) (user : LeanUser) (article : FeedArticle)
    (roles1 roles2 : list DynamicRole) :
  Forall (fun r => 0 <= weight r) (default [] (Article.targetRoles article)) ->
  roles_le roles1 roles2 ->
  (feedService.calculateRelevanceScore now (with_dynamicRoles roles1 user) article
   <= feedService.calculateRelevanceScore now (with_dynamicRoles roles2 user) article)%Z.
Proof.
  intros Ha Hle. unfold feedService.calculateRelevanceScore.
  apply Math_round_mono. unfold feedService.weighted_total. simpl.
  unfold feedService.user_topics. simpl.
  assert (feedService.calculateRoleAlignment roles1
            (default [] (Article.targetRoles article))
          <= feedService.calculateRoleAlignment roles2
               (default [] (Article.targetRoles article))) as Hrole.
  { unfold feedService.calculateRoleAlignment.
    apply Math_min_mono, alignment_sum_mono; [done | done | lra]. }
  lra.
Qed.

Lemma calculateRelevanceScore_monotone_in_roles_witness :
  (feedService.calculateRelevanceScore 1000
     (with_dynamicRoles [mkRole "FRONTEND" (2 # 10)] user1) article1
   <= feedService.calculateRelevanceScore 1000
        (with_dynamicRoles [mkRole "FRONTEND" (9 # 10)] user1) article1)%Z.
Proof.
  apply calculateRelevanceScore_monotone_in_roles.
  - simpl. repeat constructor; simpl; discriminate.
  - repeat constructor. simpl. discriminate.
Defined.

Lemma leq_true (a b : Q) : JS.leq a b = true <-> a <= b.
Proof. apply Qle_bool_iff. Qed.

Lemma leq_false (a b : Q) : JS.leq a b = false <-> b < a.
Proof.
  unfold JS.leq. split.
  - intros H. apply Qnot_le_lt. intros Hle. apply Qle_bool_iff in Hle. congruence.
  - intros H. destruct (Qle_bool a b) eqn:Hb; [|done].
    apply Qle_bool_iff in Hb. lra.
Qed.

Lemma calculateFreshness_decays (now1 now2 : Z) (publishedAt : option Z) :
  (now1 <= now2)%Z ->
  feedService.calculateFreshness now2 publishedAt
  <= feedService.calculateFreshness now1 publishedAt.
Proof.
  intros Hnow. unfold feedService.calculateFreshness.
  destruct publishedAt as [p|]; [|lra].
  assert (inject_Z (now1 - p) / inject_Z (1000 * 60 * 60 * 24)
          <= inject_Z (now2 - p) / inject_Z (1000 * 60 * 60 * 24)) as Hage.
  { apply Qmult_le_compat_r; [|discriminate]. rewrite <- Zle_Qle. lia. }
  set (d1 := inject_Z (now1 - p) / inject_Z (1000 * 60 * 60 * 24)) in *.
  set (d2 := inject_Z (now2 - p) / inject_Z (1000 * 60 * 60 * 24)) in *.
  destruct (JS.leq d1 7) eqn:H17; destruct (JS.leq d2 7) eqn:H27;
  destruct (JS.leq d1 14) eqn:H114; destruct (JS.leq d2 14) eqn:H214;
  destruct (JS.leq d1 30) eqn:H130; destruct (JS.leq d2 30) eqn:H230;
  rewrite ?leq_true, ?leq_false in *; lra.
Qed.

(** X7.  For a fixed user and article the relevance score never goes up
    as the clock advances. *)
Theorem calculateRelevanceScore_decays (now1 now2 : Z) (user : LeanUser)
    (article : FeedArticle) :
  (now1 <= now2)%Z ->
  (feedService.calculateRelevanceScore now2 user article
   <= feedService.calculateRelevanceScore now1 user article)%Z.
Proof.
  intros Hnow. unfold feedService.calculateRelevanceScore.
  apply Math_round_mono. unfold feedService.weighted_total.
  pose proof (calculateFreshness_decays now1 now2 (Article.publishedAt article) Hnow).
  lra.
Qed.

Lemma calculateRelevanceScore_decays_witness :
  (feedService.calculateRelevanceScore (1000 + forty_days) user1 article1
   <= feedService.calculateRelevanceScore 1000 user1 article1)%Z.
Proof. apply calculateRelevanceScore_decays. vm_compute. discriminate. Defined.

End ScoreMoves.

(** ** Tag matching *)

Lemma fuzzy_modulo_case (topic topic' tag tag' : string) :
  same_modulo_case topic topic' -> same_modulo_case tag tag' ->
  feedService.fuzzy topic tag = feedService.fuzzy topic' tag'.
Proof.
  unfold same_modulo_case, feedService.fuzzy. by intros -> ->.
Qed.

Lemma existsb_fuzzy_modulo_case (topic topic' : string) (tags tags' : list string) :
  same_modulo_case topic topic' -> Forall2 same_modulo_case tags tags' ->
  existsb (feedService.fuzzy topic) tags = existsb (feedService.fuzzy topic') tags'.
Proof.
  intros Ht. induction 1 as [|tag tag' tags tags' Htag _ IH]; simpl; [done|].
  by rewrite IH, (fuzzy_modulo_case topic topic' tag tag').
Qed.

(** X8.  Tag matching ignores case: topics and tags that are replaced,
    position by position, by strings that differ from them in case only
    give the same tag match. *)
Theorem calculateTagMatch_ignores_case (topics topics' tags tags' : list string) :
  Forall2 same_modulo_case topics topics' ->
  Forall2 same_modulo_case tags tags' ->
  feedService.calculateTagMatch topics tags
  = feedService.calculateTagMatch topics' tags'.
Proof.
  intros Htopics Htags. unfold feedService.calculateTagMatch.
  rewrite <- (Forall2_length _ _ _ Htopics), <- (Forall2_length _ _ _ Htags).
  destruct (_ || _); [done|]. do 3 f_equal.
  induction Htopics as [|topic topic' topics topics' Ht _ IH]; simpl; [done|].
  rewrite (existsb_fuzzy_modulo_case topic topic' tags tags') by done.
  destruct (existsb _ tags'); simpl; by rewrite IH.
Qed.

Lemma calculateTagMatch_ignores_case_witness :
  feedService.calculateTagMatch ["React"; "rust"] ["REACT Native"; "Go"]
  = feedService.calculateTagMatch ["REACT"; "Rust"] ["react native"; "GO"].
Proof.
  apply calculateTagMatch_ignores_case; repeat constructor.
Defined.

Example calculateTagMatch_half :
  (feedService.calculateTagMatch ["React"; "rust"] ["REACT Native"; "Go"] == 1 # 2)%Q.
Proof. reflexivity. Qed.

(** ** The shape of role profiles *)

Section RoleShape.
Local Open Scope Q_scope.
Import roleService.

Lemma group_add_keys (k : string) (v : Q) (acc : list (string * Q)) :
  map fst (group_add k v acc)
  = if existsb (String.eqb k) (map fst acc) then map fst acc else map fst acc ++ [k].
Proof.
  induction acc as [|[k' v'] acc IH]; simpl; [done|].
  destruct (String.eqb k k') eqn:Hk; simpl; [done|].
  rewrite IH. by destruct (existsb _ _).
Qed.

Lemma group_NoDup (rows : list (string * Q)) : List.NoDup (map fst (group rows)).
Proof.
  unfold group.
  assert (forall acc, List.NoDup (map fst acc) ->
            List.NoDup (map fst (foldl (fun acc kv => group_add kv.1 kv.2 acc) acc rows)))
    as H; [|apply H; constructor].
  induction rows as [|[k v] rows IH]; intros acc Hacc; simpl; [done|].
  apply IH. rewrite group_add_keys.
  destruct (existsb _ _) eqn:Hex; [done|].
  apply NoDup_ListNoDup, NoDup_app. apply NoDup_ListNoDup in Hacc.
  split; [done|]. split; [|apply NoDup_singleton].
  intros x Hx Hk. apply list_elem_of_singleton in Hk as ->.
  assert (existsb (String.eqb k) (map fst acc) = true); [|congruence].
  apply existsb_exists. exists k. split; [by apply list_elem_of_In|].
  apply String.eqb_refl.
Qed.

Lemma heavier_asym (x y : RoleWeight) : heavier y x = true -> heavier x y = false.
Proof.
  unfold heavier. rewrite negb_true_iff, negb_false_iff. intros H.
  apply Qle_bool_iff. apply Qlt_le_weak, Qnot_le_lt. intros Hle.
  apply Qle_bool_iff in Hle. congruence.
Qed.

Lemma heavier_trans (a b c : RoleWeight) :
  heavier b a = false -> heavier c b = false -> heavier c a = false.
Proof.
  unfold heavier. rewrite !negb_false_iff, !Qle_bool_iff. lra.
Qed.

Lemma sort_heavier_descending (l : list RoleWeight) :
  descending (JS.sort heavier l).
Proof.
  apply (StronglySorted_weaken (in_order heavier)).
  - unfold in_order, heavier. intros a b H.
    by apply negb_false_iff, Qle_bool_iff in H.
  - apply sort_sorted; [apply heavier_asym | apply heavier_trans].
Qed.

Lemma NoDup_map_filter {A B} (f : A -> B) (p : A -> bool) (l : list A) :
  List.NoDup (map f l) -> List.NoDup (map f (List.filter p l)).
Proof.
  induction l as [|x l IH]; simpl; [done|].
  intros H. apply List.NoDup_cons_iff in H as [Hx Hl].
  destruct (p x); simpl; [|auto].
  constructor; [|auto]. intros Hin. apply Hx.
  apply in_map_iff in Hin as (y & Hy & Hin). apply filter_In in Hin as [Hin _].
  apply in_map_iff. eauto.
Qed.

(** X9.  Whatever the engagements and articles, [computeUserRoles]
    returns a profile in descending order of weight, with at most one
    entry per role, only roles of [VALID_ROLES], and so at most seven
    entries. *)
Theorem computeUserRoles_shape (engagements : list Engagement.t)
    (articles : list Article.t) (now : Z) (userId : string) (days : Z) :
  let roles := computeUserRoles engagements articles now userId days in
  descending roles
  /\ List.NoDup (map role roles)
  /\ Forall (fun r => In (role r) VALID_ROLES) roles
  /\ (length roles <= 7)%nat.
Proof.
  intros roles.
  assert (descending roles /\ List.NoDup (map role roles)
          /\ Forall (fun r => In (role r) VALID_ROLES) roles) as (Hd & Hnd & Hv).
  { subst roles. unfold computeUserRoles, normalize_groups.
    set (groups := group _).
    destruct (length groups =? 0)%nat; [repeat split; constructor|].
    destruct (Qeq_bool _ 0); [repeat split; constructor|].
    set (total := foldl _ _ groups).
    split; [apply sort_heavier_descending|]. split.
    - eapply Permutation_NoDup.
      + apply Permutation_map. symmetry. apply sort_perm.
      + apply NoDup_map_filter. rewrite map_map. simpl.
        apply NoDup_map_filter. apply group_NoDup.
    - apply sort_Forall, Forall_forall. intros r Hr.
      apply list_elem_of_In, filter_In in Hr as [Hr _].
      apply in_map_iff in Hr as ([k v] & <- & Hk).
      apply filter_In in Hk as [_ Hk]. simpl in *.
      unfold is_valid_role in Hk. apply existsb_exists in Hk as (x & Hx & Heq).
      apply String.eqb_eq in Heq. by subst. }
  repeat split; try done.
  change 7%nat with (length VALID_ROLES).
  rewrite <- (length_map role roles).
  apply List.NoDup_incl_length; [done|].
  intros x Hx. apply in_map_iff in Hx as (r & <- & Hr).
  rewrite Forall_forall in Hv. by apply Hv, list_elem_of_In.
Qed.

Lemma normalized_roles (total : Q) (l : list DynamicRole) :
  map role (normalized total l) = map role l.
Proof. unfold normalized. rewrite map_map. done. Qed.

Lemma smooth_entry_roles (m : gmap string Q) (l : list DynamicRole) :
  map role (map (smooth_entry m) l) = map role l.
Proof. rewrite map_map. done. Qed.

Lemma has_role_In (smoothed : list DynamicRole) (r : string) :
  has_role smoothed r = true <-> In r (map role smoothed).
Proof.
  unfold has_role. rewrite existsb_exists. split.
  - intros (s & Hs & Heq). apply String.eqb_eq in Heq. subst.
    apply in_map_iff. eauto.
  - intros H. apply in_map_iff in H as (s & <- & Hs).
    exists s. split; [done | apply String.eqb_refl].
Qed.

Lemma keep_previous_roles (smoothed previous : list DynamicRole) :
  incl (map role smoothed) (map role (foldl keep_previous smoothed previous))
  /\ incl (map role (foldl keep_previous smoothed previous))
          (map role smoothed ++ map role previous)
  /\ (List.NoDup (map role smoothed) ->
      List.NoDup (map role (foldl keep_previous smoothed previous))).
Proof.
  revert smoothed. induction previous as [|prev previous IH]; intros smoothed; simpl.
  - rewrite app_nil_r. repeat split; try done; apply incl_refl.
  - destruct (IH (keep_previous smoothed prev)) as (H1 & H2 & H3).
    unfold keep_previous in *.
    destruct (has_role smoothed (role prev)) eqn:Hhas.
    + repeat split; [done | | done].
      intros x Hx. apply H2, in_app_iff in Hx as [Hx|Hx];
        apply in_app_iff; [by left | right; by right].
    + destruct (JS.geq _ _).
      * rewrite map_app in *. simpl in *. repeat split.
        -- intros x Hx. apply H1, in_app_iff. by left.
        -- intros x Hx. apply H2 in Hx. rewrite !in_app_iff in Hx.
           rewrite in_app_iff. simpl in *. tauto.
        -- intros Hnd. apply H3. apply NoDup_ListNoDup, NoDup_app.
           apply NoDup_ListNoDup in Hnd. split; [done|].
           split; [|apply NoDup_singleton].
           intros x Hx Hk. apply list_elem_of_singleton in Hk as ->.
           apply list_elem_of_In, has_role_In in Hx. congruence.
      * repeat split; [done | | done].
        intros x Hx. apply H2, in_app_iff in Hx as [Hx|Hx];
          apply in_app_iff; [by left | right; by right].
Qed.

Lemma sort_roles_incl before (l : list RoleWeight) :
  incl (map role l) (map role (JS.sort before l))
  /\ incl (map role (JS.sort before l)) (map role l).
Proof.
  split; intros x Hx; apply in_map_iff in Hx as (r & <- & Hr);
    apply in_map_iff; exists r; (split; [done|]); by apply (sort_In before r l).
Qed.

(** X10.  For a previous profile without negative weights and a
    computed profile with weights of at least 0.05, which is what
    [computeUserRoles] returns, the weights are divided by a total that
    is positive whenever there is a weight to divide.  The profile
    [smoothRoles] returns keeps the descending order of weight, contains
    every computed role, contains no role that is neither computed nor
    previous, and has at most one entry per role when the computed
    profile has. *)
Theorem smoothRoles_shape (previous computed : list DynamicRole) :
  Forall (fun r => 0 <= weight r) previous ->
  Forall (fun r => 5 # 100 <= weight r) computed ->
  (previous <> [] -> computed <> [] ->
   0 < sum_weights (smoothed_union previous computed))
  /\ (descending computed -> descending (smoothRoles previous computed))
  /\ incl (map role computed) (map role (smoothRoles previous computed))
  /\ incl (map role (smoothRoles previous computed))
          (map role computed ++ map role previous)
  /\ (List.NoDup (map role computed) ->
      List.NoDup (map role (smoothRoles previous computed))).
Proof.
  intros Hprev Hcomp. split.
  { intros _ Hc.
    destruct (smoothed_union_pos previous computed Hc Hprev Hcomp) as [Hne Hpos].
    by apply sum_weights_pos. }
  destruct previous as [|p0 previous'] eqn:Hp.
  - change (smoothRoles [] computed) with computed. rewrite app_nil_r.
    repeat split; try done; apply incl_refl.
  - rewrite <- Hp. assert (previous <> []) as Hne by (by rewrite Hp).
    clear Hp Hprev p0 previous'.
    rewrite smoothRoles_unfold by done. unfold smoothed_union.
    set (S0 := map (smooth_entry (Map_of previous)) computed).
    destruct (keep_previous_roles S0 previous) as (H1 & H2 & H3).
    set (S := foldl keep_previous S0 previous) in *.
    destruct (sort_roles_incl heavier (normalized (sum_weights S) S)) as [Hs1 Hs2].
    rewrite normalized_roles in Hs1, Hs2.
    subst S0. rewrite smooth_entry_roles in *.
    repeat split.
    + intros _. apply sort_heavier_descending.
    + intros x Hx. by apply Hs1, H1.
    + intros x Hx. by apply H2, Hs2.
    + intros Hnd. eapply Permutation_NoDup.
      * apply Permutation_map. symmetry. apply sort_perm.
      * rewrite normalized_roles. by apply H3.
Qed.

Lemma smoothRoles_shape_witness :
  0 < sum_weights (smoothed_union backend_only mostly_backend)
  /\ List.NoDup (map role (smoothRoles backend_only mostly_backend)).
Proof.
  assert (Forall (fun r => 0 <= weight r) backend_only) as Hprev
    by (repeat constructor; simpl; discriminate).
  assert (Forall (fun r => 5 # 100 <= weight r) mostly_backend) as Hcomp
    by (repeat constructor; simpl; discriminate).
  split.
  - apply (proj1 (smoothRoles_shape backend_only mostly_backend Hprev Hcomp));
      discriminate.
  - apply (proj2 (proj2 (proj2 (proj2
      (smoothRoles_shape backend_only mostly_backend Hprev Hcomp))))).
    simpl. repeat (constructor; [simpl; intuition discriminate|]). constructor.
Defined.
End RoleShape.

(** ** Updating the role profile of a user *)

Lemma updateUserRoles_skip_user (now : Z) (u : string) (w : World) :
  find_user u (users w) = None ->
  roleService.updateUserRoles now u w = (Ok None, w).
Proof.
  intros Hfind. unfold roleService.updateUserRoles, bind, Mongo.findUserById,
    get_world, ret. simpl. unfold find_user in Hfind. by rewrite Hfind.
Qed.

Lemma updateUserRoles_skip_data (now : Z) (u : string) (w : World) (user : User.t) :
  find_user u (users w) = Some user ->
  roleService.computeUserRoles (engagements w) (articles w) now u 30 = [] ->
  roleService.updateUserRoles now u w = (Ok None, w).
Proof.
  intros Hfind Hnone. unfold roleService.updateUserRoles, bind, Mongo.findUserById,
    get_world, ret. simpl. unfold find_user in Hfind. rewrite Hfind, Hnone. done.
Qed.

Lemma updateUserRoles_run (now : Z) (u : string) (w : World) (user : User.t) :
  find_user u (users w) = Some user ->
  roleService.computeUserRoles (engagements w) (articles w) now u 30 <> [] ->
  let previous := default [] (User.dynamicRoles user) in
  let computed := roleService.computeUserRoles (engagements w) (articles w) now u 30 in
  let new := roleService.smoothRoles previous computed in
  roleService.updateUserRoles now u w
  = bind (cache.del ("feed:user:" +:+ u))
      (fun _ => ret (Some (roleService.mkUpdate u previous new (length computed))))
      (with_users
         (Mongo.update_one (fun x => String.eqb (User._id x) u)
            (roleService.set_roles new now) (users w)) w).
Proof.
  intros Hfind Hsome previous computed new.
  unfold roleService.updateUserRoles at 1.
  unfold bind at 1. unfold Mongo.findUserById, bind, get_world, ret. simpl.
  unfold find_user in Hfind. rewrite Hfind.
  fold computed. destruct computed eqn:Hc; [done|]. simpl. reflexivity.
Qed.

Lemma del_step (key : string) (w : World) :
  match faults w with
  | true :: fs => cache.del key w = (Throw, with_faults fs w)
  | false :: fs =>
      exists r, cache.del key w = (Ok tt, with_redis r (with_faults fs w))
  | [] => exists r, cache.del key w = (Ok tt, with_redis r w)
  end.
Proof.
  unfold cache.del, bind, client, ret.
  destruct (faults w) as [|[] fs]; simpl; eauto.
Qed.

Lemma del_outcome (key : string) (w : World) :
  (exists w', cache.del key w = (Ok tt, w') /\ users w' = users w
              /\ articles w' = articles w /\ engagements w' = engagements w)
  \/ (exists w', cache.del key w = (Throw, w') /\ users w' = users w
                 /\ articles w' = articles w /\ engagements w' = engagements w).
Proof.
  unfold cache.del, bind, client, ret.
  destruct (faults w) as [|[] fs]; simpl; [left | right | left]; by eexists.
Qed.

Lemma getRoleProfile_roles (now : Z) (u : string) (w : World) :
  exists p, roleService.getRoleProfile now u w = (Ok p, w)
            /\ roleService.profile_roles p = default [] (stored_roles u w).
Proof.
  eexists. split.
  - cbv [roleService.getRoleProfile bind Mongo.findUserById get_world ret
           roleService.estimateSkillLevel]. reflexivity.
  - reflexivity.
Qed.

(** X11.  With engagement rows that store their ids as strings, as
    every row written through the model does, [updateUserRoles] finds
    no engagement: it returns [null] and changes nothing.  It returns
    [null] only when it has changed nothing.  When it returns an update,
    the new roles are the smoothing of the stored profile with the
    computed one, they are the profile stored from then on, and
    [getRoleProfile] reads them back.  When the cache command throws,
    the call throws with the new profile already stored. *)
Theorem updateUserRoles_outcome (now now' : Z) (u : string) (w : World) :
  let run := roleService.updateUserRoles now u w in
  let computed := roleService.computeUserRoles (engagements w) (articles w) now u 30 in
  (Forall (fun e => stored_as_strings e = true) (engagements w) -> run = (Ok None, w))
  /\ (run.1 = Ok None -> run.2 = w)
  /\ (forall upd, run.1 = Ok (Some upd) ->
        roleService.previousRoles upd = default [] (stored_roles u w)
        /\ roleService.newRoles upd
           = roleService.smoothRoles (roleService.previousRoles upd) computed
        /\ stored_roles u run.2 = Some (roleService.newRoles upd)
        /\ exists p, (roleService.getRoleProfile now' u run.2).1 = Ok p
                     /\ roleService.profile_roles p = roleService.newRoles upd)
  /\ (run.1 = Throw ->
        stored_roles u run.2
        = Some (roleService.smoothRoles (default [] (stored_roles u w)) computed)).
Proof.
  intros run computed. subst run.
  destruct (find_user u (users w)) as [user|] eqn:Hfind.
  2:{ rewrite updateUserRoles_skip_user by done. simpl. repeat split; discriminate. }
  destruct computed as [|c0 cs] eqn:Hc.
  { rewrite (updateUserRoles_skip_data now u w user) by done. simpl.
    repeat split; discriminate. }
  assert (roleService.computeUserRoles (engagements w) (articles w) now u 30 <> [])
    as Hne by (fold computed; by rewrite Hc).
  split.
  { intros Hstr. destruct Hne. by apply computeUserRoles_strings. }
  rewrite (updateUserRoles_run now u w user Hfind Hne). fold computed.
  rewrite <- Hc.
  set (new := roleService.smoothRoles (default [] (User.dynamicRoles user)) computed).
  set (w1 := with_users _ w).
  assert (stored_roles u w = User.dynamicRoles user) as Hstored
    by (unfold stored_roles; by rewrite Hfind).
  assert (forall w', users w' = users w1 -> stored_roles u w' = Some new) as Hnew.
  { intros w' Hw'. unfold stored_roles, find_user. rewrite Hw'. subst w1. simpl.
    rewrite update_one_find by done. fold (find_user u (users w)).
    by rewrite Hfind. }
  unfold bind.
  destruct (del_outcome ("feed:user:" +:+ u) w1) as [(w' & -> & Hu & _)|(w' & -> & Hu & _)];
    cbn [fst snd ret].
  - split; [discriminate|]. split; [|discriminate].
    intros upd [= <-]. cbn [roleService.previousRoles roleService.newRoles].
    rewrite Hstored. repeat split; [by apply Hnew|].
    destruct (getRoleProfile_roles now' u w') as (p & Hp & Hroles).
    exists p. rewrite Hp. split; [done|]. by rewrite Hroles, (Hnew w' Hu).
  - split; [discriminate|]. split; [discriminate|].
    intros _. rewrite Hstored. by apply Hnew.
Qed.

Lemma updateUserRoles_outcome_witness :
  (let viewed := (engagementService.viewArticle 1000 alice post fresh_world).2 in
   roleService.updateUserRoles 2000 alice viewed = (Ok None, viewed))
  /\ stored_roles alice
       (roleService.updateUserRoles 2000 alice (with_faults [true] seeded_world)).2
     = Some [mkRole "FRONTEND" (70 # 100); mkRole "BACKEND" (30 # 100)].
Proof.
  split.
  - apply (proj1 (updateUserRoles_outcome 2000 2000 alice
                    (engagementService.viewArticle 1000 alice post fresh_world).2)).
    repeat constructor.
  - refine (eq_trans (proj2 (proj2 (proj2
      (updateUserRoles_outcome 2000 2000 alice (with_faults [true] seeded_world)))) _) _).
    + reflexivity.
    + vm_compute. reflexivity.
Defined.

(** ** The weekly batch *)

Lemma known_user_find (u : string) (l : list User.t) :
  known_user u l = match find_user u l with Some _ => true | None => false end.
Proof.
  unfold known_user, find_user. induction l as [|x l IH]; simpl; [done|].
  by destruct (String.eqb (User._id x) u).
Qed.

Lemma known_user_update (u v : string) (f : User.t -> User.t) (l : list User.t) :
  (forall x, User._id (f x) = User._id x) ->
  known_user v (Mongo.update_one (fun x => String.eqb (User._id x) u) f l)
  = known_user v l.
Proof.
  intros Hf. unfold known_user, Mongo.update_one.
  assert (forall l',
            Mongo.update_first (fun x => String.eqb (User._id x) u) f l = Some l' ->
            existsb (fun x => String.eqb (User._id x) v) l'
            = existsb (fun x => String.eqb (User._id x) v) l) as H.
  { induction l as [|x l IH]; simpl; intros l' Hl'; [done|].
    destruct (String.eqb (User._id x) u).
    - injection Hl' as <-. simpl. by rewrite Hf.
    - destruct (Mongo.update_first _ f l) as [l0|]; [|done].
      injection Hl' as <-. simpl. by rewrite (IH l0). }
  destruct (Mongo.update_first _ f l) as [l'|]; simpl; [by apply H | done].
Qed.

(** One round of the loop: a user without an update is skipped and
    nothing changes; for a user with an update the profile is stored,
    and the one cache command that follows takes the next outcome of
    Redis. *)
Lemma updateUserRoles_round (now : Z) (u : string) (w : World) :
  exists res w',
    roleService.updateUserRoles now u w = (res, w')
    /\ articles w' = articles w /\ engagements w' = engagements w
    /\ (forall v, known_user v (users w') = known_user v (users w))
    /\ (if has_update now w u
        then match faults w with
             | true :: fs => res = Throw /\ faults w' = fs
             | false :: fs => (exists upd, res = Ok (Some upd)) /\ faults w' = fs
             | [] => (exists upd, res = Ok (Some upd)) /\ faults w' = []
             end
        else res = Ok None /\ w' = w).
Proof.
  unfold has_update. rewrite known_user_find.
  destruct (find_user u (users w)) as [user|] eqn:Hfind.
  2:{ rewrite updateUserRoles_skip_user by done. simpl. by eexists _, _. }
  destruct (roleService.computeUserRoles (engagements w) (articles w) now u 30)
    as [|c0 cs] eqn:Hc.
  { rewrite (updateUserRoles_skip_data now u w user) by done. simpl.
    by eexists _, _. }
  assert (roleService.computeUserRoles (engagements w) (articles w) now u 30 <> [])
    as Hne by (by rewrite Hc).
  rewrite (updateUserRoles_run now u w user Hfind Hne). rewrite Hc.
  set (w1 := with_users _ w). cbn [length Nat.eqb negb andb].
  pose proof (del_step ("feed:user:" +:+ u) w1) as Hdel.
  assert (forall v, known_user v (users w1) = known_user v (users w)) as Hknown.
  { intros v. subst w1. simpl. by apply known_user_update. }
  change (faults w1) with (faults w) in Hdel.
  unfold bind.
  destruct (faults w) as [|[] fs] eqn:Hf.
  - destruct Hdel as [r ->]. eexists _, _. split; [reflexivity|].
    repeat split; try done. by eexists.
  - rewrite Hdel. eexists _, _. split; [reflexivity|]. by repeat split.
  - destruct Hdel as [r ->]. eexists _, _. split; [reflexivity|].
    repeat split; try done. by eexists.
Qed.

Lemma has_update_same (now : Z) (w w1 : World) (u : string) :
  articles w1 = articles w -> engagements w1 = engagements w ->
  (forall v, known_user v (users w1) = known_user v (users w)) ->
  has_update now w1 u = has_update now w u.
Proof. intros Ha He Hk. unfold has_update. by rewrite Ha, He, Hk. Qed.

Lemma filter_none {A} (p : A -> bool) (l : list A) :
  (forall x, p x = false) -> List.filter p l = [].
Proof. intros H. induction l as [|x l IH]; simpl; [done|]. by rewrite H. Qed.

Lemma thrown_nil (n : nat) : thrown n [] = 0%nat.
Proof. unfold thrown. by rewrite take_nil. Qed.

Lemma updateEach_exact (now : Z) (w : World) (ids : list Bson.Id) :
  forall (updated errs : nat) (w1 : World),
  articles w1 = articles w -> engagements w1 = engagements w ->
  (forall v, known_user v (users w1) = known_user v (users w)) ->
  let due := length (List.filter (has_update now w) (map Bson.toString ids)) in
  exists updated' w',
    roleService.updateEach now ids updated errs w1
    = (Ok (updated', (errs + thrown due (faults w1))%nat), w')
    /\ (updated' + thrown due (faults w1) = updated + due)%nat
    /\ articles w' = articles w /\ engagements w' = engagements w
    /\ faults w' = drop due (faults w1)
    /\ (due = 0%nat -> w' = w1).
Proof.
  induction ids as [|id ids IH]; intros updated errs w1 Ha He Hk; simpl.
  - exists updated, w1. unfold ret, thrown. simpl. rewrite drop_0, !Nat.add_0_r.
    by repeat split.
  - destruct (updateUserRoles_round now (Bson.toString id) w1)
      as (res & w2 & Hrun & Ha2 & He2 & Hk2 & Hres).
    rewrite (has_update_same now w w1) in Hres by done.
    assert (articles w2 = articles w) as Ha' by congruence.
    assert (engagements w2 = engagements w) as He' by congruence.
    assert (forall v, known_user v (users w2) = known_user v (users w)) as Hk'
      by (intros v; by rewrite Hk2).
    unfold bind, try_catch. rewrite Hrun.
    destruct (has_update now w (Bson.toString id)); simpl.
    + destruct (faults w1) as [|[] fs] eqn:Hf.
      * destruct Hres as [[upd ->] Hf2].
        destruct (IH (S updated) errs w2 Ha' He' Hk') as (u' & w' & -> & Hsum & ? & ? & Hd & _).
        rewrite Hf2 in *. rewrite thrown_nil in *. rewrite drop_nil in *.
        exists u', w'. rewrite thrown_nil. repeat split; try done; lia.
      * destruct Hres as [-> Hf2].
        destruct (IH updated (S errs) w2 Ha' He' Hk') as (u' & w' & -> & Hsum & ? & ? & Hd & _).
        rewrite Hf2 in *. exists u', w'.
        unfold thrown in *. simpl.
        repeat split; try done; try lia. do 2 f_equal. f_equal. lia.
      * destruct Hres as [[upd ->] Hf2].
        destruct (IH (S updated) errs w2 Ha' He' Hk') as (u' & w' & -> & Hsum & ? & ? & Hd & _).
        rewrite Hf2 in *. exists u', w'.
        unfold thrown in *. simpl.
        repeat split; try done; lia.
    + destruct Hres as [-> ->].
      destruct (IH updated errs w1 Ha He Hk) as (u' & w' & -> & Hsum & ? & ? & Hd & Hz).
      exists u', w'. by repeat split.
Qed.

(** X12.  The batch never throws, whatever Redis does.  It reports as
    processed the distinct stored user ids with an engagement in the
    window.  A user is due when the document exists and the aggregation
    finds a role; every due user costs one Redis command, a due user
    whose command throws is counted in [errors] and the loop goes on
    with the next user, every other due user is counted in
    [usersUpdated].  No article and no engagement is changed.  With
    rows that store their ids as strings, as every row written through
    the model does, no user is due: the batch reports no update and no
    error, and changes nothing. *)
Theorem updateAllUserRoles_never_throws (now days : Z) (w : World) :
  let ids :=
    map Bson.toString
      (roleService.distinctUserIds (engagements w)
         (now - days * roleService.ms_per_day)) in
  let due := length (List.filter (has_update now w) ids) in
  exists batch w',
    roleService.updateAllUserRoles now days w = (Ok batch, w')
    /\ roleService.usersProcessed batch = length ids
    /\ roleService.errors batch = thrown due (faults w)
    /\ (roleService.usersUpdated batch + roleService.errors batch = due)%nat
    /\ articles w' = articles w /\ engagements w' = engagements w
    /\ faults w' = drop due (faults w)
    /\ (Forall (fun e => stored_as_strings e = true) (engagements w) ->
        due = 0%nat /\ w' = w).
Proof.
  intros ids due.
  unfold roleService.updateAllUserRoles, bind, get_world, ret.
  destruct (updateEach_exact now w
              (roleService.distinctUserIds (engagements w)
                 (now - days * roleService.ms_per_day)) 0 0 w eq_refl eq_refl
              (fun _ => eq_refl))
    as (u' & w' & -> & Hsum & Ha & He & Hd & Hz).
  fold ids in Hsum, Hd, Hz |- *. fold due in Hsum, Hd, Hz |- *.
  eexists. eexists. split; [reflexivity|]. simpl.
  split; [subst ids; by rewrite length_map|].
  split; [done|]. split; [lia|]. split; [done|]. split; [done|]. split; [done|].
  intros Hstr.
  assert (due = 0%nat) as Hdue.
  { subst due. rewrite filter_none; [done|]. intros u. unfold has_update.
    rewrite computeUserRoles_strings by done. simpl. apply andb_false_r. }
  split; [done | by apply Hz].
Qed.

Lemma updateAllUserRoles_never_throws_witness :
  (exists batch w',
     roleService.updateAllUserRoles 2000 30 (with_faults [true] seeded_world)
     = (Ok batch, w')
     /\ roleService.errors batch = 1%nat /\ roleService.usersUpdated batch = 0%nat)
  /\ (let viewed := (engagementService.viewArticle 1000 alice post fresh_world).2 in
      exists batch,
        roleService.updateAllUserRoles 2000 30 viewed = (Ok batch, viewed)
        /\ roleService.usersUpdated batch = 0%nat).
Proof.
  split.
  - destruct (updateAllUserRoles_never_throws 2000 30 (with_faults [true] seeded_world))
      as (batch & w' & Hrun & _ & Herr & Hsum & _).
    exists batch, w'. split; [exact Hrun|].
    assert (roleService.errors batch = 1%nat) as He by (rewrite Herr; reflexivity).
    split; [exact He|].
    assert (length (List.filter (has_update 2000 (with_faults [true] seeded_world))
              (map Bson.toString
                 (roleService.distinctUserIds
                    (engagements (with_faults [true] seeded_world))
                    (2000 - 30 * roleService.ms_per_day)))) = 1%nat) as Hdue
      by reflexivity.
    rewrite Hdue, He in Hsum. lia.
  - destruct (updateAllUserRoles_never_throws 2000 30
                (engagementService.viewArticle 1000 alice post fresh_world).2)
      as (batch & w' & Hrun & _ & _ & Hsum & _ & _ & _ & Hstr).
    destruct Hstr as [Hdue ->]; [repeat constructor|].
    exists batch. split; [exact Hrun|]. rewrite Hdue in Hsum. lia.
Defined.

(** ** The skill estimate *)

Section SkillEstimate.
Import roleService.

Lemma count_groups_uniform (level : string) (rows : list string) (n : Z) :
  Forall (eq level) rows ->
  foldl (fun acc k => count_add k acc) [(level, n)] rows
  = [(level, n + Z.of_nat (length rows))].
Proof.
  intros H. revert n. induction H as [|k rows <- _ IH]; intros n; simpl.
  - do 2 f_equal. lia.
  - rewrite String.eqb_refl, IH. do 2 f_equal. lia.
Qed.

Lemma estimate_from_single (level : string) (n : Z) :
  0 < n ->
  estimate_from [(level, n)]
  = if skill_weight level =? 1 then "BEGINNER"
    else if skill_weight level =? 3 then "ADVANCED" else "INTERMEDIATE".
Proof.
  intros Hn. unfold estimate_from. cbn [length Nat.eqb foldl fst snd].
  rewrite !Z.add_0_l.
  set (avg := (inject_Z (skill_weight level * n) / inject_Z n)%Q).
  assert (avg == inject_Z (skill_weight level))%Q as Havg.
  { subst avg. rewrite inject_Z_mult. field. intros H0.
    unfold Qeq in H0. simpl in H0. lia. }
  assert (skill_weight level = 1 \/ skill_weight level = 2 \/ skill_weight level = 3)
    as Hw.
  { unfold skill_weight. repeat destruct (String.eqb _ _); auto. }
  change (JS.geq avg (25 # 10)) with (JS.leq (25 # 10) avg).
  destruct (JS.leq avg (15 # 10)) eqn:H15;
    [apply leq_true in H15 | apply leq_false in H15];
    (destruct (JS.leq (25 # 10) avg) eqn:H25;
      [apply leq_true in H25 | apply leq_false in H25]);
    rewrite Havg in H15, H25;
    destruct Hw as [Hw | [Hw | Hw]]; rewrite Hw in *; try reflexivity;
    vm_compute in H15, H25;
    try discriminate H15; try discriminate H25;
    try (by destruct H15); try (by destruct H25).
Qed.

(** X13.  With engagement rows that store their ids as strings, as
    every row written through the model does, the aggregation finds
    nothing and the estimate is INTERMEDIATE, whatever the user read.
    Without a row that the aggregation matches and joins, in the last
    thirty days, the estimate is INTERMEDIATE; when all such rows are
    joined with articles of one level, BEGINNER, INTERMEDIATE or
    ADVANCED, the estimate is that level. *)
Theorem estimateSkillLevel_uniform (now : Z) (u : string) (w : World) :
  let rows := skill_rows (engagements w) (articles w) u (now - 30 * ms_per_day) in
  (Forall (fun e => stored_as_strings e = true) (engagements w) ->
   estimateSkillLevel now u w = (Ok "INTERMEDIATE", w))
  /\ (rows = [] -> estimateSkillLevel now u w = (Ok "INTERMEDIATE", w))
  /\ (forall level,
        In level ["BEGINNER"; "INTERMEDIATE"; "ADVANCED"] ->
        rows <> [] -> Forall (eq level) rows ->
        estimateSkillLevel now u w = (Ok level, w)).
Proof.
  intros rows. unfold estimateSkillLevel, bind, get_world, ret. fold rows.
  split; [|split].
  - intros Hstr. subst rows.
    by rewrite (proj2 (pipeline_rows_strings (engagements w) (articles w) u _ Hstr)).
  - intros ->. reflexivity.
  - intros level Hlevel Hne Hall. do 2 f_equal.
    destruct rows as [|k rows']; [done|].
    apply Forall_cons in Hall as [<- Hall].
    unfold count_groups. simpl. rewrite count_groups_uniform by done.
    rewrite estimate_from_single by lia.
    simpl in Hlevel. destruct Hlevel as [<-|[<-|[<-|[]]]]; reflexivity.
Qed.

Lemma estimateSkillLevel_uniform_witness :
  estimateSkillLevel 2000 alice seeded_world = (Ok "BEGINNER", seeded_world)
  /\ (let viewed := (engagementService.viewArticle 1000 alice post fresh_world).2 in
      estimateSkillLevel 2000 alice viewed = (Ok "INTERMEDIATE", viewed)).
Proof.
  split.
  - apply (proj2 (proj2 (estimateSkillLevel_uniform 2000 alice seeded_world))
             "BEGINNER").
    + simpl. auto.
    + discriminate.
    + repeat constructor.
  - apply (proj1 (estimateSkillLevel_uniform 2000 alice
                    (engagementService.viewArticle 1000 alice post fresh_world).2)).
    repeat constructor.
Defined.
End SkillEstimate.

(** ** The order of ids *)

Lemma ascii_compare_refl (c : Ascii.ascii) : Ascii.compare c c = Eq.
Proof. unfold Ascii.compare. apply N.compare_refl. Qed.

Lemma ascii_compare_lt_trans (a b c : Ascii.ascii) :
  Ascii.compare a b = Lt -> Ascii.compare b c = Lt -> Ascii.compare a c = Lt.
Proof.
  unfold Ascii.compare. rewrite !N.compare_lt_iff. lia.
Qed.

Lemma string_compare_lt_trans (a b c : string) :
  String.compare a b = Lt -> String.compare b c = Lt -> String.compare a c = Lt.
Proof.
  revert b c. induction a as [|x a IH]; intros [|y b] [|z c]; simpl; try done.
  destruct (Ascii.compare x y) eqn:Hxy; try done;
    destruct (Ascii.compare y z) eqn:Hyz; try done; intros H1 H2.
  - apply Ascii.compare_eq_iff in Hxy, Hyz. subst.
    rewrite ascii_compare_refl. eauto.
  - apply Ascii.compare_eq_iff in Hxy. subst. by rewrite Hyz.
  - apply Ascii.compare_eq_iff in Hyz. subst. by rewrite Hxy.
  - by rewrite (ascii_compare_lt_trans x y z).
Qed.

Lemma string_compare_refl (a : string) : String.compare a a = Eq.
Proof.
  induction a as [|x a IH]; simpl; [done|]. by rewrite ascii_compare_refl.
Qed.

Lemma ltb_irrefl (a : string) : String.ltb a a = false.
Proof. unfold String.ltb. by rewrite string_compare_refl. Qed.

(** [b < c] and [c <= a] give [b < a]. *)
Lemma ltb_leb_trans (a b c : string) :
  String.ltb b c = true -> String.ltb a c = false -> String.ltb b a = true.
Proof.
  unfold String.ltb. intros Hbc Hac.
  destruct (String.compare b c) eqn:Hbc'; try done.
  rewrite String.compare_antisym in Hac.
  destruct (String.compare c a) eqn:Hca; simpl in Hac; try done.
  - apply String.compare_eq_iff in Hca. subst. by rewrite Hbc'.
  - by rewrite (string_compare_lt_trans b c a).
Qed.

Lemma ltb_asym (a b : string) : String.ltb a b = true -> String.ltb b a = false.
Proof.
  unfold String.ltb. rewrite (String.compare_antisym b a).
  by destruct (String.compare a b).
Qed.

(** [a >= b] and [b >= c] give [a >= c]. *)
Lemma ltb_false_trans (a b c : string) :
  String.ltb a b = false -> String.ltb b c = false -> String.ltb a c = false.
Proof.
  intros Hab Hbc. destruct (String.ltb a c) eqn:Hac; [|done].
  pose proof (ltb_leb_trans b a c Hac Hbc) as H. congruence.
Qed.

(** ** The article service *)

Lemma existsb_eqb_In (x : string) (l : list string) :
  existsb (String.eqb x) l = true -> In x l.
Proof.
  intros H. apply existsb_exists in H as (y & Hy & Heq).
  apply String.eqb_eq in Heq. by subst.
Qed.

Lemma articles_query_listed (filters : articleService.ArticleFilters) (a : Article.t) :
  articleService.articles_query filters a = true -> listed filters a.
Proof.
  unfold articleService.articles_query, listed.
  rewrite !andb_true_iff.
  intros [[[[[[Hq Hact] Hclick] Hroles] Htags] Hskill] Hcur].
  apply Qle_bool_iff in Hq. apply negb_true_iff in Hclick.
  repeat split; try done.
  - intros c Hc Hne. rewrite Hc in Hcur. simpl in Hcur.
    apply String.eqb_neq in Hne. by rewrite Hne in Hcur.
  - intros s Hs Hne. rewrite Hs in Hskill. simpl in Hskill.
    apply String.eqb_neq in Hne. rewrite Hne in Hskill. simpl in Hskill.
    by apply String.eqb_eq.
  - intros r rs Hr. rewrite Hr in Hroles. cbn [articleService.nonempty default] in Hroles.
    apply existsb_exists in Hroles as (t & Ht & Hin). exists t. split; [done|].
    by apply existsb_eqb_In.
  - intros t ts Ht. rewrite Ht in Htags. cbn [articleService.nonempty default] in Htags.
    apply existsb_exists in Htags as (x & Hx & Hin). exists x. split; [done|].
    by apply existsb_eqb_In.
Qed.

Lemma sort_later_id_descending (l : list Article.t) :
  ids_descending (JS.sort articleService.later_id l).
Proof.
  apply (StronglySorted_weaken (in_order articleService.later_id)); [done|].
  apply sort_sorted; unfold articleService.later_id.
  - intros x y. apply ltb_asym.
  - intros a b c. apply ltb_false_trans.
Qed.

Lemma getArticles_listed (filters : articleService.ArticleFilters) (w : World) :
  exists page,
    articleService.getArticles filters w = (Ok page, w)
    /\ page = Mongo.limit (default 20%nat (articleService.f_limit filters))
                (JS.sort articleService.later_id
                   (List.filter (articleService.articles_query filters) (articles w)))
    /\ ids_descending page
    /\ Forall (fun a => In a (articles w) /\ listed filters a) page.
Proof.
  eexists. split; [reflexivity|]. split; [reflexivity|]. split.
  - apply limit_sorted, sort_later_id_descending.
  - apply limit_Forall, sort_Forall, Forall_forall. intros a Ha.
    apply list_elem_of_In, filter_In in Ha as [Hin Hq].
    split; [done | by apply articles_query_listed].
Qed.

Lemma limit_or_20_pos (limit : option nat) : articleResolvers.limit_or_20 limit <> 0%nat.
Proof. by destruct limit as [[|n]|]. Qed.

(** X14.  [getArticles] reads without changing anything and returns,
    in descending order of id, articles of the collection that pass
    every filter that was given: minimal quality (7 when none is
    given), active, not clickbait, id below the cursor, skill level, one
    of the roles, one of the tags.  It returns at most [limit] of them
    (20 when no limit is given), and all of them when the limit is 0,
    which is no limit for a query. *)
Theorem getArticles_page (filters : articleService.ArticleFilters) (w : World) :
  let limit := default 20%nat (articleService.f_limit filters) in
  exists page,
    articleService.getArticles filters w = (Ok page, w)
    /\ (limit <> 0%nat -> (length page <= limit)%nat)
    /\ (limit = 0%nat ->
        forall a, In a (articles w) ->
                  articleService.articles_query filters a = true -> In a page)
    /\ ids_descending page
    /\ Forall (fun a => In a (articles w) /\ listed filters a) page.
Proof.
  intros limit.
  destruct (getArticles_listed filters w) as (page & Hrun & Hpage & Hsorted & Hall).
  fold limit in Hpage. exists page. repeat split; try done.
  - intros Hpos. rewrite Hpage. by apply limit_length.
  - intros Hzero a Hin Hq. rewrite Hpage, Hzero. simpl.
    apply (sort_In articleService.later_id a), filter_In. by split.
Qed.

Lemma getArticles_page_witness :
  exists page,
    articleService.getArticles
      (articleService.mkFilters None None None None (Some 0%nat) None)
      (with_articles three_articles role_world)
    = (Ok page, with_articles three_articles role_world)
    /\ In (target "a1" "FRONTEND") page
    /\ In (target "a2" "BACKEND") page
    /\ In (target "a3" "DEVOPS") page.
Proof.
  destruct (getArticles_page
              (articleService.mkFilters None None None None (Some 0%nat) None)
              (with_articles three_articles role_world))
    as (page & Hrun & _ & Hall & _).
  exists page. split; [exact Hrun|].
  repeat split; apply Hall; try reflexivity; simpl; auto.
Defined.

Lemma sorted_last {A} (R : A -> A -> Prop) (l : list A) (z : A) :
  StronglySorted R l -> last l = Some z -> forall a, In a l -> a = z \/ R a z.
Proof.
  induction 1 as [|x l Hl IH Hx]; [done|].
  intros Hlast a [<-|Ha].
  - destruct l as [|y l']; [left; by injection Hlast|].
    right. rewrite Forall_forall in Hx. apply Hx.
    apply list_elem_of_In. change (last (x :: y :: l')) with (last (y :: l')) in Hlast.
    apply last_Some in Hlast as [l'' ->]. apply in_app_iff. right. by left.
  - destruct l as [|y l']; [done|]. by apply IH.
Qed.

(** X15.  The query [articles] throws without a user and does nothing
    else then.  With a user, [hasMore] says that the page is full (a
    limit of 0 counts as 20), and when a cursor that is not empty is
    returned, every article of the page requested with it has an id
    strictly below the id of every article of this page: the two pages
    share no article. *)
Theorem articles_pagination (u : string) (args : articleResolvers.ArticlesArgs)
    (w : World) :
  articleResolvers.articles None args w = (Throw, w)
  /\ exists conn,
       articleResolvers.articles (Some u) args w = (Ok conn, w)
       /\ (length (articleResolvers.conn_articles conn)
           <= articleResolvers.limit_or_20 (articleResolvers.a_limit args))%nat
       /\ (articleResolvers.hasMore conn = true
           <-> length (articleResolvers.conn_articles conn)
               = articleResolvers.limit_or_20 (articleResolvers.a_limit args))
       /\ (articleResolvers.hasMore conn = false -> articleResolvers.nextCursor conn = None)
       /\ forall c,
            articleResolvers.nextCursor conn = Some c -> c <> "" ->
            exists conn2,
              articleResolvers.articles (Some u) (next_args c args) w = (Ok conn2, w)
              /\ forall a b,
                   In a (articleResolvers.conn_articles conn) ->
                   In b (articleResolvers.conn_articles conn2) ->
                   String.ltb (Article._id b) (Article._id a) = true.
Proof.
  split; [reflexivity|].
  eexists. split; [reflexivity|]. cbn [articleResolvers.conn_articles
    articleResolvers.hasMore articleResolvers.nextCursor].
  set (filters := articleService.mkFilters _ _ _ _ _ (articleResolvers.a_cursor args)).
  destruct (getArticles_listed filters w) as (page & Hrun & Hpage & Hsorted & Hall).
  injection Hrun as <-.
  set (page := Mongo.limit _ _) in *.
  repeat split.
  - subst page. apply limit_length, limit_or_20_pos.
  - apply Nat.eqb_eq.
  - apply Nat.eqb_eq.
  - intros ->. reflexivity.
  - intros c Hc Hne.
    eexists. split; [reflexivity|]. cbn [articleResolvers.conn_articles].
    set (filters2 := articleService.mkFilters _ _ _ _ _ _).
    destruct (getArticles_listed filters2 w) as (page2 & Hrun2 & _ & _ & Hall2).
    injection Hrun2 as <-.
    intros a b Ha Hb.
    destruct (_ && _); [|done].
    destruct (last page) as [z|] eqn:Hlast; [|done]. injection Hc as <-.
    rewrite Forall_forall in Hall2. apply list_elem_of_In in Hb.
    destruct (Hall2 b Hb) as (_ & _ & _ & _ & Hcur & _).
    specialize (Hcur (Article._id z) eq_refl Hne).
    apply (ltb_leb_trans _ _ (Article._id z)); [exact Hcur|].
    destruct (sorted_last _ page z Hsorted Hlast a Ha) as [->|H]; [apply ltb_irrefl | exact H].
Qed.

Lemma articles_pagination_witness :
  exists conn,
    articleResolvers.articles (Some "u1")
      (articleResolvers.mkArgs (Some 1%nat) None None None None None)
      (with_articles three_articles role_world)
    = (Ok conn, with_articles three_articles role_world)
    /\ articleResolvers.nextCursor conn = Some "a3"
    /\ exists conn2,
         articleResolvers.articles (Some "u1")
           (next_args "a3" (articleResolvers.mkArgs (Some 1%nat) None None None None None))
           (with_articles three_articles role_world)
         = (Ok conn2, with_articles three_articles role_world)
         /\ forall a b,
              In a (articleResolvers.conn_articles conn) ->
              In b (articleResolvers.conn_articles conn2) ->
              String.ltb (Article._id b) (Article._id a) = true.
Proof.
  destruct (articles_pagination "u1"
              (articleResolvers.mkArgs (Some 1%nat) None None None None None)
              (with_articles three_articles role_world))
    as (_ & conn & Hrun & _ & _ & _ & Hnext).
  exists conn. split; [exact Hrun|].
  assert (articleResolvers.nextCursor conn = Some "a3") as Hc.
  { vm_compute in Hrun. by injection Hrun as <-. }
  split; [exact Hc|]. apply Hnext; [exact Hc | discriminate].
Defined.

Lemma getById_run (a : string) (w : World) :
  faults w = [] ->
  articleService.getById a w
  = match redis w !! cacheKeys.article a with
    | Some hit => (Ok (Some (data hit)), w)
    | None =>
        match find_article a (articles w) with
        | Some art =>
            (Ok (Some (CArticle art)),
             with_redis (<[cacheKeys.article a := mkEntry (CArticle art) cacheTTL.article]>
                           (redis w)) w)
        | None => (Ok None, w)
        end
    end.
Proof.
  intros Hf. unfold articleService.getById, bind. rewrite get_healthy by done.
  destruct (redis w !! cacheKeys.article a) as [hit|]; simpl; [done|].
  unfold get_world, find_article.
  destruct (List.find _ (articles w)) as [art|]; [|done].
  by rewrite set_healthy.
Qed.

(** X16.  With Redis reachable: after [toggleSave] or [incrementViews],
    [getById] returns the stored article with its new counter, not a
    cached copy.  After [engagementService.viewArticle], which raises
    the views counter without touching the cache, [getById] returns the
    copy that was cached before the view.  A second [getById] returns
    what the first returned, even when the article is gone from the
    collection by then. *)
Theorem getById_coherence (a u : string) (save : bool) (now : Z) (w : World) :
  faults w = [] ->
  (bind (articleService.toggleSave a save) (fun _ => articleService.getById a) w).1
  = Ok (CArticle <$> (Mongo.inc_saves (if save then 1 else -1)
                        <$> find_article a (articles w)))
  /\ (bind (articleService.incrementViews a) (fun _ => articleService.getById a) w).1
     = Ok (CArticle <$> (Mongo.inc_views <$> find_article a (articles w)))
  /\ (forall hit,
        redis w !! cacheKeys.article a = Some hit ->
        (bind (engagementService.viewArticle now u a)
           (fun _ => articleService.getById a) w).1 = Ok (Some (data hit)))
  /\ (forall l,
        (articleService.getById a
           (with_articles l (articleService.getById a w).2)).1
        = match (articleService.getById a w).1 with
          | Ok (Some v) => Ok (Some v)
          | _ => (articleService.getById a (with_articles l w)).1
          end).
Proof.
  intros Hf.
  assert (forall x d, String.eqb (Article._id (Mongo.inc_saves d x)) a
                      = String.eqb (Article._id x) a) as Hsaves by done.
  assert (forall x, String.eqb (Article._id (Mongo.inc_views x)) a
                    = String.eqb (Article._id x) a) as Hviews by done.
  repeat split.
  - unfold bind, articleService.toggleSave, bind, Mongo.updateArticleById, modify.
    rewrite del_healthy by done. rewrite getById_run by done. simpl.
    rewrite lookup_delete_eq. unfold find_article.
    destruct save; rewrite update_one_find by (intros; apply Hsaves);
      by destruct (List.find _ (articles w)).
  - unfold bind, articleService.incrementViews, bind, Mongo.updateArticleById, modify.
    rewrite del_healthy by done. rewrite getById_run by done. simpl.
    rewrite lookup_delete_eq. unfold find_article.
    rewrite update_one_find by exact Hviews.
    by destruct (List.find _ (articles w)).
  - intros hit Hhit. unfold bind. rewrite viewArticle_run.
    rewrite getById_run by done. simpl. by rewrite Hhit.
  - intros l. rewrite (getById_run a w) by done.
    destruct (redis w !! cacheKeys.article a) as [hit|] eqn:Hhit.
    + simpl. rewrite getById_run by done. simpl. by rewrite Hhit.
    + destruct (find_article a (articles w)) as [art|]; simpl.
      * rewrite getById_run by done. simpl. by rewrite lookup_insert_eq.
      * reflexivity.
Qed.

Lemma getById_coherence_witness :
  (bind (articleService.toggleSave "a1" true) (fun _ => articleService.getById "a1")
     role_world).1
  = Ok (CArticle <$> (Mongo.inc_saves 1 <$> find_article "a1" (articles role_world))).
Proof.
  apply (proj1 (getById_coherence "a1" "u1" true 2000 role_world eq_refl)).
Defined.

(** ** The trending service *)

Lemma hotter_asym (now : Z) (x y : Article.t) :
  trendingService.hotter now y x = true -> trendingService.hotter now x y = false.
Proof.
  unfold trendingService.hotter. repeat destruct (Rlt_dec _ _); try done. Lra.lra.
Qed.

Lemma hotter_trans (now : Z) (a b c : Article.t) :
  trendingService.hotter now b a = false -> trendingService.hotter now c b = false ->
  trendingService.hotter now c a = false.
Proof.
  unfold trendingService.hotter. repeat destruct (Rlt_dec _ _); try done. Lra.lra.
Qed.

Lemma sort_hotter_sorted (now : Z) (l : list Article.t) :
  StronglySorted
    (fun a b => (trendingService.trendingScore now b
                 <= trendingService.trendingScore now a)%R)
    (JS.sort (trendingService.hotter now) l).
Proof.
  apply (StronglySorted_weaken (in_order (trendingService.hotter now))).
  - unfold in_order, trendingService.hotter. intros a b.
    destruct (Rlt_dec _ _); [done|]. intros _. Lra.lra.
  - apply sort_sorted; [apply hotter_asym | apply hotter_trans].
Qed.

Lemma trendingScore_nonneg (now : Z) (a : Article.t) :
  scorable now a -> (0 <= trendingService.trendingScore now a)%R.
Proof.
  intros (_ & (v & Hv & [Hv0 _]) & (s & Hs & [Hs0 _]) & (sh & Hsh & [Hsh0 _])).
  unfold trendingService.trendingScore, trendingService.calculateScore,
    trendingService.WEIGHTS.views, trendingService.WEIGHTS.saves,
    trendingService.WEIGHTS.shares, trendingService.Math_pow.
  rewrite Hv, Hs, Hsh. cbn [default Datatypes.id from_option].
  apply IZR_le in Hv0, Hs0, Hsh0.
  apply Rmult_le_pos; [Lra.lra|].
  apply Rlt_le, Rinv_0_lt_compat. unfold Rpower. apply exp_pos.
Qed.

Lemma StronglySorted_on {A} (P : A -> Prop) (R S : A -> A -> Prop) (l : list A) :
  (forall a b, P a -> R a b -> S a b) ->
  Forall P l -> StronglySorted R l -> StronglySorted S l.
Proof.
  intros HRS HP Hl. induction Hl as [|x l Hl IH Hx]; [constructor|].
  apply Forall_cons in HP as [Px HP]. constructor; [by apply IH|].
  eapply Forall_impl; [exact Hx|]. intros b. by apply HRS.
Qed.

(** The first [n] of the sorted articles are in descending order of
    score; the tolerance is not needed in exact arithmetic. *)
Lemma take_hotter_descending (now : Z) (n : nat) (l : list Article.t) :
  Forall (scorable now) l ->
  scores_descending now (take n (JS.sort (trendingService.hotter now) l)).
Proof.
  intros Hl.
  apply (StronglySorted_on (scorable now)
           (fun a b => (trendingService.trendingScore now b
                        <= trendingService.trendingScore now a)%R)).
  - intros a b Ha Hab. apply trendingScore_nonneg in Ha.
    assert (0 < score_tolerance)%R
      by (unfold score_tolerance; apply Rinv_0_lt_compat, pow_lt; Lra.lra).
    Lra.nra.
  - by apply Forall_take, sort_Forall.
  - apply take_sorted, sort_hotter_sorted.
Qed.

Lemma filter_Forall {A} (P : A -> Prop) (p : A -> bool) (l : list A) :
  Forall P l -> Forall P (List.filter p l).
Proof.
  induction 1 as [|x l Hx _ IH]; simpl; [constructor|].
  destruct (p x); [by constructor | done].
Qed.

Lemma date_gte_Some (d : option Z) (since : Z) :
  Mongo.date_gte d since = true -> exists t, d = Some t /\ since <= t.
Proof.
  destruct d as [t|]; simpl; [|done]. intros H. exists t. split; [done | lia].
Qed.

Lemma computeTrending_run (now days : Z) (limit : nat) (w : World) :
  limit <> 0%nat ->
  trendingService.computeTrending now days limit w
  = (Ok (take limit
           (JS.sort (trendingService.hotter now)
              (List.filter (fun a =>
                  Mongo.date_gte (Article.publishedAt a)
                    (now - days * 24 * 60 * 60 * 1000)
                  && Article.isActive a
                  && JS.geq (Article.qualityScore a) 5) (articles w)))), w).
Proof. by destruct limit. Qed.

(** X17.  [computeTrending] reads without changing anything.  With a
    limit of 0 the aggregation is refused and the call throws.  With
    another limit, and articles that are not dated ahead of the clock,
    are not older than [max_age] and have their counters, it returns at
    most [limit] articles in descending order of trending score at the
    time of the call, up to the tolerance of [scores_descending], each
    an active article of the collection with quality at least 5 that
    was published within the window. *)
Theorem computeTrending_shape (now days : Z) (limit : nat) (w : World) :
  (limit = 0%nat -> trendingService.computeTrending now days limit w = (Throw, w))
  /\ (limit <> 0%nat -> Forall (scorable now) (articles w) ->
      exists l,
        trendingService.computeTrending now days limit w = (Ok l, w)
        /\ (length l <= limit)%nat
        /\ scores_descending now l
        /\ Forall (fun a => In a (articles w) /\ in_trending_window now days a) l).
Proof.
  split; [by intros ->|]. intros Hlimit Hscorable.
  rewrite computeTrending_run by done.
  eexists. split; [reflexivity|]. repeat split.
  - rewrite length_take. lia.
  - by apply take_hotter_descending, filter_Forall.
  - apply Forall_take, sort_Forall, Forall_forall. intros a Ha.
    apply list_elem_of_In, filter_In in Ha as [Hin Hq].
    rewrite !andb_true_iff in Hq. destruct Hq as [[Hdate Hact] Hq].
    split; [done|]. repeat split; [by apply date_gte_Some | done |].
    by apply Qle_bool_iff.
Qed.

Lemma scorable_trending_world : Forall (scorable one_hour) (articles trending_world).
Proof.
  constructor; [|constructor]. split; [|repeat split].
  - intros t [= <-]. unfold one_hour, max_age. lia.
  - exists 10. split; [reflexivity | unfold exact_counter; lia].
  - exists 1. split; [reflexivity | unfold exact_counter; lia].
  - exists 0. split; [reflexivity | unfold exact_counter; lia].
Qed.

Lemma computeTrending_shape_witness :
  exists l,
    trendingService.computeTrending one_hour 7 10 trending_world
    = (Ok l, trending_world)
    /\ (length l <= 10)%nat.
Proof.
  destruct (proj2 (computeTrending_shape one_hour 7 10 trending_world))
    as (l & Hrun & Hlen & _); [discriminate | apply scorable_trending_world |].
  exists l. by split.
Defined.





Lemma glob_trending (rest : string) : glob "trending:*" ("trending:" +:+ rest) = true.
Proof.
  apply (glob_app_same "trending:" (String star_ascii "") rest), glob_star_all.
Qed.

(** X19.  With Redis reachable, [invalidateCache] removes every trending
    list, by period and by role, and leaves the feed pages, the article
    entries, the user profiles and the sessions as they were. *)
Theorem invalidateCache_scope (w : World) :
  faults w = [] ->
  let run := trendingService.invalidateCache w in
  run.1 = Ok tt
  /\ (forall days, redis run.2 !! cacheKeys.trending days = None)
  /\ (forall r days, redis run.2 !! trendingService.roleKey r days = None)
  /\ (forall u page, redis run.2 !! cacheKeys.userFeed u page
                     = redis w !! cacheKeys.userFeed u page)
  /\ (forall a, redis run.2 !! cacheKeys.article a = redis w !! cacheKeys.article a)
  /\ (forall u, redis run.2 !! cacheKeys.userProfile u
                = redis w !! cacheKeys.userProfile u)
  /\ (forall s, redis run.2 !! cacheKeys.session s = redis w !! cacheKeys.session s).
Proof.
  intros Hf run. subst run.
  pose proof (delPattern_lookup "trending:*" w Hf) as Hlookup.
  unfold trendingService.invalidateCache, bind.
  rewrite delPattern_healthy in * by done. cbn [fst snd ret] in *.
  split; [done|]. repeat split; intros; rewrite Hlookup.
  - change (cacheKeys.trending days)
      with ("trending:" +:+ ("articles:" +:+ pretty days +:+ "days")).
    by rewrite glob_trending.
  - change (trendingService.roleKey r days)
      with ("trending:" +:+ ("role:" +:+ r +:+ ":" +:+ pretty days)).
    by rewrite glob_trending.
  - reflexivity.
  - reflexivity.
  - reflexivity.
  - reflexivity.
Qed.

Lemma invalidateCache_scope_witness :
  redis (trendingService.invalidateCache
           (trendingService.computeAllPeriods one_hour trending_world).2).2
    !! cacheKeys.trending 7 = None.
Proof.
  apply (proj1 (proj2 (invalidateCache_scope
                         (trendingService.computeAllPeriods one_hour trending_world).2
                         eq_refl))).
Defined.

Lemma targets_In (r : string) (a : Article.t) :
  trendingService.targets r a = true ->
  exists t, In t (default [] (Article.targetRoles a)) /\ role t = r.
Proof.
  unfold trendingService.targets. intros H.
  apply existsb_exists in H as (t & Ht & Heq). apply String.eqb_eq in Heq. eauto.
Qed.

Lemma getTrendingByRole_run (now : Z) (r : string) (days : Z) (limit : nat)
    (w : World) :
  faults w = [] ->
  redis w !! trendingService.roleKey r days = None ->
  limit <> 0%nat ->
  let l :=
    take limit
      (JS.sort (trendingService.hotter now)
         (List.filter (fun a =>
             Mongo.date_gte (Article.publishedAt a) (now - days * 24 * 60 * 60 * 1000)
             && Article.isActive a
             && JS.geq (Article.qualityScore a) 5
             && trendingService.targets r a) (articles w))) in
  trendingService.getTrendingByRole now r days limit w
  = (Ok (CArticles l),
     with_redis (<[trendingService.roleKey r days := mkEntry (CArticles l) 1800]>
                   (redis w)) w).
Proof.
  intros Hf Hmiss Hlimit l. unfold trendingService.getTrendingByRole, bind.
  rewrite get_healthy by done. rewrite Hmiss. cbn [fmap option_fmap option_map].
  unfold get_world. destruct limit; [done|].
  cbn [trendingService.limit_stage ret]. by rewrite set_healthy.
Qed.

(** X20.  With Redis reachable and nothing cached for the role and the
    window: with a limit of 0 the aggregation is refused, the call
    throws and nothing is stored.  With another limit, and articles
    that are not dated ahead of the clock, are not older than [max_age]
    and have their counters, [getTrendingByRole] returns at most [limit]
    articles in descending order of trending score, up to the tolerance
    of [scores_descending], each in the trending window and targeted at
    the role, and stores the list for 1800 seconds under the key of
    the role and the window; a further request for them gets the first
    [limit'] articles of that list. *)
Theorem getTrendingByRole_miss (now now' : Z) (r : string) (days : Z)
    (limit limit' : nat) (w : World) :
  faults w = [] ->
  redis w !! trendingService.roleKey r days = None ->
  (limit = 0%nat ->
   trendingService.getTrendingByRole now r days limit w = (Throw, w))
  /\ (limit <> 0%nat -> Forall (scorable now) (articles w) ->
      exists l,
        trendingService.getTrendingByRole now r days limit w
        = (Ok (CArticles l),
           with_redis (<[trendingService.roleKey r days := mkEntry (CArticles l) 1800]>
                         (redis w)) w)
        /\ (length l <= limit)%nat
        /\ scores_descending now l
        /\ Forall (fun a => In a (articles w) /\ in_trending_window now days a
                            /\ exists t, In t (default [] (Article.targetRoles a))
                                         /\ role t = r) l
        /\ (trendingService.getTrendingByRole now' r days limit'
              (trendingService.getTrendingByRole now r days limit w).2).1
           = Ok (CArticles (take limit' l))).
Proof.
  intros Hf Hmiss. split.
  { intros ->. unfold trendingService.getTrendingByRole, bind.
    rewrite get_healthy by done. by rewrite Hmiss. }
  intros Hlimit Hscorable.
  rewrite (getTrendingByRole_run now r days limit w Hf Hmiss Hlimit).
  eexists. split; [reflexivity|]. repeat split.
  - rewrite length_take. lia.
  - by apply take_hotter_descending, filter_Forall.
  - apply Forall_take, sort_Forall, Forall_forall. intros a Ha.
    apply list_elem_of_In, filter_In in Ha as [Hin Hq].
    rewrite !andb_true_iff in Hq. destruct Hq as [[[Hdate Hact] Hq] Ht].
    split; [done|]. split; [|by apply targets_In].
    repeat split; [by apply date_gte_Some | done | by apply Qle_bool_iff].
  - cbn [snd]. unfold trendingService.getTrendingByRole, bind.
    rewrite get_healthy by exact Hf. cbn [redis with_redis].
    rewrite lookup_insert_eq. reflexivity.
Qed.

Lemma getTrendingByRole_miss_witness :
  exists l,
    trendingService.getTrendingByRole one_hour "BACKEND" 7 10 trending_world
    = (Ok (CArticles l),
       with_redis (<[trendingService.roleKey "BACKEND" 7 := mkEntry (CArticles l) 1800]>
                     (redis trending_world)) trending_world)
    /\ (length l <= 10)%nat.
Proof.
  destruct (proj2 (getTrendingByRole_miss one_hour one_hour "BACKEND" 7 10 10
                     trending_world eq_refl eq_refl))
    as (l & Hrun & Hlen & _); [discriminate | apply scorable_trending_world |].
  exists l. by split.
Defined.

Section ScoreWeights.
Local Open Scope R_scope.

(** X21.  For counters that are integers, not negative and at most
    2^40, and an age of whole milliseconds up to [max_age], one more
    save weighs as much as three more views and one more share as much
    as five; and more views, saves or shares give a strictly higher
    score. *)
Theorem calculateScore_weights (views saves shares extra ms : Z) :
  exact_counter views -> exact_counter saves -> exact_counter shares ->
  exact_counter extra -> (0 <= ms <= max_age)%Z ->
  let hoursOld := age_hours ms in
  trendingService.calculateScore (IZR views) (IZR (saves + 1)) (IZR shares) hoursOld
  = trendingService.calculateScore (IZR (views + 3)) (IZR saves) (IZR shares) hoursOld
  /\ trendingService.calculateScore (IZR views) (IZR saves) (IZR (shares + 1)) hoursOld
     = trendingService.calculateScore (IZR (views + 5)) (IZR saves) (IZR shares) hoursOld
  /\ ((0 < extra)%Z ->
      trendingService.calculateScore (IZR views) (IZR saves) (IZR shares) hoursOld
      < trendingService.calculateScore (IZR (views + extra)) (IZR saves) (IZR shares)
          hoursOld
      /\ trendingService.calculateScore (IZR views) (IZR saves) (IZR shares) hoursOld
         < trendingService.calculateScore (IZR views) (IZR (saves + extra)) (IZR shares)
             hoursOld
      /\ trendingService.calculateScore (IZR views) (IZR saves) (IZR shares) hoursOld
         < trendingService.calculateScore (IZR views) (IZR saves) (IZR (shares + extra))
             hoursOld).
Proof.
  intros _ _ _ _ [Hms _] hoursOld.
  assert (0 < trendingService.Math_pow (hoursOld + 2) trendingService.GRAVITY) as Hp.
  { unfold trendingService.Math_pow, Rpower. apply exp_pos. }
  unfold trendingService.calculateScore, trendingService.WEIGHTS.views,
    trendingService.WEIGHTS.saves, trendingService.WEIGHTS.shares.
  set (p := trendingService.Math_pow (hoursOld + 2) trendingService.GRAVITY) in *.
  assert (0 < / p) as Hinv by (by apply Rinv_0_lt_compat).
  rewrite !plus_IZR. unfold Rdiv. split; [|split].
  - f_equal. Lra.lra.
  - f_equal. Lra.lra.
  - intros Hextra. apply (IZR_lt 0) in Hextra. repeat split.
    + apply Rmult_lt_compat_r; [done | Lra.lra].
    + apply Rmult_lt_compat_r; [done | Lra.lra].
    + apply Rmult_lt_compat_r; [done | Lra.lra].
Qed.

Lemma calculateScore_weights_witness :
  trendingService.calculateScore (IZR 100) (IZR 10) (IZR (1 + 1)) (age_hours 0)
  = trendingService.calculateScore (IZR (100 + 5)) (IZR 10) (IZR 1) (age_hours 0).
Proof.
  apply (proj1 (proj2 (calculateScore_weights 100 10 1 1 0
                         ltac:(unfold exact_counter; lia)
                         ltac:(unfold exact_counter; lia)
                         ltac:(unfold exact_counter; lia)
                         ltac:(unfold exact_counter; lia)
                         ltac:(unfold max_age; lia)))).
Defined.
End ScoreWeights.

(** ** Shares *)

Lemma shareArticle_run (now : Z) (u a platform : string) (w : World) :
  engagementService.shareArticle now u a platform w
  = (Ok true,
     with_engagements
       (engagements w ++ [Engagement.mk (Bson.Str u) (Bson.Str a) SHARE now]) w).
Proof. reflexivity. Qed.

(** X22.  [shareArticle] always returns [true] and appends a row: every
    call adds one SHARE row for the pair, so two calls add two, where
    two views leave one VIEW row.  It changes no article, so the
    article's shares counter stays as it was, and it does not touch the
    cache. *)
Theorem shareArticle_appends (now1 now2 : Z) (u a p1 p2 : string) (w : World) :
  let r1 := engagementService.shareArticle now1 u a p1 w in
  let r2 := engagementService.shareArticle now2 u a p2 r1.2 in
  r1.1 = Ok true /\ r2.1 = Ok true
  /\ share_rows u a (engagements r1.2) = S (share_rows u a (engagements w))
  /\ share_rows u a (engagements r2.2) = S (S (share_rows u a (engagements w)))
  /\ view_rows u a (engagements r2.2) = view_rows u a (engagements w)
  /\ articles r2.2 = articles w
  /\ redis r2.2 = redis w.
Proof.
  intros r1 r2. subst r1 r2. rewrite !shareArticle_run. simpl.
  unfold share_rows, view_rows, engagementService.is_view_of.
  rewrite !List.filter_app, !length_app. simpl.
  rewrite !String.eqb_refl. simpl. repeat split; lia.
Qed.

(** ** Cache key namespaces *)

(** X23.  Keys built by different builders never collide, whatever the
    ids: an article entry, a feed page, a trending list by period or by
    role, a user profile and a session are six disjoint families, and
    the two pages of a user have different keys. *)
Theorem cacheKeys_disjoint (a u u' p s r : string) (page : N) (days days' : Z) :
  cacheKeys.article a <> cacheKeys.userFeed u page
  /\ cacheKeys.article a <> cacheKeys.trending days
  /\ cacheKeys.article a <> trendingService.roleKey r days
  /\ cacheKeys.article a <> cacheKeys.userProfile p
  /\ cacheKeys.article a <> cacheKeys.session s
  /\ cacheKeys.userFeed u page <> cacheKeys.trending days
  /\ cacheKeys.userFeed u page <> trendingService.roleKey r days
  /\ cacheKeys.userFeed u page <> cacheKeys.userProfile p
  /\ cacheKeys.userFeed u page <> cacheKeys.session s
  /\ cacheKeys.trending days <> trendingService.roleKey r days'
  /\ cacheKeys.trending days <> cacheKeys.userProfile p
  /\ cacheKeys.trending days <> cacheKeys.session s
  /\ trendingService.roleKey r days <> cacheKeys.userProfile p
  /\ trendingService.roleKey r days <> cacheKeys.session s
  /\ cacheKeys.userProfile p <> cacheKeys.session s
  /\ cacheKeys.userFeed u' 0 <> cacheKeys.userFeed u' 1.
Proof.
  unfold cacheKeys.article, cacheKeys.userFeed, cacheKeys.trending,
    trendingService.roleKey, cacheKeys.userProfile, cacheKeys.session.
  repeat split; try (simpl; discriminate).
  intros H. apply append_inj_l, append_inj_l in H. discriminate H.
Qed.

(** ** The trending list of the feed service *)

Lemma more_viewed_asym (x y : Article.t) :
  feedService.more_viewed y x = true -> feedService.more_viewed x y = false.
Proof.
  unfold feedService.more_viewed, Mongo.opt_lt, Mongo.opt_eq.
  destruct (Article.views x) as [vx|], (Article.views y) as [vy|],
    (Article.saves x) as [sx|], (Article.saves y) as [sy|]; simpl;
    rewrite ?orb_true_iff, ?orb_false_iff, ?andb_true_iff, ?andb_false_iff,
      ?Z.ltb_lt, ?Z.ltb_ge, ?Z.eqb_eq, ?Z.eqb_neq; intros; try done; lia.
Qed.

Lemma more_viewed_trans (a b c : Article.t) :
  feedService.more_viewed b a = false -> feedService.more_viewed c b = false ->
  feedService.more_viewed c a = false.
Proof.
  unfold feedService.more_viewed, Mongo.opt_lt, Mongo.opt_eq.
  destruct (Article.views a) as [va|], (Article.views b) as [vb|],
    (Article.views c) as [vc|], (Article.saves a) as [sa|],
    (Article.saves b) as [sb|], (Article.saves c) as [sc|]; simpl;
    rewrite ?orb_true_iff, ?orb_false_iff, ?andb_true_iff, ?andb_false_iff,
      ?Z.ltb_lt, ?Z.ltb_ge, ?Z.eqb_eq, ?Z.eqb_neq; intros; try done;
    try (intuition (try discriminate; try lia)).
Qed.

(** X24.  With Redis reachable and nothing cached for the window,
    [feedService.getTrending] returns active articles of quality at
    least 7 published within the window, the most viewed first (a
    missing counter below every number): at most [limit] of them, and
    all of them when the limit is 0, which is no limit for a query.  It
    stores the list for 600 seconds under the key of the window. *)
Theorem feed_getTrending_miss (now days : Z) (limit : nat) (w : World) :
  faults w = [] ->
  redis w !! cacheKeys.trending days = None ->
  exists l,
    feedService.getTrending now days limit w
    = (Ok (CArticles l),
       with_redis (<[cacheKeys.trending days := mkEntry (CArticles l) 600]> (redis w)) w)
    /\ (limit <> 0%nat -> (length l <= limit)%nat)
    /\ (limit = 0%nat ->
        forall a, In a (articles w) ->
                  Mongo.date_gte (Article.publishedAt a)
                    (now - days * 24 * 60 * 60 * 1000) = true ->
                  (7 <= Article.qualityScore a)%Q -> Article.isActive a = true ->
                  In a l)
    /\ StronglySorted
         (fun a b => Mongo.opt_lt Z.ltb (Article.views a) (Article.views b) = false) l
    /\ Forall (fun a => In a (articles w)
                        /\ (exists t, Article.publishedAt a = Some t
                                      /\ now - days * 24 * 60 * 60 * 1000 <= t)
                        /\ (7 <= Article.qualityScore a)%Q
                        /\ Article.isActive a = true) l.
Proof.
  intros Hf Hmiss. unfold feedService.getTrending, bind.
  rewrite get_healthy by done. rewrite Hmiss. cbn [fmap option_fmap option_map].
  unfold get_world. rewrite set_healthy by done.
  eexists. split; [reflexivity|]. repeat split.
  - apply limit_length.
  - intros -> a Hin Hdate Hq Hact. simpl.
    apply (sort_In feedService.more_viewed a), filter_In. split; [done|].
    rewrite Hdate, Hact. simpl. rewrite andb_true_r. by apply Qle_bool_iff.
  - apply limit_sorted.
    apply (StronglySorted_weaken (in_order feedService.more_viewed)).
    + unfold in_order, feedService.more_viewed. intros a b H.
      by apply orb_false_iff in H as [H _].
    + apply sort_sorted; [apply more_viewed_asym | apply more_viewed_trans].
  - apply limit_Forall, sort_Forall, Forall_forall. intros a Ha.
    apply list_elem_of_In, filter_In in Ha as [Hin Hq].
    rewrite !andb_true_iff in Hq. destruct Hq as [[Hdate Hq] Hact].
    split; [done|]. repeat split; [by apply date_gte_Some | | done].
    by apply Qle_bool_iff.
Qed.

Lemma feed_getTrending_miss_witness :
  exists l,
    feedService.getTrending one_hour 7 10 trending_world
    = (Ok (CArticles l),
       with_redis (<[cacheKeys.trending 7 := mkEntry (CArticles l) 600]>
                     (redis trending_world)) trending_world)
    /\ (length l <= 10)%nat.
Proof.
  destruct (feed_getTrending_miss one_hour 7 10 trending_world)
    as (l & Hrun & Hlen & _); [reflexivity | reflexivity |].
  exists l. split; [exact Hrun | by apply Hlen].
Defined.

(** ** Saturation of the engagement score *)

Section Saturation.
Local Open Scope Q_scope.

Lemma Math_min_saturated (a : Q) : 1 <= a -> JS.Math_min a 1 == 1.
Proof.
  intros Ha. destruct (Math_min_spec a 1) as [[? ->]|[? ->]]; lra.
Qed.

Lemma calculateEngagement_saturated (article : FeedArticle) :
  (1000 <= default 0 (Article.views article))%Z ->
  (100 <= default 0 (Article.saves article))%Z ->
  feedService.calculateEngagement article == 1.
Proof.
  intros Hv Hs. unfold feedService.calculateEngagement.
  rewrite !Math_min_saturated; [lra | |].
  - apply Qle_shift_div_l; [reflexivity|]. rewrite Zle_Qle in Hs.
    change (inject_Z 100) with 100 in Hs. lra.
  - apply Qle_shift_div_l; [reflexivity|]. rewrite Zle_Qle in Hv.
    change (inject_Z 1000) with 1000 in Hv. lra.
Qed.

(** X25.  Views beyond 1000 and saves beyond 100 do not count: two
    articles that differ only in counters at or above these marks have
    the same relevance score for every user at every time. *)
Theorem calculateRelevanceScore_saturates (now : Z) (user : LeanUser)
    (article : FeedArticle) (views saves : Z) :
  (1000 <= default 0 (Article.views article))%Z ->
  (100 <= default 0 (Article.saves article))%Z ->
  (1000 <= views)%Z -> (100 <= saves)%Z ->
  feedService.calculateRelevanceScore now user (with_counters views saves article)
  = feedService.calculateRelevanceScore now user article.
Proof.
  intros Hv Hs Hv' Hs'. unfold feedService.calculateRelevanceScore, JS.Math_round.
  apply Qfloor_comp. unfold feedService.weighted_total.
  rewrite (calculateEngagement_saturated article Hv Hs).
  rewrite (calculateEngagement_saturated (with_counters views saves article))
    by done.
  reflexivity.
Qed.

Lemma calculateRelevanceScore_saturates_witness :
  feedService.calculateRelevanceScore 1000 user1
    (with_counters 5000 700 (with_counters 1000 100 article1))
  = feedService.calculateRelevanceScore 1000 user1 (with_counters 1000 100 article1).
Proof.
  apply calculateRelevanceScore_saturates; simpl; lia.
Defined.
End Saturation.

(** ** A pattern delete at work *)

Lemma delPattern_exact_witness :
  redis (cache.delPattern "feed:user:u1:*" role_world).2 !! "feed:user:u1:page:0"
  = if glob "feed:user:u1:*" "feed:user:u1:page:0" then None
    else redis role_world !! "feed:user:u1:page:0".
Proof.
  apply (proj1 (delPattern_exact "feed:user:u1:*" role_world eq_refl)).
Defined.
